(** * Financial Anonymizer: a shallow embedding of the transaction pipeline

    The development follows [lib/anonymizer] (class [FinancialAnonymizer]) and
    [lib/dialect.ts].  JavaScript strings are sequences of UTF-16 code units,
    numbers are IEEE-754 binary64 values, regular expressions are interpreted
    by a backtracking matcher with the ECMAScript priority rules. *)

From Stdlib Require Import ZArith NArith List String Ascii Bool Lia Sorted.
From Corelib Require Import SpecFloat.
From stdpp Require Import gmap strings.

Import ListNotations.
Local Open Scope list_scope.

(** ** JavaScript strings *)

Module JsString.

(** One UTF-16 code unit. *)
Definition char := N.
Definition jsstring := list N.

(** String literals of the source, written in ASCII. *)
Definition js (s : string) : jsstring :=
  map N_of_ascii (list_ascii_of_string s).

Definition isDigit (c : N) : bool := (48 <=? c)%N && (c <=? 57)%N.
Definition isUpper (c : N) : bool := (65 <=? c)%N && (c <=? 90)%N.
Definition isLower (c : N) : bool := (97 <=? c)%N && (c <=? 122)%N.
Definition isWordChar (c : N) : bool :=
  isDigit c || isUpper c || isLower c || (c =? 95)%N.

(** WhiteSpace and LineTerminator code units: the set of [\s] and of [trim]. *)
Definition isSpace (c : N) : bool :=
  ((9 <=? c)%N && (c <=? 13)%N) || (c =? 32)%N || (c =? 160)%N
  || (c =? 5760)%N || ((8192 <=? c)%N && (c <=? 8202)%N)
  || (c =? 8232)%N || (c =? 8233)%N || (c =? 8239)%N || (c =? 8287)%N
  || (c =? 12288)%N || (c =? 65279)%N.

Definition isLineTerminator (c : N) : bool :=
  (c =? 10)%N || (c =? 13)%N || (c =? 8232)%N || (c =? 8233)%N.

(** Case mapping on the ASCII letters; other code units are kept.  On text
    written in ASCII this is [toLowerCase] and [toUpperCase] of the source;
    the source also maps letters outside ASCII, so the properties that rest
    on the case mapping of a text are stated for ASCII text. *)
Definition toLowerChar (c : N) : N := if isUpper c then (c + 32)%N else c.
Definition toUpperChar (c : N) : N := if isLower c then (c - 32)%N else c.

Definition toLowerCase (s : jsstring) : jsstring := map toLowerChar s.
Definition toUpperCase (s : jsstring) : jsstring := map toUpperChar s.

Fixpoint streq (a b : jsstring) : bool :=
  match a, b with
  | [], [] => true
  | x :: a', y :: b' => (x =? y)%N && streq a' b'
  | _, _ => false
  end.

(** [a < b] on strings: code-unit-wise lexicographic order. *)
Fixpoint strlt (a b : jsstring) : bool :=
  match a, b with
  | _, [] => false
  | [], _ :: _ => true
  | x :: a', y :: b' =>
      if (x <? y)%N then true
      else if (y <? x)%N then false
      else strlt a' b'
  end.

Fixpoint startsWith (p s : jsstring) : bool :=
  match p, s with
  | [], _ => true
  | x :: p', y :: s' => (x =? y)%N && startsWith p' s'
  | _ :: _, [] => false
  end.

Definition endsWith (p s : jsstring) : bool := startsWith (rev p) (rev s).

(** [s.includes(p)] *)
Fixpoint includes (p s : jsstring) : bool :=
  startsWith p s ||
  match s with
  | [] => false
  | _ :: s' => includes p s'
  end.

Fixpoint trimStart (s : jsstring) : jsstring :=
  match s with
  | c :: s' => if isSpace c then trimStart s' else s
  | [] => []
  end.

Definition trimEnd (s : jsstring) : jsstring := rev (trimStart (rev s)).
Definition trim (s : jsstring) : jsstring := trimEnd (trimStart s).

(** Truthiness of a string value: [!val] holds for the empty string. *)
Definition truthy (s : jsstring) : bool :=
  match s with [] => false | _ :: _ => true end.

(** [arr.join(sep)] *)
Fixpoint join (sep : jsstring) (l : list jsstring) : jsstring :=
  match l with
  | [] => []
  | [x] => x
  | x :: l' => x ++ sep ++ join sep l'
  end.

(** Decimal rendering of a non-negative integer, as template literals and
    string concatenation produce it. *)
Fixpoint digitsOf (fuel : nat) (n : N) (acc : jsstring) : jsstring :=
  match fuel with
  | O => acc
  | S f =>
      let acc' := (48 + n mod 10)%N :: acc in
      if (n <? 10)%N then acc' else digitsOf f (n / 10)%N acc'
  end.

Definition natToString (n : nat) : jsstring :=
  digitsOf (S n) (N.of_nat n) [].

End JsString.

Export JsString.

(** ** Regular expressions *)

Module Regex.

(** Members of a character class. *)
Inductive citem :=
| CChar (c : N)
| CRange (lo hi : N)
| CDigit | CNotDigit
| CWord | CNotWord
| CSpace | CNotSpace.

Inductive re :=
| Empty
| Char (c : N)
| Any
| Class (neg : bool) (items : list citem)
| Seq (a b : re)
| Alt (a b : re)
| Rep (min : nat) (max : option nat) (greedy : bool) (r : re)
| Bol | Eol
| WordB | NotWordB.

(** A position in the subject: the code unit before it, its index, and the
    rest of the subject. *)
Record pos := mkPos { ppre : option N; pidx : nat; prest : jsstring }.

Definition startPos (s : jsstring) : pos := mkPos None 0 s.

(** Canonicalize of the [i] flag on the ASCII letters: exact when the
    pattern or the subject is written in ASCII, since no code unit from 128
    on is folded to one below. *)
Definition canon (ic : bool) (c : N) : N := if ic then toUpperChar c else c.

Definition inRange (ic : bool) (lo hi c : N) : bool :=
  let within x := (lo <=? x)%N && (x <=? hi)%N in
  if ic then within c || within (toUpperChar c) || within (toLowerChar c)
  else within c.

Definition itemMatches (ic : bool) (it : citem) (c : N) : bool :=
  match it with
  | CChar x => (canon ic x =? canon ic c)%N
  | CRange lo hi => inRange ic lo hi c
  | CDigit => isDigit c
  | CNotDigit => negb (isDigit c)
  | CWord => isWordChar c
  | CNotWord => negb (isWordChar c)
  | CSpace => isSpace c
  | CNotSpace => negb (isSpace c)
  end.

Definition classMatches (ic neg : bool) (items : list citem) (c : N) : bool :=
  xorb neg (existsb (fun it => itemMatches ic it c) items).

Definition isWordOpt (o : option N) : bool :=
  match o with Some c => isWordChar c | None => false end.

Definition atWordBoundary (p : pos) : bool :=
  xorb (isWordOpt (ppre p)) (isWordOpt (head (prest p))).

Definition step1 (ok : N -> bool) (k : pos -> option pos) (p : pos) : option pos :=
  match prest p with
  | c :: t => if ok c then k (mkPos (Some c) (S (pidx p)) t) else None
  | [] => None
  end.

Definition orElse (a b : option pos) : option pos :=
  match a with Some _ => a | None => b end.

(** RepeatMatcher: an iteration that consumes nothing once the minimum is
    reached is rejected, which bounds the iterations by [fuel]. *)
Fixpoint rloop (m : (pos -> option pos) -> pos -> option pos)
         (greedy : bool) (mn : nat) (mx : option nat) (fuel : nat)
         (k : pos -> option pos) (p : pos) : option pos :=
  match fuel with
  | O => None
  | S f =>
      match mx with
      | Some O => k p
      | _ =>
          let again :=
            m (fun p' =>
                 if (mn =? 0)%nat && (pidx p' =? pidx p)%nat then None
                 else rloop m greedy (pred mn) (option_map pred mx) f k p') p in
          if (0 <? mn)%nat then again
          else if greedy then orElse again (k p)
               else orElse (k p) again
      end
  end.

(** The matcher in continuation-passing style: [rmatch ic r k p] tries the
    ways [r] matches at [p] in priority order and returns the first for
    which the continuation [k] succeeds. *)
Fixpoint rmatch (ic : bool) (r : re) (k : pos -> option pos) (p : pos)
  : option pos :=
  match r with
  | Empty => k p
  | Char c => step1 (fun x => (canon ic c =? canon ic x)%N) k p
  | Any => step1 (fun x => negb (isLineTerminator x)) k p
  | Class neg items => step1 (classMatches ic neg items) k p
  | Seq a b => rmatch ic a (rmatch ic b k) p
  | Alt a b => orElse (rmatch ic a k p) (rmatch ic b k p)
  | Rep mn mx g a =>
      rloop (rmatch ic a) g mn mx (mn + List.length (prest p) + 1) k p
  | Bol => match ppre p with None => k p | Some _ => None end
  | Eol => match prest p with [] => k p | _ :: _ => None end
  | WordB => if atWordBoundary p then k p else None
  | NotWordB => if atWordBoundary p then None else k p
  end.

(** A match starting exactly at [p]; the result is the end position. *)
Definition matchAt (ic : bool) (r : re) (p : pos) : option pos :=
  rmatch ic r Some p.

(** Leftmost match at or after the position [(pre, idx, rest)]:
    start index and end position. *)
Fixpoint searchFrom (ic : bool) (r : re) (pre : option N) (idx : nat)
         (rest : jsstring) : option (nat * pos) :=
  match matchAt ic r (mkPos pre idx rest) with
  | Some e => Some (idx, e)
  | None =>
      match rest with
      | [] => None
      | c :: t => searchFrom ic r (Some c) (S idx) t
      end
  end.

(** [re.test(s)] for a regex without the [g] flag (or with [lastIndex] 0). *)
Definition test (ic : bool) (r : re) (s : jsstring) : bool :=
  match searchFrom ic r None 0 s with Some _ => true | None => false end.

(** The position of [s] at index [i], if [i <= s.length]. *)
Fixpoint posAt (pre : option N) (idx : nat) (s : jsstring) (i : nat)
  : option pos :=
  match i with
  | O => Some (mkPos pre idx s)
  | S i' =>
      match s with
      | [] => None
      | c :: t => posAt (Some c) (S idx) t i'
      end
  end.

(** [re.test(s)] for a regex with the [g] flag: the search starts at
    [lastIndex]; the new [lastIndex] is the end of the match, or 0. *)
Definition testG (ic : bool) (r : re) (lastIndex : nat) (s : jsstring)
  : bool * nat :=
  match posAt None 0 s lastIndex with
  | None => (false, 0)
  | Some p =>
      match searchFrom ic r (ppre p) (pidx p) (prest p) with
      | Some (_, e) => (true, pidx e)
      | None => (false, 0)
      end
  end.

(** [s.replace(re, f)] for a regex with the [g] flag: [skip] counts the
    code units of the current match still to be dropped. *)
Fixpoint replaceGo (ic : bool) (r : re) (f : jsstring -> jsstring)
         (pre : option N) (idx skip : nat) (rest : jsstring) : jsstring :=
  match skip with
  | S n =>
      match rest with
      | [] => []
      | c :: t => replaceGo ic r f (Some c) (S idx) n t
      end
  | O =>
      match matchAt ic r (mkPos pre idx rest) with
      | Some e =>
          let len := (pidx e - idx)%nat in
          f (firstn len rest) ++
          match rest with
          | [] => []
          | c :: t =>
              match len with
              | O => c :: replaceGo ic r f (Some c) (S idx) 0 t
              | S n => replaceGo ic r f (Some c) (S idx) n t
              end
          end
      | None =>
          match rest with
          | [] => []
          | c :: t => c :: replaceGo ic r f (Some c) (S idx) 0 t
          end
      end
  end.

Definition replaceAllWith (ic : bool) (r : re) (f : jsstring -> jsstring)
           (s : jsstring) : jsstring :=
  replaceGo ic r f None 0 0 s.

Definition replaceAll (ic : bool) (r : re) (by_ : jsstring) (s : jsstring)
  : jsstring :=
  replaceAllWith ic r (fun _ => by_) s.

(** [s.replace(re, by)] for a regex without the [g] flag: first match only. *)
Definition replaceFirst (ic : bool) (r : re) (by_ : jsstring) (s : jsstring)
  : jsstring :=
  match searchFrom ic r None 0 s with
  | Some (i, e) => firstn i s ++ by_ ++ prest e
  | None => s
  end.

(** [(s.match(re) || []).length] for a regex with the [g] flag. *)
Fixpoint countGo (ic : bool) (r : re) (pre : option N) (idx skip : nat)
         (rest : jsstring) : nat :=
  match skip with
  | S n =>
      match rest with
      | [] => 0
      | c :: t => countGo ic r (Some c) (S idx) n t
      end
  | O =>
      match matchAt ic r (mkPos pre idx rest) with
      | Some e =>
          S match rest with
            | [] => 0
            | c :: t => countGo ic r (Some c) (S idx) (pred (pidx e - idx)) t
            end
      | None =>
          match rest with
          | [] => 0
          | c :: t => countGo ic r (Some c) (S idx) 0 t
          end
      end
  end.

Definition countMatches (ic : bool) (r : re) (s : jsstring) : nat :=
  countGo ic r None 0 0 s.

End Regex.

(** ** Regular expression literals

    The patterns of the source are kept as text and read by this parser, so
    that each can be compared with its literal in the source.  Non-ASCII
    members of a class are written with [\uXXXX]. *)

Module RegexParse.
Import Regex.

Definition hexVal (c : N) : option N :=
  if isDigit c then Some (c - 48)%N
  else if (65 <=? c)%N && (c <=? 70)%N then Some (c - 55)%N
  else if (97 <=? c)%N && (c <=? 102)%N then Some (c - 87)%N
  else None.

Definition hex4 (s : jsstring) : option (N * jsstring) :=
  match s with
  | a :: b :: c :: d :: t =>
      match hexVal a, hexVal b, hexVal c, hexVal d with
      | Some x, Some y, Some z, Some w =>
          Some ((((x * 16 + y) * 16 + z) * 16 + w)%N, t)
      | _, _, _, _ => None
      end
  | _ => None
  end.

(** The character after a backslash, as a class member. *)
Definition escItem (c : N) (t : jsstring) : option (citem * jsstring) :=
  if (c =? 100)%N then Some (CDigit, t)
  else if (c =? 68)%N then Some (CNotDigit, t)
  else if (c =? 119)%N then Some (CWord, t)
  else if (c =? 87)%N then Some (CNotWord, t)
  else if (c =? 115)%N then Some (CSpace, t)
  else if (c =? 83)%N then Some (CNotSpace, t)
  else if (c =? 110)%N then Some (CChar 10, t)
  else if (c =? 114)%N then Some (CChar 13, t)
  else if (c =? 116)%N then Some (CChar 9, t)
  else if (c =? 117)%N then
    match hex4 t with
    | Some (v, t') => Some (CChar v, t')
    | None => None
    end
  else if isWordChar c then None
  else Some (CChar c, t).

Fixpoint readNat (fuel : nat) (acc : nat) (s : jsstring) : nat * jsstring :=
  match fuel, s with
  | S f, c :: t =>
      if isDigit c then readNat f (acc * 10 + N.to_nat (c - 48)%N) t
      else (acc, s)
  | _, _ => (acc, s)
  end.

(** Members of a class up to the closing bracket. *)
Fixpoint classItems (fuel : nat) (s : jsstring) : option (list citem * jsstring) :=
  match fuel with
  | O => None
  | S f =>
      match s with
      | [] => None
      | 93%N :: t => Some ([], t)
      | c :: t =>
          let first :=
            if (c =? 92)%N then
              match t with
              | [] => None
              | e :: t' => if (e =? 98)%N then Some (CChar 8, t') else escItem e t'
              end
            else Some (CChar c, t) in
          match first with
          | None => None
          | Some (it, rest) =>
              match it, rest with
              | CChar lo, 45%N :: hi :: rest' =>
                  if (hi =? 93)%N then
                    match classItems f rest with
                    | Some (its, r) => Some (it :: its, r)
                    | None => None
                    end
                  else if (hi =? 92)%N then
                    match classItems f rest with
                    | Some (its, r) => Some (it :: its, r)
                    | None => None
                    end
                  else
                    match classItems f rest' with
                    | Some (its, r) => Some (CRange lo hi :: its, r)
                    | None => None
                    end
              | _, _ =>
                  match classItems f rest with
                  | Some (its, r) => Some (it :: its, r)
                  | None => None
                  end
              end
          end
      end
  end.

(** A quantifier after an atom, if there is one. *)
Definition quantifier (a : re) (s : jsstring) : re * jsstring :=
  let lazyOf t :=
    match t with
    | 63%N :: t' => (false, t')
    | _ => (true, t)
    end in
  match s with
  | 42%N :: t => let '(g, t') := lazyOf t in (Rep 0 None g a, t')
  | 43%N :: t => let '(g, t') := lazyOf t in (Rep 1 None g a, t')
  | 63%N :: t => let '(g, t') := lazyOf t in (Rep 0 (Some 1) g a, t')
  | 123%N :: t =>
      match t with
      | d :: _ =>
          if isDigit d then
            let '(lo, t1) := readNat (List.length t) 0 t in
            match t1 with
            | 125%N :: t2 =>
                let '(g, t') := lazyOf t2 in (Rep lo (Some lo) g a, t')
            | 44%N :: 125%N :: t2 =>
                let '(g, t') := lazyOf t2 in (Rep lo None g a, t')
            | 44%N :: t2 =>
                let '(hi, t3) := readNat (List.length t2) 0 t2 in
                match t3 with
                | 125%N :: t4 =>
                    let '(g, t') := lazyOf t4 in (Rep lo (Some hi) g a, t')
                | _ => (a, s)
                end
            | _ => (a, s)
            end
          else (a, s)
      | [] => (a, s)
      end
  | _ => (a, s)
  end.

Definition itemRe (it : citem) : re :=
  match it with
  | CChar c => Char c
  | _ => Class false [it]
  end.

Fixpoint pDisj (fuel : nat) (s : jsstring) : option (re * jsstring) :=
  match fuel with
  | O => None
  | S f =>
      match pAlt f s with
      | Some (a, 124%N :: t) =>
          match pDisj f t with
          | Some (b, t') => Some (Alt a b, t')
          | None => None
          end
      | o => o
      end
  end
with pAlt (fuel : nat) (s : jsstring) : option (re * jsstring) :=
  match fuel with
  | O => None
  | S f =>
      match s with
      | [] => Some (Empty, [])
      | 124%N :: _ => Some (Empty, s)
      | 41%N :: _ => Some (Empty, s)
      | _ =>
          match pTerm f s with
          | Some (a, t) =>
              match pAlt f t with
              | Some (Empty, t') => Some (a, t')
              | Some (b, t') => Some (Seq a b, t')
              | None => None
              end
          | None => None
          end
      end
  end
with pTerm (fuel : nat) (s : jsstring) : option (re * jsstring) :=
  match fuel with
  | O => None
  | S f =>
      match s with
      | [] => None
      | 94%N :: t => Some (Bol, t)
      | 36%N :: t => Some (Eol, t)
      | 46%N :: t => Some (quantifier Any t)
      | 40%N :: t =>
          let body :=
            match t with
            | 63%N :: 58%N :: t' => t'
            | _ => t
            end in
          match pDisj f body with
          | Some (a, 41%N :: t') => Some (quantifier a t')
          | _ => None
          end
      | 91%N :: t =>
          let '(neg, t1) :=
            match t with
            | 94%N :: t' => (true, t')
            | _ => (false, t)
            end in
          match classItems (S (List.length t1)) t1 with
          | Some (its, t2) => Some (quantifier (Class neg its) t2)
          | None => None
          end
      | 92%N :: e :: t =>
          if (e =? 98)%N then Some (WordB, t)
          else if (e =? 66)%N then Some (NotWordB, t)
          else
            match escItem e t with
            | Some (it, t') => Some (quantifier (itemRe it) t')
            | None => None
            end
      | 92%N :: [] => None
      | c :: t =>
          if (c =? 42)%N || (c =? 43)%N || (c =? 63)%N then None
          else Some (quantifier (Char c) t)
      end
  end.

Definition parse (src : string) : option re :=
  let s := js src in
  match pDisj (2 * List.length s + 2) s with
  | Some (r, []) => Some r
  | _ => None
  end.

(** A pattern that matches nothing stands for a literal that does not
    parse; every literal below is checked to parse. *)
Definition never : re := Class false [].

Definition rx (src : string) : re :=
  match parse src with Some r => r | None => never end.

End RegexParse.

(** ** JavaScript numbers: IEEE-754 binary64 *)

Module JsNumber.

Definition prec : Z := 53.
Definition emax : Z := 1024.

Definition number := spec_float.

Definition NaN : number := S754_nan.
Definition zero : number := S754_zero false.

Definition fadd : number -> number -> number := SFadd prec emax.
Definition fsub : number -> number -> number := SFsub prec emax.
Definition fmul : number -> number -> number := SFmul prec emax.
Definition fdiv : number -> number -> number := SFdiv prec emax.
Definition fabs : number -> number := SFabs.
Definition fneg : number -> number := SFopp.

(** [a < b], [a <= b], [a === b]; all false when an operand is NaN. *)
Definition flt : number -> number -> bool := SFltb.
Definition fle : number -> number -> bool := SFleb.
Definition feq : number -> number -> bool := SFeqb.
Definition fgt (a b : number) : bool := flt b a.
Definition fge (a b : number) : bool := fle b a.

Definition isNaN (x : number) : bool :=
  match x with S754_nan => true | _ => false end.

Definition isFinite (x : number) : bool :=
  match x with
  | S754_nan | S754_infinity _ => false
  | _ => true
  end.

(** Truthiness of a number: [!x] holds for 0, -0 and NaN. *)
Definition truthyNum (x : number) : bool :=
  match x with
  | S754_nan | S754_zero _ => false
  | _ => true
  end.

Definition ofZ (z : Z) : number := binary_normalize prec emax z 0 false.
Definition ofNat (n : nat) : number := ofZ (Z.of_nat n).

(** The number nearest to [m * 10^e10] (ties to even), with sign [neg]. *)
Definition ofDecimal (neg : bool) (m : N) (e10 : Z) : number :=
  match m with
  | N0 => S754_zero neg
  | Npos pm =>
      match e10 with
      | Zneg pe =>
          let '(q, e, l) :=
            SFdiv_core_binary prec emax (Zpos pm) 0 (Z.pow 10 (Zpos pe)) 0 in
          binary_round_aux prec emax neg q e l
      | _ => binary_round prec emax neg (pm * Z.to_pos (Z.pow 10 e10))%positive 0
      end
  end.

Fixpoint readDigits (s : jsstring) (acc : N) (cnt : nat) : N * nat * jsstring :=
  match s with
  | c :: t =>
      if isDigit c then readDigits t (acc * 10 + (c - 48))%N (S cnt)
      else (acc, cnt, s)
  | [] => (acc, cnt, s)
  end.

(** The exponent part [e[+-]digits] of a decimal literal, if complete. *)
Definition readExponent (s : jsstring) : Z :=
  match s with
  | c :: t =>
      if (c =? 101)%N || (c =? 69)%N then
        let '(neg, t') :=
          match t with
          | 45%N :: u => (true, u)
          | 43%N :: u => (false, u)
          | _ => (false, t)
          end in
        let '(v, cnt, _) := readDigits t' 0%N 0 in
        match cnt with
        | O => 0%Z
        | S _ => if neg then (- Z.of_N v)%Z else Z.of_N v
        end
      else 0%Z
  | [] => 0%Z
  end.

(** [parseFloat(s)]: the longest prefix of the trimmed input that is a
    decimal literal; NaN when there is none. *)
Definition parseFloat (s : jsstring) : number :=
  let s0 := trimStart s in
  let '(neg, s1) :=
    match s0 with
    | 45%N :: t => (true, t)
    | 43%N :: t => (false, t)
    | _ => (false, s0)
    end in
  if startsWith (js "Infinity") s1 then S754_infinity neg
  else
    let '(ip, icnt, s2) := readDigits s1 0%N 0 in
    let '(m, fcnt, s3) :=
      match s2 with
      | 46%N :: t => readDigits t ip 0
      | _ => (ip, 0, s2)
      end in
    match icnt, fcnt with
    | O, O => NaN
    | _, _ => ofDecimal neg m (readExponent s3 - Z.of_nat fcnt)
    end.

(** Numeric literals of the source. *)
Definition lit (src : string) : number := parseFloat (js src).

(** [Math.min(a, b)] and [Math.max(a, b)]. *)
Definition fmin (a b : number) : number :=
  if isNaN a || isNaN b then NaN else if flt b a then b else a.
Definition fmax (a b : number) : number :=
  if isNaN a || isNaN b then NaN else if flt a b then b else a.

End JsNumber.

Export JsNumber.

(** ** Row shaping ([shapeRows]) *)

Module Shape.
Import Regex RegexParse.

Definition grid := list (list jsstring).

(** [r.some(cell => (cell ?? '').trim() !== '')] *)
Definition hasContent (r : list jsstring) : bool :=
  existsb (fun cell => truthy (trim cell)) r.

Definition BOM : re := Eval vm_compute in rx "^\uFEFF".

Definition stripBom (header : list jsstring) : list jsstring :=
  match header with
  | [] => []
  | h :: t => replaceFirst false BOM [] h :: t
  end.

(** [while (header.length < maxCols) header.push(`Column_${header.length + 1}`)],
    with [n] the number of iterations left. *)
Fixpoint growHeader (n : nat) (header : list jsstring) : list jsstring :=
  match n with
  | O => header
  | S n' =>
      growHeader n'
        (header ++ [js "Column_" ++ natToString (List.length header + 1)])
  end.

(** [while (row.length < maxCols) row.push('')] *)
Fixpoint padRow (n : nat) (row : list jsstring) : list jsstring :=
  match n with
  | O => row
  | S n' => padRow n' (row ++ [[]])
  end.

Definition maxWidth (start : nat) (rows : grid) : nat :=
  fold_left (fun m r => Nat.max m (List.length r)) rows start.

Definition shapeRows (rows : grid) : grid :=
  match List.filter hasContent rows with
  | [] => []
  | first :: data =>
      let header := stripBom first in
      let maxCols := maxWidth (List.length header) data in
      growHeader (maxCols - List.length header) header
        :: map (fun row => padRow (maxCols - List.length row) row) data
  end.

End Shape.

Export Shape.

(** ** Dialect helpers ([lib/dialect.ts]) *)

Module Dialect.
Import Regex RegexParse.

Inductive RowOrder := asc | desc | unknown.
Inductive DirectionStrategy := split | type | signed | balance | fallback.
Inductive Direction := income | expense.

Record DirectionDecision := {
  strategy : DirectionStrategy;
  order : RowOrder;
  confidence : number
}.

Definition TYPE_TOKEN_EXPENSE : re :=
  Eval vm_compute in rx "^(debit|db|dr|withdrawal|withdraw|payment|purchase|pos|fee)$".
Definition TYPE_TOKEN_INCOME : re :=
  Eval vm_compute in rx "^(credit|cr|deposit|refund|reversal|reimb(ursement)?)$".

Definition TYPE_TOKENS : list (re * Direction) :=
  [(TYPE_TOKEN_EXPENSE, expense); (TYPE_TOKEN_INCOME, income)].

(** The adjacent pairs of the loop, counted as it goes. *)
Fixpoint countPairs (prev : jsstring) (rest : list jsstring) (up down : nat)
  : nat * nat :=
  match rest with
  | [] => (up, down)
  | curr :: rest' =>
      if strlt prev curr then countPairs curr rest' (S up) down
      else if strlt curr prev then countPairs curr rest' up (S down)
      else countPairs curr rest' up down
  end.

(** [dateValues.filter(Boolean)]: null and the empty string are dropped. *)
Definition keepTruthy (dateValues : list (option jsstring)) : list jsstring :=
  omap (fun d => match d with
                 | Some (c :: s) => Some (c :: s)
                 | _ => None
                 end) dateValues.

Definition inferRowOrderFromDates (dateValues : list (option jsstring))
  : RowOrder :=
  let isoDates := keepTruthy dateValues in
  if (List.length isoDates <? 3)%nat then unknown
  else
    match isoDates with
    | [] => unknown
    | d0 :: rest =>
        let '(up, down) := countPairs d0 rest 0 0 in
        if (up =? 0)%nat && (down =? 0)%nat then unknown
        else if (down <=? up)%nat then asc else desc
    end.

(** First entry of [TYPE_TOKENS] whose token matches. *)
Definition firstToken (val : jsstring) : option Direction :=
  match List.filter (fun t => test true (fst t) val) TYPE_TOKENS with
  | t :: _ => Some (snd t)
  | [] => None
  end.

Definition SOFT_DEBIT : re := Eval vm_compute in rx "debit".
Definition SOFT_CREDIT : re := Eval vm_compute in rx "credit".

(** Score and mapping of one column over the sample rows. *)
Definition typeColumnScore (sampleRows : list (list jsstring)) (c : nat)
  : nat * gmap jsstring Direction :=
  fold_left
    (fun (acc : nat * gmap jsstring Direction) row =>
       let '(score, mapping) := acc in
       let raw := trim (nth c row []) in
       if negb (truthy raw) then acc
       else
         let val := toLowerCase raw in
         let '(score1, mapping1) :=
           match firstToken val with
           | Some kind => (score + 3, <[val := kind]> mapping)
           | None => (score, mapping)
           end in
         let score2 := if test true SOFT_DEBIT raw then score1 + 1 else score1 in
         let score3 := if test true SOFT_CREDIT raw then score2 + 1 else score2 in
         (score3, mapping1))
    sampleRows (0, empty).

Record TypeColumn := {
  typeIdx : nat;
  mapping : gmap jsstring Direction
}.

(** [rows.slice(1, Math.min(rows.length, 25))] *)
Definition sampleOf (rows : list (list jsstring)) : list (list jsstring) :=
  firstn 24 (tl rows).

Definition detectTypeColumn (rows : list (list jsstring)) : option TypeColumn :=
  if (List.length rows <? 2)%nat then None
  else
    let sampleRows := sampleOf rows in
    let colCount := List.length (hd [] rows) in
    let '(bestIdx, bestScore, bestMapping) :=
      fold_left
        (fun (best : option nat * nat * gmap jsstring Direction) c =>
           let '(_, bestScore, _) := best in
           let '(score, mapping) := typeColumnScore sampleRows c in
           if (bestScore <? score)%nat then (Some c, score, mapping) else best)
        (seq 0 colCount) (None, 0, empty) in
    match bestIdx with
    | None => None
    | Some i =>
        if (bestScore <? 6)%nat then None
        else Some {| typeIdx := i; mapping := bestMapping |}
    end.

Definition LOOSE_EXPENSE : re :=
  Eval vm_compute in rx "debit|withdraw|payment|purchase|fee".
Definition LOOSE_INCOME : re :=
  Eval vm_compute in rx "credit|deposit|refund|reversal|reimb".

Definition mapTypeToDirection (rawType : option jsstring) : option Direction :=
  let val := trim (default [] rawType) in
  if negb (truthy val) then None
  else
    match firstToken val with
    | Some kind => Some kind
    | None =>
        if test true LOOSE_EXPENSE val then Some expense
        else if test true LOOSE_INCOME val then Some income
        else None
    end.

Inductive Orientation := forward | reverse.

(** One iteration [i] of the comparison loop. *)
Definition orientationStep (balances amounts : list number) (tolerance : number)
           (acc : nat * nat * nat) (i : nat) : nat * nat * nat :=
  let '(forwardMatches, reverseMatches, comparisons) := acc in
  let amt := fabs (nth i amounts zero) in
  if negb (truthyNum amt) then acc
  else
    let f := fsub (nth i balances NaN) (nth (i - 1) balances NaN) in
    let r := fsub (nth (i - 1) balances NaN) (nth i balances NaN) in
    let fm := if fle (fabs (fsub (fabs f) amt)) tolerance
              then S forwardMatches else forwardMatches in
    let rm := if fle (fabs (fsub (fabs r) amt)) tolerance
              then S reverseMatches else reverseMatches in
    (fm, rm, S comparisons).

Definition chooseBalanceOrientation (balances amounts : list number)
           (tolerance : number) : Orientation * number :=
  let '(forwardMatches, reverseMatches, comparisons) :=
    fold_left (orientationStep balances amounts tolerance)
              (seq 1 (List.length balances - 1)) (0, 0, 0) in
  if (comparisons =? 0)%nat then (forward, zero)
  else
    let forwardRate := fdiv (ofNat forwardMatches) (ofNat comparisons) in
    let reverseRate := fdiv (ofNat reverseMatches) (ofNat comparisons) in
    if fge forwardRate reverseRate then (forward, forwardRate)
    else (reverse, reverseRate).

Definition inferDirectionDecision
           (hasSplit hasType hasSignedAmount hasBalance : bool)
           (rowOrder : RowOrder) (balanceMatchRate : option number)
  : DirectionDecision :=
  if hasSplit then {| strategy := split; order := rowOrder; confidence := lit "1.0" |}
  else if hasType then {| strategy := type; order := rowOrder; confidence := lit "0.95" |}
  else if hasSignedAmount then {| strategy := signed; order := rowOrder; confidence := lit "0.9" |}
  else if hasBalance then
    {| strategy := balance; order := rowOrder;
       confidence := fmin (fadd (lit "0.6")
                                (fmul (default zero balanceMatchRate) (lit "0.4")))
                          (lit "0.95") |}
  else {| strategy := fallback; order := rowOrder; confidence := lit "0.3" |}.

End Dialect.

(** ** Data model of [lib/anonymizer] *)

Module Col.
(** [ColumnAnalysis['columnType']] *)
Inductive ColumnType :=
| date | amount | debit | credit | balance | description | type | unknown
| metadata.

Definition eqb (a b : ColumnType) : bool :=
  match a, b with
  | date, date | amount, amount | debit, debit | credit, credit
  | balance, balance | description, description | type, type
  | unknown, unknown | metadata, metadata => true
  | _, _ => false
  end.

Definition name (t : ColumnType) : jsstring :=
  match t with
  | date => js "date" | amount => js "amount" | debit => js "debit"
  | credit => js "credit" | balance => js "balance"
  | description => js "description" | type => js "type"
  | unknown => js "unknown" | metadata => js "metadata"
  end.
End Col.

Module Inference.
(** [SanitizedTransaction['inferenceSource']] *)
Inductive InferenceSource :=
| explicit | derived_from_balance | derived_from_desc | fallback.

Definition name (s : InferenceSource) : string :=
  match s with
  | explicit => "explicit"
  | derived_from_balance => "derived_from_balance"
  | derived_from_desc => "derived_from_desc"
  | fallback => "fallback"
  end.
End Inference.

Record ColumnAnalysis := {
  columnIndex : nat;
  columnType : Col.ColumnType;
  colConfidence : number;
  sampleValue : option jsstring
}.

Record AnonymizerOptions := {
  maskPii : bool;
  scrubContacts : bool;
  fuzzLocation : bool;
  cleanMetadata : bool;
  ultraClean : bool;
  customRemoveTerms : list jsstring
}.

(** The defaults of the constructor. *)
Definition defaultOptions : AnonymizerOptions := {|
  maskPii := true;
  scrubContacts := false;
  fuzzLocation := false;
  cleanMetadata := false;
  ultraClean := false;
  customRemoveTerms := []
|}.

Record RemovalReport := {
  redactions : gmap string nat;
  idTokensRemoved : nat;
  merchantNormalized : nat;
  customRemoved : nat;
  customTermsCount : nat;
  ultraCleanApplied : bool
}.

Record SanitizedTransaction := {
  txDate : jsstring;
  merchant : jsstring;
  txDescription : jsstring;
  category : jsstring;
  categoryConfidence : number;
  txAmount : number;
  txType : Dialect.Direction;
  inferenceSource : Inference.InferenceSource
}.

Record Metadata := {
  sanitized : bool;
  originalRowCount : nat;
  sanitizedRowCount : nat;
  detectedColumns : gmap jsstring ColumnAnalysis;
  detectedColumnsList : list ColumnAnalysis;
  rowOrder : Dialect.RowOrder;
  directionStrategy : Dialect.DirectionStrategy;
  directionConfidence : number;
  inferenceSummary : gmap string nat;
  skipSummary : gmap string nat;
  rowsWithBalance : nat;
  rowsWithAmount : nat;
  rowsWithDebitCredit : nat;
  removalReport : RemovalReport
}.

Record SanitizedData := {
  metadata : Metadata;
  transactions : list SanitizedTransaction
}.

(** The regular expression table [PATTERNS]. *)
Module PATTERNS.
Import Regex RegexParse.

Definition DATE_ISO : re := Eval vm_compute in rx "^\d{4}-\d{2}-\d{2}$".
Definition DATE_US : re := Eval vm_compute in rx "^\d{1,2}\/\d{1,2}\/\d{2,4}$".
Definition DATE_EU : re := Eval vm_compute in rx "^\d{1,2}[\.-]\d{1,2}[\.-]\d{2,4}$".
Definition MONEY : re :=
  Eval vm_compute in rx "^-?[$\u00A3\u20AC\u00A5]?\s?[\d,]+(\.\d+)?$".
Definition PII_CREDIT_CARD : re := Eval vm_compute in rx "\b(?:\d[ -]*?){13,16}\b".
Definition PII_SSN : re := Eval vm_compute in rx "\b\d{3}-\d{2}-\d{4}\b".
Definition PII_EMAIL : re := Eval vm_compute in rx "[\w\.-]+@[\w\.-]+\.\w+".
(** Each pattern with its [i] flag. *)
Definition ID_PATTERNS : list (bool * re) := Eval vm_compute in
  [ (true, rx "(REF|TXN|ID|TRX)[:#]?\s*[A-Z0-9-]{6,}");
    (false, rx "\b[A-F0-9]{10,}\b");
    (true, rx "\b(Store|Shop|#)\s?\#?\d{3,}\b") ].
Definition MERCHANT_PREFIXES : re :=
  Eval vm_compute in rx "^(SQ \*|PAYPAL \*|UBER \*|TST \*)".
Definition PII_PHONE : re := Eval vm_compute in
  rx "\b(?:\+?\d{1,2}[-.\s]?)?(?:\(\d{3}\)|\d{3})[-.\s]?\d{3}[-.\s]?\d{4}\b".
Definition PII_URL : re := Eval vm_compute in rx "\bhttps?:\/\/\S+|\bwww\.\S+".
Definition PII_ZIP : re := Eval vm_compute in rx "\b\d{5}(?:-\d{4})?\b".
Definition PII_ADDRESS : re := Eval vm_compute in
  rx "\b\d{1,6}\s+[A-Za-z0-9.'-]+(?:\s+[A-Za-z0-9.'-]+){0,4}\s+(st|street|ave|avenue|rd|road|blvd|boulevard|ln|lane|dr|drive|ct|court|pl|place|way)\b".
Definition NOISE_TOKENS : re := Eval vm_compute in rx "\b(_[A-Z])\b".
Definition LOCATIONS : re := Eval vm_compute in
  rx "\b(NY|CA|TX|FL|IL|PA|OH|GA|NC|MI|NJ|VA|WA|AZ|MA|TN|IN|MO|MD|WI|CO|MN|SC|AL|LA|KY|OR|OK|CT|UT|IA|NV|AR|MS|KS|NM|NE|WV|ID|HI|NH|ME|RI|MT|DE|SD|ND|AK|DC|VT|WY)\b|(\s(USA|US|CAN|UK)\s?$)".
Definition NAMES : re := Eval vm_compute in rx "\b([A-Z][a-z]+ [A-Z][a-z]+)\b".
Definition TYPE_VALUES : re := Eval vm_compute in
  rx "\b(debit|credit|dr|cr|withdrawal|deposit|purchase|payment|fee|refund|reversal)\b".
End PATTERNS.

(** ** Value parsers *)

Module Values.
Import Regex RegexParse.

Definition NOT_CURRENCY : re := Eval vm_compute in rx "[^\d\.\-,()]".
Definition PARENS : re := Eval vm_compute in rx "[\(\)]".
Definition COMMA : re := Eval vm_compute in rx ",".

(** [cleanCurrency(val)]; an absent cell behaves as the empty string. *)
Definition cleanCurrency (val : jsstring) : number :=
  if negb (truthy val) then zero
  else
    let clean := replaceAll false NOT_CURRENCY [] val in
    let clean :=
      if startsWith (js "(") clean && endsWith (js ")") clean
      then js "-" ++ replaceAll false PARENS [] clean
      else clean in
    parseFloat (replaceAll false COMMA [] clean).

Definition digit2 (a b : N) : nat := N.to_nat ((a - 48) * 10 + (b - 48))%N.

Definition isLeap (y : nat) : bool :=
  ((y mod 4 =? 0) && negb (y mod 100 =? 0) || (y mod 400 =? 0))%nat.

Definition daysInMonth (y m : nat) : nat :=
  match m with
  | 2 => if isLeap y then 29 else 28
  | 4 | 6 | 9 | 11 => 30
  | _ => 31
  end.

(** A calendar date in the date-only form [YYYY-MM-DD] of the language
    standard: all hosts read it as that day in UTC. *)
Definition isIsoCalendarDate (s : jsstring) : bool :=
  match s with
  | [y1; y2; y3; y4; 45%N; m1; m2; 45%N; d1; d2] =>
      forallb isDigit [y1; y2; y3; y4; m1; m2; d1; d2] &&
      let y := (digit2 y1 y2 * 100 + digit2 y3 y4)%nat in
      let m := digit2 m1 m2 in
      let d := digit2 d1 d2 in
      ((1 <=? m) && (m <=? 12) && (1 <=? d) && (d <=? daysInMonth y m))%nat
  | _ => false
  end.

Section Host.
(** What [new Date(val)] makes of a string outside the date-only form is
    left to the host by the language standard: [hostDate val] is the UTC
    day of the resulting date, if it is a valid one. *)
Variable hostDate : jsstring -> option jsstring.

(** [new Date(val)], as its [toISOString().split('T')[0]]. *)
Definition dateOf (val : jsstring) : option jsstring :=
  if isIsoCalendarDate val then Some val else hostDate val.

Definition parseDateString (val : jsstring) : option jsstring :=
  if negb (truthy val) then None else dateOf val.
End Host.

End Values.

Export Values.

(** ** Column classifier ([detectColumnsWithContext]) *)

Module Classifier.
Import Regex RegexParse.

(** [typeScores]: one integer per role, in the key order of the object. *)
Definition TypeScores := Col.ColumnType -> Z.

Definition scoreKeys : list Col.ColumnType :=
  [Col.date; Col.amount; Col.balance; Col.description; Col.debit; Col.credit;
   Col.metadata; Col.type].

Definition noScores : TypeScores := fun _ => 0%Z.

Definition setScore (k : Col.ColumnType) (v : Z) (ts : TypeScores) : TypeScores :=
  fun k' => if Col.eqb k k' then v else ts k'.

Definition bump (k : Col.ColumnType) (n : Z) (ts : TypeScores) : TypeScores :=
  setScore k (ts k + n)%Z ts.

Definition bumpIf (b : bool) (k : Col.ColumnType) (n : Z) (ts : TypeScores)
  : TypeScores :=
  if b then bump k n ts else ts.

(** [Math.max(...Object.values(typeScores))] *)
Definition maxOfScores (ts : TypeScores) : Z :=
  fold_left (fun m k => Z.max m (ts k)) (tl scoreKeys) (ts Col.date).

(** [Object.keys(typeScores).reduce((a, b) => typeScores[a] > typeScores[b] ? a : b)] *)
Definition bestKey (ts : TypeScores) : Col.ColumnType :=
  fold_left (fun a b => if (ts b <? ts a)%Z then a else b) (tl scoreKeys) Col.date.

Record ColStats := {
  scores : TypeScores;
  validSamples : nat;
  emptyCount : nat;
  numericCount : nat;
  dateLikeCount : nat;
  textLikeCount : nat;
  idLikeCount : nat;
  numericVals : list number
}.

Definition headerScores (header : jsstring) (isHinted : bool) : TypeScores :=
  let has w := includes (js w) header in
  bumpIf isHinted Col.type 6
  (bumpIf (has "type" || has "transaction type" || has "tran type") Col.type 5
  (bumpIf (has "id" || has "ref" || has "code") Col.metadata 2
  (bumpIf (has "credit" || has "deposit" || has "in") Col.credit 5
  (bumpIf (has "debit" || has "withdr" || has "out") Col.debit 5
  (bumpIf (has "bal") Col.balance 5
  (bumpIf (has "desc" || has "memo" || has "particular") Col.description 5
  (bumpIf (has "date" || has "time") Col.date 5 noScores))))))).

(** [PATTERNS.ID_PATTERNS.some(p => { p.lastIndex = 0; return p.test(val); })] *)
Definition looksLikeId (val : jsstring) : bool :=
  existsb (fun p => test (fst p) (snd p) val) PATTERNS.ID_PATTERNS.

Section Detect.
Variable hostDate : jsstring -> option jsstring.
Variable options : AnonymizerOptions.

(** The body of [sampleRows.forEach] for column [c] with header [header]. *)
Definition sampleStep (header : jsstring) (c : nat) (st : ColStats)
           (row : list jsstring) : ColStats :=
  let val := nth c row [] in
  if negb (truthy val) then
    {| scores := scores st; validSamples := validSamples st;
       emptyCount := S (emptyCount st); numericCount := numericCount st;
       dateLikeCount := dateLikeCount st; textLikeCount := textLikeCount st;
       idLikeCount := idLikeCount st; numericVals := numericVals st |}
  else
    let ts := scores st in
    let dateLike :=
      test false PATTERNS.DATE_ISO val || test false PATTERNS.DATE_US val
      || test false PATTERNS.DATE_EU val || bool_decide (is_Some (dateOf hostDate val)) in
    let ts := bumpIf dateLike Col.date 3 ts in
    let num := cleanCurrency val in
    let numeric := test false PATTERNS.MONEY val && negb (isNaN num) in
    let ts := bumpIf numeric Col.amount 1 ts in
    let ts := bumpIf (numeric && includes (js "debit") header && fgt num zero)
                     Col.debit 2 ts in
    let textLike :=
      (5 <? List.length val)%nat && isNaN (parseFloat val)
      && negb (test false PATTERNS.DATE_ISO val) in
    let ts := bumpIf textLike Col.description 2 ts in
    let idLike := looksLikeId val in
    let ts := bumpIf idLike Col.metadata 2 ts in
    let ts := bumpIf (test true PATTERNS.TYPE_VALUES val) Col.type 2 ts in
    {| scores := ts; validSamples := S (validSamples st);
       emptyCount := emptyCount st;
       numericCount := if numeric then S (numericCount st) else numericCount st;
       dateLikeCount := if dateLike then S (dateLikeCount st) else dateLikeCount st;
       textLikeCount := if textLike then S (textLikeCount st) else textLikeCount st;
       idLikeCount := if idLike then S (idLikeCount st) else idLikeCount st;
       numericVals := if numeric then numericVals st ++ [num] else numericVals st |}.

(** Sum and count of the absolute successive differences that are numbers. *)
Fixpoint deltaSum (prev : number) (rest : list number) (acc : number) (cnt : nat)
  : number * nat :=
  match rest with
  | [] => (acc, cnt)
  | v :: rest' =>
      let d := fabs (fsub v prev) in
      if isNaN d then deltaSum v rest' acc cnt
      else deltaSum v rest' (fadd acc d) (S cnt)
  end.

(** The balance-like continuity heuristic. *)
Definition continuityScores (vals : list number) (nonEmptyDensity : number)
           (ts : TypeScores) : TypeScores :=
  if (List.length vals <? 3)%nat then ts
  else
    let absVals := map fabs vals in
    let meanAbs := fdiv (fold_left fadd absVals zero) (ofNat (List.length absVals)) in
    let '(sumDelta, deltaCount) :=
      match vals with
      | [] => (zero, 0)
      | v0 :: rest => deltaSum v0 rest zero 0
      end in
    let meanAbsDelta :=
      match deltaCount with
      | O => zero
      | S _ => fdiv sumDelta (ofNat deltaCount)
      end in
    let ratio := if fgt meanAbs zero then fdiv meanAbsDelta meanAbs else lit "1" in
    let ts := bumpIf (flt ratio (lit "0.5") && fge nonEmptyDensity (lit "0.6"))
                     Col.balance 2 ts in
    bumpIf (flt ratio (lit "0.25") && fge nonEmptyDensity (lit "0.7"))
           Col.balance 3 ts.

(** One iteration of the loop over the columns: the analysis of column
    [c], and whether it joins [numericCols]. *)
Definition analyseColumn (headers : list jsstring)
           (sampleRows : list (list jsstring)) (colCount : nat)
           (typeColHint : option Dialect.TypeColumn) (c : nat)
  : ColumnAnalysis * bool :=
  let header := nth c headers [] in
  let isHinted :=
    match typeColHint with
    | Some h => (Dialect.typeIdx h =? c)%nat
    | None => false
    end in
  let st :=
    fold_left (sampleStep header c) sampleRows
      {| scores := headerScores header isHinted; validSamples := 0;
         emptyCount := 0; numericCount := 0; dateLikeCount := 0;
         textLikeCount := 0; idLikeCount := 0; numericVals := [] |} in
  let sampleN :=
    match List.length sampleRows with
    | O => 1
    | S n => S n
    end in
  let nonEmptyDensity := fdiv (ofNat (validSamples st)) (ofNat sampleN) in
  let numericDensity := fdiv (ofNat (numericCount st)) (ofNat sampleN) in
  let ts := scores st in
  let ts := bumpIf (fge numericDensity (lit "0.7")) Col.amount 2 ts in
  let ts := bumpIf (fge numericDensity (lit "0.85")) Col.amount 2 ts in
  let ts := continuityScores (numericVals st) nonEmptyDensity ts in
  let textDensity := fdiv (ofNat (textLikeCount st)) (ofNat sampleN) in
  let idDensity := fdiv (ofNat (idLikeCount st)) (ofNat sampleN) in
  let ts := bumpIf (fge textDensity (lit "0.5") && flt idDensity (lit "0.2"))
                   Col.description 2 ts in
  let ts :=
    if fge idDensity (lit "0.4")
    then setScore Col.description (Z.max 0 (ts Col.description - 2)) ts
    else ts in
  let maxScore := maxOfScores ts in
  let bestType :=
    if (validSamples st =? 0)%nat then Col.unknown
    else if (0 <? maxScore)%Z then bestKey ts
    else Col.unknown in
  let bestType :=
    if Col.eqb bestType Col.amount
       && (validSamples st =? List.length sampleRows)%nat
       && includes (js "bal") header
    then Col.balance else bestType in
  let forced :=
    (c =? colCount - 1)%nat && fge numericDensity (lit "0.5")
    && fge nonEmptyDensity (lit "0.5") in
  let ts := bumpIf forced Col.balance 25 ts in
  let bestType := if forced then Col.balance else bestType in
  let numericCol := Col.eqb bestType Col.amount && (0 <? emptyCount st)%nat in
  let bestType :=
    if Col.eqb bestType Col.amount && (2 <? ts Col.debit)%Z
    then Col.debit else bestType in
  let bestType :=
    if Col.eqb bestType Col.amount && (2 <? ts Col.credit)%Z
    then Col.credit else bestType in
  ({| columnIndex := c;
      columnType := bestType;
      colConfidence :=
        fmin (fdiv (ofZ maxScore) (ofNat (validSamples st * 2 + 5))) (lit "1.0");
      sampleValue :=
        match sampleRows with
        | [] => None
        | r0 :: _ => nth_error r0 c
        end |},
   numericCol).

Definition setColumnType (t : Col.ColumnType) (a : ColumnAnalysis)
  : ColumnAnalysis :=
  {| columnIndex := columnIndex a; columnType := t;
     colConfidence := colConfidence a; sampleValue := sampleValue a |}.

(** The post-analysis check for a split debit/credit pair. *)
Definition splitPair (headers : list jsstring)
           (sampleRows : list (list jsstring)) (numericCols : list nat)
           (analysis : list ColumnAnalysis) : list ColumnAnalysis :=
  match numericCols with
  | c1 :: c2 :: _ =>
      let '(collision, c1Count, c2Count) :=
        fold_left
          (fun (acc : bool * nat * nat) row =>
             let '(collision, c1Count, c2Count) := acc in
             let v1 := truthy (nth c1 row []) in
             let v2 := truthy (nth c2 row []) in
             (collision || (v1 && v2),
              if v1 then S c1Count else c1Count,
              if v2 then S c2Count else c2Count))
          sampleRows (false, 0, 0) in
      if collision then analysis
      else
        let h1 := nth c1 headers [] in
        let c1Type :=
          if includes (js "dep") h1 || includes (js "cr") h1 then Col.credit
          else if includes (js "with") h1 || includes (js "dr") h1 then Col.debit
          else if (c2Count <? c1Count)%nat then Col.debit
          else Col.credit in
        let c2Type := if Col.eqb c1Type Col.debit then Col.credit else Col.debit in
        alter (setColumnType c2Type) c2 (alter (setColumnType c1Type) c1 analysis)
  | _ => analysis
  end.

Definition detectColumnsWithContext (rows : grid) : list ColumnAnalysis :=
  if (List.length rows <? 2)%nat then []
  else
    let headers := map toLowerCase (hd [] rows) in
    let sampleRows := Dialect.sampleOf rows in
    let colCount := List.length (hd [] rows) in
    let typeColHint := Dialect.detectTypeColumn rows in
    let perColumn :=
      map (analyseColumn headers sampleRows colCount typeColHint)
          (seq 0 colCount) in
    let analysis := map fst perColumn in
    let numericCols :=
      map (fun p => columnIndex (fst p)) (List.filter snd perColumn) in
    splitPair headers sampleRows numericCols analysis.

(** [columnAnalysis.findIndex(c => c.columnType === t)] *)
Fixpoint findIndexFrom (t : Col.ColumnType) (i : nat) (l : list ColumnAnalysis)
  : option nat :=
  match l with
  | [] => None
  | a :: l' =>
      if Col.eqb (columnType a) t then Some i else findIndexFrom t (S i) l'
  end.

Definition findIndex (t : Col.ColumnType) (l : list ColumnAnalysis) : option nat :=
  findIndexFrom t 0 l.

End Detect.

End Classifier.

Export Classifier.

(** ** Description sanitizer, merchant normalizer, categorizer *)

Module Sanitizer.
Import Regex RegexParse.

Definition emptyReport (termsCount : nat) (ultra : bool) : RemovalReport :=
  {| redactions := empty; idTokensRemoved := 0; merchantNormalized := 0;
     customRemoved := 0; customTermsCount := termsCount;
     ultraCleanApplied := ultra |}.

(** [report.redactions[kind] = (report.redactions[kind] || 0) + 1] *)
Definition countRedaction (kind : string) (r : RemovalReport) : RemovalReport :=
  {| redactions := insert kind (default 0 (redactions r !! kind) + 1) (redactions r);
     idTokensRemoved := idTokensRemoved r;
     merchantNormalized := merchantNormalized r;
     customRemoved := customRemoved r;
     customTermsCount := customTermsCount r;
     ultraCleanApplied := ultraCleanApplied r |}.

Definition addIdTokens (n : nat) (r : RemovalReport) : RemovalReport :=
  {| redactions := redactions r;
     idTokensRemoved := idTokensRemoved r + n;
     merchantNormalized := merchantNormalized r;
     customRemoved := customRemoved r;
     customTermsCount := customTermsCount r;
     ultraCleanApplied := ultraCleanApplied r |}.

Definition addMerchantNormalized (n : nat) (r : RemovalReport) : RemovalReport :=
  {| redactions := redactions r;
     idTokensRemoved := idTokensRemoved r;
     merchantNormalized := merchantNormalized r + n;
     customRemoved := customRemoved r;
     customTermsCount := customTermsCount r;
     ultraCleanApplied := ultraCleanApplied r |}.

Definition addCustomRemoved (n : nat) (r : RemovalReport) : RemovalReport :=
  {| redactions := redactions r;
     idTokensRemoved := idTokensRemoved r;
     merchantNormalized := merchantNormalized r;
     customRemoved := customRemoved r + n;
     customTermsCount := customTermsCount r;
     ultraCleanApplied := ultraCleanApplied r |}.

(** The text under sanitization together with the optional report that the
    caller passed. *)
Definition Cleaning : Type := jsstring * option RemovalReport.

Definition WHITESPACE : re := Eval vm_compute in rx "\s+".
Definition SEPARATORS : re := Eval vm_compute in rx "[_/\\]+".
Definition PIPES : re := Eval vm_compute in rx "[|]+".
Definition WORDS : re := Eval vm_compute in rx "\w\S*".

(** [new RegExp(escapeRegExp(term), 'gi')]: the term, read literally. *)
Definition literal (term : jsstring) : re :=
  fold_right (fun c r => Seq (Char c) r) Empty term.

Definition collapseSpaces (s : jsstring) : jsstring :=
  trim (replaceAll false WHITESPACE (js " ") s).

(** [txt.charAt(0).toUpperCase() + txt.substr(1).toLowerCase()] *)
Definition capitalize (txt : jsstring) : jsstring :=
  match txt with
  | [] => []
  | c :: t => toUpperChar c :: toLowerCase t
  end.

Definition titleCase (s : jsstring) : jsstring :=
  trim (replaceAllWith false WORDS capitalize s).

Section WithOptions.
Variable options : AnonymizerOptions.

(** [customRemoveTerms.map(t => t.trim()).filter(Boolean)] *)
Definition customTerms : list jsstring :=
  List.filter truthy (map trim (customRemoveTerms options)).

Definition removeTerm (st : Cleaning) (term : jsstring) : Cleaning :=
  let '(out, report) := st in
  let n := countMatches true (literal term) out in
  match n with
  | O => st
  | S _ => (replaceAll true (literal term) [] out,
            option_map (addCustomRemoved n) report)
  end.

Definition applyCustomRemovals (st : Cleaning) : Cleaning :=
  let '(input, report) := st in
  match customTerms with
  | [] => st
  | _ :: _ =>
      if negb (truthy input) then st
      else
        let '(out, report') := fold_left removeTerm customTerms st in
        (collapseSpaces out, report')
  end.

(** A replacement that is counted under [kind] when it changes the text. *)
Definition redact (ic : bool) (pat : re) (by_ : string) (kind : string)
           (st : Cleaning) : Cleaning :=
  let '(before, report) := st in
  let clean := replaceAll ic pat (js by_) before in
  (clean,
   if streq clean before then report
   else option_map (countRedaction kind) report).

Definition removeIds (st : Cleaning) (pat : bool * re) : Cleaning :=
  let '(before, report) := st in
  let clean := replaceAll (fst pat) (snd pat) [] before in
  (clean,
   if streq clean before then report
   else option_map (addIdTokens 1) report).

Definition maskPiiSteps (st : Cleaning) : Cleaning :=
  redact false PATTERNS.PII_ZIP "[ZIP]" "zip"
  (redact true PATTERNS.PII_ADDRESS "[ADDRESS]" "address"
  (redact true PATTERNS.PII_URL "[URL]" "url"
  (redact false PATTERNS.PII_PHONE "[PHONE]" "phone"
  (redact false PATTERNS.PII_EMAIL "[EMAIL]" "email"
  (redact false PATTERNS.PII_SSN "[SSN]" "ssn"
  (redact false PATTERNS.PII_CREDIT_CARD "****" "card" st)))))).

Definition sanitizeDescription (raw : jsstring) (report : option RemovalReport)
  : Cleaning :=
  if negb (truthy raw) then ([], report)
  else
    let st := applyCustomRemovals (trim raw, report) in
    let st := if maskPii options then maskPiiSteps st else st in
    let st := fold_left removeIds PATTERNS.ID_PATTERNS st in
    let st :=
      if scrubContacts options
      then (replaceAll false PATTERNS.NAMES (js "Individual") (fst st), snd st)
      else st in
    let st :=
      if fuzzLocation options
      then redact false PATTERNS.LOCATIONS " [LOC]" "location" st
      else st in
    let '(clean, report) := st in
    let clean := replaceAll false PATTERNS.NOISE_TOKENS [] clean in
    let clean := replaceAll false SEPARATORS (js " ") clean in
    let clean := replaceAll false PIPES (js " ") clean in
    let clean := collapseSpaces clean in
    let clean := replaceFirst true PATTERNS.MERCHANT_PREFIXES [] clean in
    (titleCase clean, report).

(** Prefixes removed once at the start of the text ([i] flag, no [g]). *)
Definition railPrefixes : list re := Eval vm_compute in
  [ rx "^(pos|purchase|debit|credit|card|visa|mastercard|mc|amex)\b[:\-\s]*";
    rx "^(ach|wire|zelle|venmo|cash app|paypal)\b[:\-\s]*";
    rx "^(online transfer|mobile deposit|direct deposit)\b[:\-\s]*" ].

(** The global replacements of [normalizeMerchant], in order: [i] flag,
    pattern, replacement. *)
Definition merchantRewrites : list (bool * re * jsstring) := Eval vm_compute in
  [ (true, rx "\b(DES:|ID:|INDN:|CO:|PPD|WEB|CCD|ARC|EFT|CTX|POP|RCK|TEL|TRX)\b", []);
    (false, rx "\b\d{1,2}[\/-]\d{1,2}([\/-]\d{2,4})?\b", []);
    (false, rx "\b\d+\.\d+\b", []);
    (true, rx "\b(#|store|stn|branch|location|loc)\s*[-#:]?\s*\d+\b", []);
    (false, rx "\b\d{2,}\b", []);
    (true, rx "\b(ssv to|tfr-to|tfr to|transfer to)\s*\[?phone\]?", js "Mobile Payment");
    (true, rx "\b(ssv from|tfr-fr|tfr from|transfer from)\s*\[?phone\]?", js "Mobile Transfer");
    (true, rx "\b(ssv to|tfr-to|tfr to|transfer to)\b", js "Payment");
    (true, rx "\b(ssv from|tfr-fr|tfr from|transfer from)\b", js "Incoming Transfer");
    (true, rx "\b(ssv|tfr)[\s-]*(to|from)?\b", js "Transfer");
    (false, rx "\b[A-Z]\b", []);
    (true, rx "\b(NY|CA|TX|FL|IL|PA|OH|GA|NC|MI|NJ|VA|WA|AZ|MA|TN|IN|MO|MD|WI|CO|MN|SC|AL|LA|KY|OR|OK|CT|UT|IA|NV|AR|MS|KS|NM|NE|WV|ID|HI|NH|ME|RI|MT|DE|SD|ND|AK|DC|VT|WY)\b\s*$", []);
    (true, rx "\b(inc|llc|ltd|corp|company|co\.?)\b", []);
    (false, rx "[^\w\s&'.-]+", js " ");
    (false, rx "[-_]+", js " ") ].

Definition normalizeMerchant (cleanedDesc : jsstring)
           (report : option RemovalReport) : Cleaning :=
  if negb (truthy cleanedDesc) then (js "Unknown", report)
  else
    let original := cleanedDesc in
    let '(s, report) := applyCustomRemovals (cleanedDesc, report) in
    let s := fold_left (fun s p => replaceFirst true p [] s) railPrefixes s in
    let s :=
      fold_left (fun s (p : bool * re * jsstring) =>
                   replaceAll (fst (fst p)) (snd (fst p)) (snd p) s)
                merchantRewrites s in
    let s := collapseSpaces s in
    if negb (truthy s) then (js "Unknown", report)
    else
      let out := titleCase s in
      (out,
       if truthy out && negb (streq out original)
       then option_map (addMerchantNormalized 1) report
       else report).

End WithOptions.

(** The ordered rule table of [categorizeTransaction]: pattern, category,
    confidence; all patterns carry the [i] flag. *)
Definition categoryRules : list (re * jsstring * number) := Eval vm_compute in
  [ (rx "netflix", js "Subscriptions: Streaming", lit "0.9");
    (rx "spotify", js "Subscriptions: Streaming", lit "0.9");
    (rx "amazon\s+prime|prime\s+video", js "Subscriptions: Membership", lit "0.9");
    (rx "apple\.com\/bill|apple\s+services|itunes", js "Subscriptions: Digital", lit "0.9");
    (rx "google\s+\*?storage|google\s+one|google\s+services", js "Subscriptions: Digital", lit "0.9");
    (rx "microsoft\s+365|office\s+365", js "Subscriptions: SaaS", lit "0.9");
    (rx "adobe", js "Subscriptions: SaaS", lit "0.9");
    (rx "(payroll|salary|direct deposit|paychex|adp|payroll dep)", js "Income: Salary", lit "0.85");
    (rx "(interest|dividend|distribution|capital gain)", js "Income: Investment", lit "0.8");
    (rx "(refund|reversal|chargeback|reimb)", js "Income: Refund", lit "0.75");
    (rx "(monthly fee|service fee|maintenance fee|overdraft|nsf|finance charge|late fee)", js "Fees", lit "0.8");
    (rx "(credit card payment|cc payment|loan payment|mortgage payment)", js "Payments", lit "0.7");
    (rx "(transfer|ach|wire|zelle|venmo|cash app|paypal)", js "Transfer", lit "0.65");
    (rx "(atm|cash withdrawal)", js "Cash/ATM", lit "0.7");
    (rx "(grocery|supermarket|market|whole foods|trader joe|costco)", js "Groceries", lit "0.75");
    (rx "(walmart|target|best buy|home depot|lowes)", js "Shopping: Retail", lit "0.7");
    (rx "(restaurant|cafe|coffee|starbucks|dunkin|pizza|doordash|ubereats|grubhub)", js "Dining", lit "0.75");
    (rx "(uber|lyft|taxi|transit|metro|train|bus)", js "Transport", lit "0.7");
    (rx "(gas|fuel|shell|chevron|exxon|bp)\b", js "Fuel", lit "0.75");
    (rx "(rent|mortgage|landlord|property mgmt)", js "Housing", lit "0.7");
    (rx "(electric|water|utility|internet|comcast|verizon|att|t-mobile|phone bill)", js "Bills: Utilities", lit "0.7");
    (rx "(insurance|geico|progressive|state farm|premium)", js "Bills: Insurance", lit "0.7");
    (rx "(medical|pharmacy|clinic|hospital|dental|vision)", js "Healthcare", lit "0.75");
    (rx "(subscription|membership|recurring)", js "Subscriptions", lit "0.6");
    (rx "(education|tuition|school|university|course)", js "Education", lit "0.7") ].

Definition categorizeTransaction (rawDesc cleanedDesc merchant : jsstring)
  : jsstring * number :=
  let text := toLowerCase (rawDesc ++ js " " ++ cleanedDesc ++ js " " ++ merchant) in
  match List.filter (fun rule => test true (fst (fst rule)) text) categoryRules with
  | rule :: _ => (snd (fst rule), snd rule)
  | [] => (js "Other", lit "0.4")
  end.

End Sanitizer.

Export Sanitizer.

(** ** The pipeline ([processRows]) *)

Module Pipeline.
Import Regex RegexParse.

(** A call either returns or throws an [Error] with a message. *)
Inductive Result (A : Type) :=
| Ok (value : A)
| Throw (message : jsstring).
Arguments Ok {A} value.
Arguments Throw {A} message.

Definition NOT_ENOUGH_DATA : jsstring :=
  js "Not enough data to process. " ++
  js "Please upload a file with at least a header row and one transaction row. " ++
  js "This tool is designed for financial statements like bank exports, credit card statements, or transaction histories.".

Definition noDateMessage (columnAnalysis : list ColumnAnalysis) : jsstring :=
  let detectedTypes :=
    join (js ", ")
      (map (fun c => Col.name (columnType c) ++ js " (column "
                     ++ natToString (columnIndex c + 1) ++ js ")")
           (List.filter (fun c => negb (Col.eqb (columnType c) Col.unknown))
                        columnAnalysis)) in
  let helpText :=
    if truthy detectedTypes
    then js "We detected: " ++ detectedTypes
         ++ js ". However, financial data must include dates for each transaction."
    else js "We couldn't identify any standard financial data columns in your file." in
  js "This doesn't appear to be financial data. " ++
  js "We couldn't find a Date column. " ++
  helpText ++ js " " ++
  js "Financial data should have columns like: Date, Description, Amount (or Debit/Credit), and optionally Balance. " ++
  js "Please upload a bank statement, credit card statement, or transaction history (CSV, XLSX, or PDF format).".

Definition noMoneyMessage (columnAnalysis : list ColumnAnalysis) : jsstring :=
  let dateCol := existsb (fun c => Col.eqb (columnType c) Col.date) columnAnalysis in
  let descCol := existsb (fun c => Col.eqb (columnType c) Col.description) columnAnalysis in
  let base := js "Financial statements need monetary values (amounts, debits/credits, or balances)." in
  let helpText :=
    if dateCol && descCol
    then js "We found dates and descriptions, but couldn't find any monetary value columns. " ++ base
    else if dateCol
    then js "We found dates, but couldn't find descriptions or monetary values. " ++ base
    else base in
  js "This doesn't appear to be financial data. " ++
  js "We couldn't find any monetary value columns (Amount, Debit/Credit, or Balance). " ++
  helpText ++ js " " ++
  js "Financial data should have columns like: Date, Description, Amount (or Debit/Credit), and optionally Balance. " ++
  js "Please ensure your file includes transaction amounts in a clear column format.".

(** [[...xs].sort((a, b) => a - b)] *)
Fixpoint insertSorted (x : number) (l : list number) : list number :=
  match l with
  | [] => [x]
  | y :: l' => if flt y x then y :: insertSorted x l' else x :: l
  end.

Definition sortNumbers (xs : list number) : list number :=
  fold_left (fun acc x => insertSorted x acc) xs [].

Definition median (xs : list number) : number :=
  match xs with
  | [] => zero
  | _ :: _ =>
      let s := sortNumbers xs in
      let mid := (List.length s / 2)%nat in
      if (List.length s mod 2 =? 1)%nat then nth mid s NaN
      else fdiv (fadd (nth (mid - 1) s NaN) (nth mid s NaN)) (lit "2")
  end.

Definition BALANCE_SUMMARY : re := Eval vm_compute in
  rx "(beginning balance|ending balance|starting balance|balance forward|opening balance|closing balance)".

(** The column indices found by [findIndex]; [None] is [-1]. *)
Record Indices := {
  dateIdx : option nat;
  descIdx : option nat;
  amountIdx : option nat;
  debitIdx : option nat;
  creditIdx : option nat;
  balanceIdx : option nat;
  typeIdx : option nat
}.

Definition indicesOf (columnAnalysis : list ColumnAnalysis) : Indices :=
  {| dateIdx := findIndex Col.date columnAnalysis;
     descIdx := findIndex Col.description columnAnalysis;
     amountIdx := findIndex Col.amount columnAnalysis;
     debitIdx := findIndex Col.debit columnAnalysis;
     creditIdx := findIndex Col.credit columnAnalysis;
     balanceIdx := findIndex Col.balance columnAnalysis;
     typeIdx := findIndex Col.type columnAnalysis |}.

(** The variables of [processRows] that the loop over the rows updates. *)
Record LoopState := {
  txs : list SanitizedTransaction;
  balancesForCorrelation : list number;
  amountsForCorrelation : list number;
  skips : gmap string nat;
  report : RemovalReport;
  lastValidBalance : option number;
  recentAbsDeltas : list number
}.

(** [skipSummary[key] = (skipSummary[key] || 0) + 1] *)
Definition incSkip (key : string) (m : gmap string nat) : gmap string nat :=
  insert key (default 0 (m !! key) + 1) m.

(** [row[i]] for an index found by [findIndex]; a missing cell is
    [undefined], which every consumer treats like the empty string. *)
Definition cell (row : list jsstring) (i : nat) : jsstring := nth i row [].

(** The amount under resolution: [finalAmount], [type], [inference]. *)
Definition Resolved : Type :=
  number * Dialect.Direction * Inference.InferenceSource.

(** The balance-delta block: the resolved amount, and the new
    [lastValidBalance], [recentAbsDeltas] and [skipSummary]. *)
Definition balanceDelta (rowOrder : Dialect.RowOrder) (rawDesc : jsstring)
           (currentBal : number) (last : option number)
           (recent : list number) (skipSummary : gmap string nat)
  : Resolved * option number * list number * gmap string nat :=
  let unresolved : Resolved := (zero, Dialect.expense, Inference.fallback) in
  let hasValidCurrent := negb (isNaN currentBal) && isFinite currentBal in
  let looksLikeBalanceSummary := test true BALANCE_SUMMARY rawDesc in
  if hasValidCurrent then
    match last with
    | Some lastBal =>
        let delta := fsub currentBal lastBal in
        let delta :=
          match rowOrder with
          | Dialect.desc => fneg delta
          | _ => delta
          end in
        let absDelta := fabs delta in
        let recentMed := median recent in
        let isImplausible :=
          looksLikeBalanceSummary
          || (fgt recentMed zero && fgt absDelta (fmul recentMed (lit "50"))
              && fgt absDelta (lit "2500")) in
        if isImplausible then
          (unresolved, Some currentBal, recent, incSkip "suspect_balance_row" skipSummary)
        else if fgt absDelta (lit "0.01") then
          let pushed := recent ++ [absDelta] in
          ((delta,
            if fgt delta zero then Dialect.income else Dialect.expense,
            Inference.derived_from_balance),
           Some currentBal,
           if (15 <? List.length pushed)%nat then tl pushed else pushed,
           skipSummary)
        else (unresolved, Some currentBal, recent, skipSummary)
    | None => (unresolved, Some currentBal, recent, skipSummary)
    end
  else (unresolved, last, recent, skipSummary).

(** The explicit-column strategies that apply when the balance gave no
    amount. *)
Definition explicitAmount (ix : Indices) (row : list jsstring) (res : Resolved)
  : Resolved :=
  let '(finalAmount, type, inference) := res in
  match debitIdx ix, creditIdx ix with
  | Some d, Some c =>
      if feq finalAmount zero then
        let debitVal := fabs (cleanCurrency (cell row d)) in
        let creditVal := fabs (cleanCurrency (cell row c)) in
        if fgt creditVal zero then (creditVal, Dialect.income, Inference.explicit)
        else if fgt debitVal zero then (fneg debitVal, Dialect.expense, Inference.explicit)
        else res
      else res
  | _, _ =>
      match amountIdx ix with
      | Some a =>
          if feq finalAmount zero then
            let finalAmount := cleanCurrency (cell row a) in
            let typeDir :=
              match typeIdx ix with
              | Some t => Dialect.mapTypeToDirection (Some (cell row t))
              | None => None
              end in
            match typeDir with
            | Some dir =>
                if negb (feq finalAmount zero) then
                  (match dir with
                   | Dialect.expense => fneg (fabs finalAmount)
                   | Dialect.income => fabs finalAmount
                   end, dir, Inference.explicit)
                else if flt finalAmount zero then (finalAmount, Dialect.expense, Inference.explicit)
                else if fgt finalAmount zero then (finalAmount, Dialect.income, Inference.explicit)
                else (finalAmount, type, inference)
            | None =>
                if flt finalAmount zero then (finalAmount, Dialect.expense, Inference.explicit)
                else if fgt finalAmount zero then (finalAmount, Dialect.income, Inference.explicit)
                else (finalAmount, type, inference)
            end
          else res
      | None => res
      end
  end.

Section Process.
Variable hostDate : jsstring -> option jsstring.
Variable options : AnonymizerOptions.

(** The body of the loop up to the final test on [finalAmount]: the
    state after the row, and the transaction to push, if any.  [d] is
    [dateIdx]. *)
Definition rowStep (ix : Indices) (d : nat) (rowOrder : Dialect.RowOrder)
           (st : LoopState) (row : list jsstring)
  : LoopState * option SanitizedTransaction :=
  if (List.length row <? 2)%nat then (st, None)
  else
    match parseDateString hostDate (cell row d) with
    | Some ((_ :: _) as dateStr) =>
        let rawDesc :=
          match descIdx ix with
          | Some i => cell row i
          | None => js "Unknown"
          end in
        let '(cleanDesc, rep) := sanitizeDescription options rawDesc (Some (report st)) in
        let '(merchant, rep) := normalizeMerchant options cleanDesc rep in
        let cat := categorizeTransaction rawDesc cleanDesc merchant in
        let '(res, last, recent, skipSummary) :=
          match balanceIdx ix with
          | Some b =>
              balanceDelta rowOrder rawDesc (cleanCurrency (cell row b))
                           (lastValidBalance st) (recentAbsDeltas st) (skips st)
          | None =>
              ((zero, Dialect.expense, Inference.fallback),
               lastValidBalance st, recentAbsDeltas st, skips st)
          end in
        let '(finalAmount, _, inference) := explicitAmount ix row res in
        ({| txs := txs st;
            balancesForCorrelation := balancesForCorrelation st;
            amountsForCorrelation := amountsForCorrelation st;
            skips := skipSummary;
            report := default (report st) rep;
            lastValidBalance := last;
            recentAbsDeltas := recent |},
         if negb (feq finalAmount zero) then
           Some {| txDate := dateStr;
                   merchant := merchant;
                   txDescription := if ultraClean options then merchant else cleanDesc;
                   category := fst cat;
                   categoryConfidence := snd cat;
                   txAmount := finalAmount;
                   txType := if fgt finalAmount zero
                             then Dialect.income else Dialect.expense;
                   inferenceSource := inference |}
         else None)
    | _ => ({| txs := txs st;
               balancesForCorrelation := balancesForCorrelation st;
               amountsForCorrelation := amountsForCorrelation st;
               skips := incSkip "bad_date" (skips st);
               report := report st;
               lastValidBalance := lastValidBalance st;
               recentAbsDeltas := recentAbsDeltas st |}, None)
    end.

(** [transactions.push(...)] and the two correlation pushes. *)
Definition pushTransaction (ix : Indices) (row : list jsstring)
           (st : LoopState) (tx : SanitizedTransaction) : LoopState :=
  {| txs := txs st ++ [tx];
     balancesForCorrelation :=
       balancesForCorrelation st ++
       [match balanceIdx ix with
        | Some b => cleanCurrency (cell row b)
        | None => zero
        end];
     amountsForCorrelation := amountsForCorrelation st ++ [txAmount tx];
     skips := skips st;
     report := report st;
     lastValidBalance := lastValidBalance st;
     recentAbsDeltas := recentAbsDeltas st |}.

(** One iteration of [for (let i = 1; i < rows.length; i++)]. *)
Definition loopBody (ix : Indices) (d : nat) (rowOrder : Dialect.RowOrder)
           (st : LoopState) (row : list jsstring) : LoopState :=
  match rowStep ix d rowOrder st row with
  | (st', Some tx) => pushTransaction ix row st' tx
  | (st', None) => st'
  end.

Definition initialState : LoopState :=
  {| txs := [];
     balancesForCorrelation := [];
     amountsForCorrelation := [];
     skips := empty;
     report := emptyReport (List.length (List.filter truthy (customRemoveTerms options)))
                           (ultraClean options);
     lastValidBalance := None;
     recentAbsDeltas := [] |}.

Definition hasSignedSample (ix : Indices) (rows : grid) : bool :=
  match amountIdx ix with
  | Some a =>
      existsb (fun r => includes (js "-") (cell r a) || includes (js "(") (cell r a))
              (Dialect.sampleOf rows)
  | None => false
  end.

Definition isValidNumber (x : number) : bool := negb (isNaN x) && isFinite x.

Definition countRows (p : list jsstring -> bool) (rows : grid) : nat :=
  List.length (List.filter p rows).

(** [Object.fromEntries(columnAnalysis.map(c => [c.columnType, c]))] *)
Definition byType (columnAnalysis : list ColumnAnalysis)
  : gmap jsstring ColumnAnalysis :=
  fold_left (fun m c => insert (Col.name (columnType c)) c m) columnAnalysis empty.

Definition summarize (transactions : list SanitizedTransaction) : gmap string nat :=
  fold_left
    (fun m t =>
       let k := Inference.name (inferenceSource t) in
       insert k (default 0 (m !! k) + 1) m)
    transactions empty.

Definition processRows (inputRows : grid) : Result SanitizedData :=
  let rows := shapeRows inputRows in
  if (List.length rows <? 2)%nat then Throw NOT_ENOUGH_DATA
  else
    let columnAnalysis := detectColumnsWithContext hostDate rows in
    let ix := indicesOf columnAnalysis in
    match dateIdx ix with
    | None => Throw (noDateMessage columnAnalysis)
    | Some d =>
        match amountIdx ix, debitIdx ix, creditIdx ix, balanceIdx ix with
        | None, None, None, None => Throw (noMoneyMessage columnAnalysis)
        | _, _, _, _ =>
            let dataRows := tl rows in
            let isoDates := map (fun r => parseDateString hostDate (cell r d)) dataRows in
            let rowOrder := Dialect.inferRowOrderFromDates isoDates in
            let final := fold_left (loopBody ix d rowOrder) dataRows initialState in
            let transactions := txs final in
            let hasSplit := bool_decide (is_Some (debitIdx ix)) && bool_decide (is_Some (creditIdx ix)) in
            let hasType := bool_decide (is_Some (typeIdx ix)) && bool_decide (is_Some (amountIdx ix)) in
            let hasSignedAmount := hasSignedSample ix rows in
            let hasBalance := bool_decide (is_Some (balanceIdx ix)) in
            let balanceMatchRate :=
              if hasBalance && (2 <=? List.length transactions)%nat
              then Some (snd (Dialect.chooseBalanceOrientation
                                (balancesForCorrelation final)
                                (amountsForCorrelation final) (lit "0.05")))
              else None in
            let decision :=
              Dialect.inferDirectionDecision hasSplit hasType hasSignedAmount
                                             hasBalance rowOrder balanceMatchRate in
            let nData := (List.length rows - 1)%nat in
            let guard (n : nat) := if (0 <? nData)%nat then n else 0 in
            Ok {| metadata :=
                    {| sanitized := true;
                       originalRowCount := List.length rows;
                       sanitizedRowCount := List.length transactions;
                       detectedColumns := byType columnAnalysis;
                       detectedColumnsList := columnAnalysis;
                       rowOrder := rowOrder;
                       directionStrategy :=
                         if hasBalance then Dialect.balance
                         else Dialect.strategy decision;
                       directionConfidence := Dialect.confidence decision;
                       inferenceSummary := summarize transactions;
                       skipSummary := skips final;
                       rowsWithBalance :=
                         guard match balanceIdx ix with
                               | Some b => countRows (fun r => isValidNumber (cleanCurrency (cell r b))) dataRows
                               | None => 0
                               end;
                       rowsWithAmount :=
                         guard match amountIdx ix with
                               | Some a => countRows (fun r => isValidNumber (cleanCurrency (cell r a))
                                                               && truthy (cell r a)) dataRows
                               | None => 0
                               end;
                       rowsWithDebitCredit :=
                         guard match debitIdx ix, creditIdx ix with
                               | Some db, Some cr =>
                                   countRows (fun r => truthy (trim (cell r db))
                                                       || truthy (trim (cell r cr))) dataRows
                               | _, _ => 0
                               end;
                       removalReport := report final |};
                  transactions := transactions |}
        end
    end.

End Process.

End Pipeline.

Export Pipeline.

(** ** The dry run ([preflightRows]) *)

Module Preflight.
Import Regex RegexParse.

(** The [lastIndex] of the patterns with the [g] flag that [preflightRows]
    consults through [test]: the state that survives between calls. *)
Record LastIndex := {
  liEmail : nat; liPhone : nat; liUrl : nat; liCard : nat;
  liSsn : nat; liAddress : nat; liZip : nat; liLocations : nat
}.

Definition freshLastIndex : LastIndex :=
  {| liEmail := 0; liPhone := 0; liUrl := 0; liCard := 0;
     liSsn := 0; liAddress := 0; liZip := 0; liLocations := 0 |}.

Record Example3 := {
  exRaw : jsstring;
  exSanitized : jsstring;
  exMerchant : jsstring
}.

Record PreflightReport := {
  headerColumns : nat;
  sampleRows : nat;
  pfDetectedColumnsList : list ColumnAnalysis;
  pfRowOrder : Dialect.RowOrder;
  likelyDirectionStrategy : Dialect.DirectionStrategy;
  plannedRedactions : gmap string nat;
  plannedIdRemovals : nat;
  plannedMerchantNormalizations : nat;
  plannedCustomRemovals : gmap jsstring nat;
  examples : list Example3
}.

(** The accumulators of the loop over the sample rows. *)
Record Planned := {
  pRedactions : gmap string nat;
  pIdRemovals : nat;
  pMerchantNormalizations : nat;
  pCustomRemovals : gmap jsstring nat;
  pExamples : list Example3;
  pLastIndex : LastIndex
}.

(** [count(k)]: [plannedRedactions[k] = (plannedRedactions[k] || 0) + 1] *)
Definition count (k : string) (m : gmap string nat) : gmap string nat :=
  insert k (default 0 (m !! k) + 1) m.

(** [if (pattern.test(s)) count(kind)] for a pattern with the [g] flag. *)
Definition testAndCount (ic : bool) (pat : re) (kind : string) (s : jsstring)
           (li : nat) (m : gmap string nat) : nat * gmap string nat :=
  let '(found, li') := testG ic pat li s in
  (li', if found then count kind m else m).

(** The eight stateful tests of one row, in the order of the source. *)
Definition plannedTests (s : jsstring) (li : LastIndex) (m : gmap string nat)
  : LastIndex * gmap string nat :=
  let '(e, m) := testAndCount false PATTERNS.PII_EMAIL "email" s (liEmail li) m in
  let '(p, m) := testAndCount false PATTERNS.PII_PHONE "phone" s (liPhone li) m in
  let '(u, m) := testAndCount true PATTERNS.PII_URL "url" s (liUrl li) m in
  let '(c, m) := testAndCount false PATTERNS.PII_CREDIT_CARD "card" s (liCard li) m in
  let '(sn, m) := testAndCount false PATTERNS.PII_SSN "ssn" s (liSsn li) m in
  let '(a, m) := testAndCount true PATTERNS.PII_ADDRESS "address" s (liAddress li) m in
  let '(z, m) := testAndCount false PATTERNS.PII_ZIP "zip" s (liZip li) m in
  let '(l, m) := testAndCount false PATTERNS.LOCATIONS "location" s (liLocations li) m in
  ({| liEmail := e; liPhone := p; liUrl := u; liCard := c;
      liSsn := sn; liAddress := a; liZip := z; liLocations := l |}, m).

Section WithOptions.
Variable hostDate : jsstring -> option jsstring.
Variable options : AnonymizerOptions.

(** The effect of [sanitizeDescription(raw)] on the pattern state: each
    [replace] with a [g] pattern leaves its [lastIndex] at 0. *)
Definition afterSanitize (raw : jsstring) (li : LastIndex) : LastIndex :=
  if negb (truthy raw) then li
  else
    let li :=
      if maskPii options then
        {| liEmail := 0; liPhone := 0; liUrl := 0; liCard := 0;
           liSsn := 0; liAddress := 0; liZip := 0;
           liLocations := liLocations li |}
      else li in
    if fuzzLocation options then
      {| liEmail := liEmail li; liPhone := liPhone li; liUrl := liUrl li;
         liCard := liCard li; liSsn := liSsn li; liAddress := liAddress li;
         liZip := liZip li; liLocations := 0 |}
    else li.

Definition countTerm (descRaw : jsstring) (m : gmap jsstring nat)
           (term : jsstring) : gmap jsstring nat :=
  match countMatches true (literal term) descRaw with
  | O => m
  | S n => insert term (default 0 (m !! term) + S n) m
  end.

(** The body of [for (const r of sampleRows)]. *)
Definition sampleRowStep (descCol : option nat) (acc : Planned)
           (r : list jsstring) : Planned :=
  let raw := join (js " ") r in
  let descRaw :=
    match descCol with
    | Some i => cell r i
    | None => raw
    end in
  let '(li, redactions) := plannedTests descRaw (pLastIndex acc) (pRedactions acc) in
  let idRemovals :=
    if looksLikeId descRaw then S (pIdRemovals acc) else pIdRemovals acc in
  let sanitized := fst (sanitizeDescription options descRaw None) in
  let merchant := fst (normalizeMerchant options sanitized None) in
  let merchantNormalizations :=
    if truthy merchant && negb (streq merchant (trim sanitized))
    then S (pMerchantNormalizations acc) else pMerchantNormalizations acc in
  let customRemovals :=
    fold_left (countTerm descRaw) (customTerms options) (pCustomRemovals acc) in
  let examples :=
    if (List.length (pExamples acc) <? 8)%nat
       && (negb (streq sanitized (trim descRaw)) || negb (streq merchant sanitized))
    then pExamples acc ++
         [{| exRaw := firstn 160 (trim descRaw);
             exSanitized := firstn 160 sanitized;
             exMerchant := merchant |}]
    else pExamples acc in
  {| pRedactions := redactions;
     pIdRemovals := idRemovals;
     pMerchantNormalizations := merchantNormalizations;
     pCustomRemovals := customRemovals;
     pExamples := examples;
     pLastIndex := afterSanitize descRaw li |}.

(** [Math.max(10, Math.min(opts?.sampleSize ?? 100, rows.length - 1))] *)
Definition effectiveSampleSize (sampleSize : option Z) (rows : grid) : Z :=
  Z.max 10 (Z.min (default 100%Z sampleSize) (Z.of_nat (List.length rows) - 1)).

Definition preflightRows (li : LastIndex) (inputRows : grid)
           (sampleSize : option Z) : PreflightReport * LastIndex :=
  let rows := shapeRows inputRows in
  let size := effectiveSampleSize sampleSize rows in
  let sample := firstn (Z.to_nat (1 + size)) rows in
  let detected := detectColumnsWithContext hostDate sample in
  let ix := indicesOf detected in
  let isoDates :=
    match dateIdx ix with
    | Some d => map (fun r => parseDateString hostDate (cell r d)) (tl sample)
    | None => []
    end in
  let rowOrder := Dialect.inferRowOrderFromDates isoDates in
  let hasSplit := bool_decide (is_Some (debitIdx ix)) && bool_decide (is_Some (creditIdx ix)) in
  let hasType := bool_decide (is_Some (typeIdx ix)) && bool_decide (is_Some (amountIdx ix)) in
  let hasSignedAmount :=
    match amountIdx ix with
    | Some a =>
        existsb (fun r => includes (js "-") (cell r a) || includes (js "(") (cell r a))
                (tl sample)
    | None => false
    end in
  let hasBalance := bool_decide (is_Some (balanceIdx ix)) in
  let decision :=
    Dialect.inferDirectionDecision hasSplit hasType hasSignedAmount hasBalance
                                   rowOrder None in
  let final :=
    fold_left (sampleRowStep (descIdx ix)) (tl sample)
      {| pRedactions := empty; pIdRemovals := 0; pMerchantNormalizations := 0;
         pCustomRemovals := empty; pExamples := []; pLastIndex := li |} in
  ({| headerColumns := List.length (hd [] rows);
      sampleRows := List.length (tl sample);
      pfDetectedColumnsList := detected;
      pfRowOrder := rowOrder;
      likelyDirectionStrategy :=
        if hasBalance then Dialect.balance else Dialect.strategy decision;
      plannedRedactions := pRedactions final;
      plannedIdRemovals := pIdRemovals final;
      plannedMerchantNormalizations := pMerchantNormalizations final;
      plannedCustomRemovals := pCustomRemovals final;
      examples := pExamples final |},
   pLastIndex final).

End WithOptions.

End Preflight.

Export Preflight.

(** ** The formatter ([formatData]) *)

Module Detail.
Inductive DetailLevel := minimal | standard | detailed | debug.
End Detail.

Module Profile.
Inductive ExportProfile := ai_safe | audit | debug.
End Profile.

Module Format.

Record FormatOptions := {
  maxRows : option number;
  highlightTerm : option jsstring;
  detailLevel : option Detail.DetailLevel;
  profile : option Profile.ExportProfile
}.

(** What the branches of the [switch] see. *)
Record RenderInput := {
  riRows : list SanitizedTransaction;
  riTruncated : bool;
  riDetailLevel : Detail.DetailLevel;
  riProfile : Profile.ExportProfile;
  riMaxRows : option number;
  riHighlightTerm : option jsstring;
  riTotal : nat
}.

(** The integer part of a number that is at least 0, as [slice] takes its
    end index; [None] is infinity. *)
Definition sliceEnd (x : number) : option nat :=
  match x with
  | S754_infinity false => None
  | S754_finite false m e =>
      Some (Z.to_nat (match e with
                      | Zneg p => Z.shiftr (Zpos m) (Zpos p)
                      | _ => Z.shiftl (Zpos m) e
                      end))
  | _ => Some 0
  end.

Definition sliceTo (x : number) (l : list SanitizedTransaction)
  : list SanitizedTransaction :=
  match sliceEnd x with
  | None => l
  | Some n => firstn n l
  end.

Section Renderers.
(** The bodies of the five [case] branches print numbers ([toFixed],
    [JSON.stringify]) and dates ([toLocaleDateString]); they are taken
    as given functions of what the branch reads. *)
Variables renderJson renderCsv renderMarkdown renderStoryline renderText
  : RenderInput -> jsstring.

Definition formatData (data : option SanitizedData) (format : jsstring)
           (opts : option FormatOptions) : jsstring :=
  match data with
  | None => []
  | Some data =>
      match transactions data with
      | [] => []
      | _ :: _ =>
          let maxRows := mbind maxRows opts in
          let highlightTerm := mbind highlightTerm opts in
          let profile := default Profile.ai_safe (mbind profile opts) in
          let detailLevel :=
            default (match profile with
                     | Profile.audit => Detail.standard
                     | Profile.debug => Detail.debug
                     | Profile.ai_safe => Detail.minimal
                     end) (mbind detailLevel opts) in
          let rows :=
            match maxRows with
            | Some n => sliceTo (fmax zero n) (transactions data)
            | None => transactions data
            end in
          let truncated :=
            match maxRows with
            | Some n => fgt (ofNat (List.length (transactions data))) n
            | None => false
            end in
          let input :=
            {| riRows := rows; riTruncated := truncated;
               riDetailLevel := detailLevel; riProfile := profile;
               riMaxRows := maxRows; riHighlightTerm := highlightTerm;
               riTotal := List.length (transactions data) |} in
          if streq format (js "json") then renderJson input
          else if streq format (js "csv") then renderCsv input
          else if streq format (js "markdown") then renderMarkdown input
          else if streq format (js "storyline") then renderStoryline input
          else if streq format (js "text") then renderText input
          else []
      end
  end.
End Renderers.

End Format.

(** ** CSV text *)

Module Csv.

Definition QUOTE : N := 34.
Definition COMMA : N := 44.
Definition LF : N := 10.
Definition CR : N := 13.

(** The variables of the loop of [parseCSV]. *)
Record CsvState := {
  csvRows : grid;
  currentRow : list jsstring;
  currentVal : jsstring;
  insideQuote : bool
}.

Definition csvStart : CsvState :=
  {| csvRows := []; currentRow := []; currentVal := []; insideQuote := false |}.

(** [currentRow.push(currentVal.trim()); rows.push(currentRow)] under
    [if (currentVal || currentRow.length > 0)]; the row and the value are
    reset, which is what the loop does and what the end of the text
    ignores. *)
Definition endRow (st : CsvState) : CsvState :=
  if truthy (currentVal st) || (0 <? List.length (currentRow st))%nat then
    {| csvRows := csvRows st ++ [currentRow st ++ [trim (currentVal st)]];
       currentRow := []; currentVal := [];
       insideQuote := insideQuote st |}
  else st.

(** The body of [for (let i = 0; i < text.length; i++)] on [text[i]] and
    [text[i + 1]]: the state after it, and whether it did [i++]. *)
Definition csvStep (char : N) (nextChar : option N) (st : CsvState)
  : CsvState * bool :=
  if (char =? QUOTE)%N then
    if insideQuote st && bool_decide (nextChar = Some QUOTE) then
      ({| csvRows := csvRows st; currentRow := currentRow st;
          currentVal := currentVal st ++ [QUOTE];
          insideQuote := insideQuote st |}, true)
    else
      ({| csvRows := csvRows st; currentRow := currentRow st;
          currentVal := currentVal st;
          insideQuote := negb (insideQuote st) |}, false)
  else if (char =? COMMA)%N && negb (insideQuote st) then
    ({| csvRows := csvRows st;
        currentRow := currentRow st ++ [trim (currentVal st)];
        currentVal := [];
        insideQuote := insideQuote st |}, false)
  else if ((char =? LF)%N || (char =? CR)%N) && negb (insideQuote st) then
    (endRow st, (char =? CR)%N && bool_decide (nextChar = Some LF))
  else
    ({| csvRows := csvRows st; currentRow := currentRow st;
        currentVal := currentVal st ++ [char];
        insideQuote := insideQuote st |}, false).

(** The loop from index [i] on: [skip] says that the previous iteration did
    [i++], so that the code unit at hand is passed over. *)
Fixpoint csvLoop (text : jsstring) (skip : bool) (st : CsvState) : CsvState :=
  match text with
  | [] => st
  | char :: rest =>
      if skip then csvLoop rest false st
      else
        let '(st', skip') := csvStep char (head rest) st in
        csvLoop rest skip' st'
  end.

Definition parseCSV (text : jsstring) : grid :=
  csvRows (endRow (csvLoop text false csvStart)).

(** [parseCSVHeaderRow] of the application script: the loop stops at the
    first line end outside quotes. *)
Record HeaderState := {
  headers : list jsstring;
  headerVal : jsstring;
  headerQuote : bool
}.

Fixpoint headerLoop (text : jsstring) (skip : bool) (st : HeaderState)
  : HeaderState :=
  match text with
  | [] => st
  | ch :: rest =>
      if skip then headerLoop rest false st
      else if (ch =? QUOTE)%N then
        if headerQuote st && bool_decide (head rest = Some QUOTE) then
          headerLoop rest true
            {| headers := headers st; headerVal := headerVal st ++ [QUOTE];
               headerQuote := headerQuote st |}
        else
          headerLoop rest false
            {| headers := headers st; headerVal := headerVal st;
               headerQuote := negb (headerQuote st) |}
      else if negb (headerQuote st) && (ch =? COMMA)%N then
        headerLoop rest false
          {| headers := headers st ++ [trim (headerVal st)]; headerVal := [];
             headerQuote := headerQuote st |}
      else if negb (headerQuote st) && ((ch =? LF)%N || (ch =? CR)%N) then st
      else
        headerLoop rest false
          {| headers := headers st; headerVal := headerVal st ++ [ch];
             headerQuote := headerQuote st |}
  end.

Definition parseCSVHeaderRow (text : jsstring) : list jsstring :=
  let st := headerLoop text false
              {| headers := []; headerVal := []; headerQuote := false |} in
  if truthy (headerVal st) || (0 <? List.length (headers st))%nat
  then headers st ++ [trim (headerVal st)]
  else headers st.

(** A field of the [csv] branch of [formatData]: the value with its own
    double quotes doubled by [replace] with the [g] flag, between double
    quotes. *)
Definition DQUOTE : Regex.re := Regex.Char QUOTE.

Definition csvField (v : jsstring) : jsstring :=
  [QUOTE] ++ Regex.replaceAll false DQUOTE [QUOTE; QUOTE] v ++ [QUOTE].

End Csv.

Export Csv.

(** [process]: the text is parsed and shaped, and [processRows] shapes
    again. *)
Definition process (hostDate : jsstring -> option jsstring)
           (options : AnonymizerOptions) (csvText : jsstring)
  : Result SanitizedData :=
  processRows hostDate options (shapeRows (parseCSV csvText)).

(** ** Header signatures *)

Module Headers.
Import Regex RegexParse.

Definition NOT_SIGNATURE : re := Eval vm_compute in rx "[^a-z0-9 ]".

(** [normalizeHeaders]: trimmed, lower-cased, runs of white space collapsed
    to one space. *)
Definition normalizeHeaders (headers : list jsstring) : list jsstring :=
  map (fun h => replaceAll false WHITESPACE (js " ") (toLowerCase (trim h))) headers.

(** [signatureFromHeaders]: the normalized headers without anything but
    lower-case letters, digits and spaces, joined by [|]. *)
Definition signatureFromHeaders (headers : list jsstring) : jsstring :=
  join (js "|")
       (map (fun h => replaceAll false NOT_SIGNATURE [] h) (normalizeHeaders headers)).

End Headers.

Export Headers.

(** ** Markup *)

Module Markup.
Import Regex.

(** [s.replaceAll(c, by)] for a search string of one code unit and a
    replacement without [$]. *)
Definition replaceAllUnit (c : N) (by_ : jsstring) (s : jsstring) : jsstring :=
  flat_map (fun x => if (x =? c)%N then by_ else [x]) s.

Definition AMP : N := 38.
Definition LT : N := 60.
Definition GT : N := 62.
Definition APOS : N := 39.

(** [escapeHtml] of the application script. *)
Definition escapeHtml (s : jsstring) : jsstring :=
  replaceAllUnit APOS (js "&#39;")
    (replaceAllUnit QUOTE (js "&quot;")
       (replaceAllUnit GT (js "&gt;")
          (replaceAllUnit LT (js "&lt;")
             (replaceAllUnit AMP (js "&amp;") s)))).

(** The opening tag that [hl] puts before a match. *)
Definition markOpen : jsstring :=
  js "<mark class=" ++ [QUOTE]
  ++ js "bg-brand-500/30 text-white rounded-sm px-0.5" ++ [QUOTE] ++ js ">".

Definition markClose : jsstring := js "</mark>".

Section Highlight.
Variable highlightTerm : option jsstring.

(** The helper [hl] of [formatData]: the text is escaped, then every match
    of the term, read literally and without regard to case, is wrapped. *)
Definition hl (text : jsstring) : jsstring :=
  match highlightTerm with
  | Some ((_ :: _) as term) =>
      if negb (truthy text) then text
      else
        let safe :=
          replaceAll false (Char QUOTE) (js "&quot;")
            (replaceAll false (Char GT) (js "&gt;")
               (replaceAll false (Char LT) (js "&lt;")
                  (replaceAll false (Char AMP) (js "&amp;") text))) in
        replaceAllWith true (literal term)
                       (fun m => markOpen ++ m ++ markClose) safe
  | _ => text
  end.

(** The helper [fmtVal] of [formatData], on a string value. *)
Definition fmtVal (val : jsstring) (applyHl : bool) : jsstring :=
  match highlightTerm with
  | Some (_ :: _) =>
      if applyHl then hl val
      else replaceAll false (Char GT) (js "&gt;")
             (replaceAll false (Char LT) (js "&lt;")
                (replaceAll false (Char AMP) (js "&amp;") val))
  | _ => val
  end.

End Highlight.

End Markup.

Export Markup.

(** ** Literal terms *)

Module Escape.
Import Regex RegexParse.

Definition REGEXP_SPECIAL : re := Eval vm_compute in rx "[.*+?^${}()|[\]\\]".

(** [escapeRegExp]: a backslash before every code unit that the pattern
    syntax reads specially. *)
Definition escapeRegExp (input : jsstring) : jsstring :=
  replaceAllWith false REGEXP_SPECIAL (fun m => [92%N] ++ m) input.

End Escape.

Export Escape.

(** ** Vocabulary of the properties *)

Module Spec.

(** A host whose [Date] reads the date-only form and nothing else. *)
Definition noHost : jsstring -> option jsstring := fun _ => None.

(** A grid written as rows of ASCII cells. *)
Definition gridOf (rows : list (list string)) : grid := map (map js) rows.

(** The amount of a transaction is not [0] and its [type] restates its
    sign. *)
Definition signConsistent (t : SanitizedTransaction) : Prop :=
  feq (txAmount t) zero = false
  /\ (fgt (txAmount t) zero = true -> txType t = Dialect.income)
  /\ (flt (txAmount t) zero = true -> txType t = Dialect.expense).

(** The elements of an optional value. *)
Definition olist {A : Type} (o : option A) : list A :=
  match o with Some x => [x] | None => [] end.

Section Trace.
Variable hostDate : jsstring -> option jsstring.
Variable options : AnonymizerOptions.

(** What the loop of [processRows] pushes when it is at data row [i] of
    [dataRows], having started from [st0]: the transaction of that
    iteration, if it emits one. *)
Definition emission (ix : Indices) (d : nat) (rowOrder : Dialect.RowOrder)
           (dataRows : grid) (st0 : LoopState) (i : nat)
  : option SanitizedTransaction :=
  match nth_error dataRows i with
  | Some row =>
      snd (rowStep hostDate options ix d rowOrder
             (fold_left (loopBody hostDate options ix d rowOrder)
                        (firstn i dataRows) st0) row)
  | None => None
  end.

(** The transaction that data row [i] of the input gives rise to. *)
Definition emittedAt (inputRows : grid) (i : nat) : option SanitizedTransaction :=
  let rows := shapeRows inputRows in
  let ix := indicesOf (detectColumnsWithContext hostDate rows) in
  match dateIdx ix with
  | Some d =>
      let dataRows := tl rows in
      let rowOrder :=
        Dialect.inferRowOrderFromDates
          (map (fun r => parseDateString hostDate (cell r d)) dataRows) in
      emission ix d rowOrder dataRows (initialState options) i
  | None => None
  end.
End Trace.

(** Some column of the analysis is classified [t]. *)
Definition classified (t : Col.ColumnType) (columns : list ColumnAnalysis) : Prop :=
  exists c, In c columns /\ columnType c = t.

(** None of the monetary roles is classified. *)
Definition noMonetaryColumn (columns : list ColumnAnalysis) : Prop :=
  ~ classified Col.amount columns /\ ~ classified Col.debit columns
  /\ ~ classified Col.credit columns /\ ~ classified Col.balance columns.

(** The missing-date input of the specification. *)
Definition coffeeStatement : grid :=
  gridOf [["Description"; "Amount"]; ["Coffee"; "4.50"]]%string.

(** A host that reads, besides the date-only form, the first cell as a date
    when [b1] holds and the second when [b2] holds. *)
Definition hostOfTwo (v1 v2 : jsstring) (b1 b2 : bool) : jsstring -> option jsstring :=
  fun v =>
    if streq v v1 then (if b1 then Some v else None)
    else if streq v v2 then (if b2 then Some v else None)
    else None.

(** [rawDesc] of a row: its description cell, or the text Unknown when no
    description column was found. *)
Definition rawDescription (ix : Indices) (row : list jsstring) : jsstring :=
  match descIdx ix with
  | Some i => cell row i
  | None => js "Unknown"
  end.

(** What the balance claims observe of the loop state: amount, type and
    provenance of the transactions so far, the last valid balance and the
    recent deltas. *)
Definition view (st : LoopState)
  : list (number * Dialect.Direction * Inference.InferenceSource)
    * option number * list number :=
  (map (fun t => (txAmount t, txType t, inferenceSource t)) (txs st),
   lastValidBalance st, recentAbsDeltas st).

(** The effect on the view of a row whose balance cell reads [bal], when the
    balance is the only monetary column and the description is no summary
    row. *)
Definition balanceStep (rowOrder : Dialect.RowOrder) (bal : number)
           (v : list (number * Dialect.Direction * Inference.InferenceSource)
                * option number * list number)
  : list (number * Dialect.Direction * Inference.InferenceSource)
    * option number * list number :=
  let '(seen, last, recent) := v in
  let '(res, last', recent', _) := balanceDelta rowOrder [] bal last recent empty in
  let '(amount, _, inference) := res in
  (seen ++ (if negb (feq amount zero)
            then [(amount,
                   if fgt amount zero then Dialect.income else Dialect.expense,
                   inference)]
            else []),
   last', recent').

(** The length of the longest prefix whose code units satisfy [ok]. *)
Fixpoint run (ok : N -> bool) (s : jsstring) : nat :=
  match s with
  | c :: t => if ok c then S (run ok t) else 0
  | [] => 0
  end.

(** Title-casing as a scan: outside a word a word character is raised and
    opens a word, inside a word everything up to the next white space is
    lowered. *)
Fixpoint titleScan (inWord : bool) (s : jsstring) : jsstring :=
  match s with
  | [] => []
  | c :: t =>
      if inWord then
        if isSpace c then c :: titleScan false t
        else toLowerChar c :: titleScan true t
      else
        if isWordChar c then toUpperChar c :: titleScan true t
        else c :: titleScan false t
  end.

(** White-space collapsing as a scan: the first code unit of a run of white
    space becomes a space, the others go. *)
Fixpoint collapseScan (inRun : bool) (s : jsstring) : jsstring :=
  match s with
  | [] => []
  | c :: t =>
      if isSpace c then
        if inRun then collapseScan true t else 32%N :: collapseScan true t
      else c :: collapseScan false t
  end.

(** All white space of the text is single spaces ([afterSpace] tells whether
    the text follows one). *)
Fixpoint spaced (afterSpace : bool) (s : jsstring) : bool :=
  match s with
  | [] => true
  | c :: t =>
      if isSpace c then (c =? 32)%N && negb afterSpace && spaced true t
      else spaced false t
  end.

(** The patterns by which [sanitizeDescription] removes or replaces text
    under the given options, each with its [i] flag: custom terms, masked
    identifiers, transaction ids, names, locations, noise and separators,
    merchant prefixes. *)
Definition removalPatterns (options : AnonymizerOptions) : list (bool * Regex.re) :=
  map (fun term => (true, literal term)) (customTerms options)
  ++ (if maskPii options
      then [(false, PATTERNS.PII_CREDIT_CARD); (false, PATTERNS.PII_SSN);
            (false, PATTERNS.PII_EMAIL); (false, PATTERNS.PII_PHONE);
            (true, PATTERNS.PII_URL); (true, PATTERNS.PII_ADDRESS);
            (false, PATTERNS.PII_ZIP)]
      else [])
  ++ PATTERNS.ID_PATTERNS
  ++ (if scrubContacts options then [(false, PATTERNS.NAMES)] else [])
  ++ (if fuzzLocation options then [(false, PATTERNS.LOCATIONS)] else [])
  ++ [(false, PATTERNS.NOISE_TOKENS); (false, SEPARATORS); (false, PIPES);
      (true, PATTERNS.MERCHANT_PREFIXES)].

(** No removal pattern matches the text any more. *)
Definition settled (options : AnonymizerOptions) (s : jsstring) : Prop :=
  Forall (fun p => Regex.test (fst p) (snd p) s = false) (removalPatterns options).

(** A continuation of the matcher is sound when the position it returns
    lies in the rest of the position it was given. *)
Definition sound (k : Regex.pos -> option Regex.pos) : Prop :=
  forall p e, k p = Some e -> Regex.prest e `suffix_of` Regex.prest p.

(** What every output of [sanitizeDescription] looks like: trimmed,
    single-spaced and title-cased. *)
Definition wellFormed (s : jsstring) : Prop :=
  trim s = s /\ spaced false s = true /\ titleCase s = s.

(** A result without transactions. *)
Definition emptyResult : SanitizedData :=
  {| metadata :=
       {| sanitized := true; originalRowCount := 2; sanitizedRowCount := 0;
          detectedColumns := empty; detectedColumnsList := [];
          rowOrder := Dialect.unknown; directionStrategy := Dialect.fallback;
          directionConfidence := lit "0.3"; inferenceSummary := empty;
          skipSummary := empty; rowsWithBalance := 0; rowsWithAmount := 0;
          rowsWithDebitCredit := 0; removalReport := emptyReport 0 false |};
     transactions := [] |}.

(** The formats that [formatData] renders. *)
Definition knownFormats : list jsstring :=
  [js "json"; js "csv"; js "markdown"; js "storyline"; js "text"].

(** The strategy that the diagnostics report for the columns [ix]. *)
Definition reportedStrategy (ix : Indices) (rows : grid) : Dialect.DirectionStrategy :=
  match balanceIdx ix with
  | Some _ => Dialect.balance
  | None =>
      match debitIdx ix, creditIdx ix with
      | Some _, Some _ => Dialect.split
      | _, _ =>
          match typeIdx ix, amountIdx ix with
          | Some _, Some _ => Dialect.type
          | _, _ => if hasSignedSample ix rows then Dialect.signed
                    else Dialect.fallback
          end
      end
  end.

(** A statement with a type column, an amount column and a balance column. *)
Definition typedStatement : grid :=
  gridOf [["Date"; "Description"; "Type"; "Amount"; "Balance"];
          ["2024-01-01"; "Coffee shop"; "debit"; "20.00"; "100"];
          ["2024-01-02"; "Salary"; "credit"; "50.00"; "150"]]%string.

(** A statement whose only monetary column is a running balance. *)
Definition balanceStatement : grid :=
  gridOf [["Date"; "Description"; "Balance"];
          ["2024-01-01"; "Coffee shop"; "100"];
          ["2024-01-02"; "Coffee shop"; "100"];
          ["2024-01-03"; "Coffee shop"; "80"];
          ["2024-01-04"; "Coffee shop"; "80"];
          ["2024-01-05"; "Coffee shop"; "130"]]%string.

(** ** Redaction counts *)

(** [counts[kind] || 0] *)
Definition tally (m : gmap string nat) (kind : string) : nat :=
  default 0 (m !! kind).

(** The count that [preflightRows], started on fresh patterns, plans for
    [kind] at sample size [n]. *)
Definition planned (host : jsstring -> option jsstring) (opts : AnonymizerOptions)
           (g : grid) (n : Z) (kind : string) : nat :=
  tally (plannedRedactions (fst (preflightRows host opts freshLastIndex g (Some n))))
        kind.

(** The count that the removal report of a result holds for [kind]. *)
Definition redacted (data : SanitizedData) (kind : string) : nat :=
  tally (redactions (removalReport (metadata data))) kind.

(** The kinds that [sanitizeDescription] counts under [maskPii]. *)
Definition piiKinds : list string :=
  ["card"; "ssn"; "email"; "phone"; "url"; "address"; "zip"]%string.

(** Whether the options let [sanitizeDescription] count [kind] at all. *)
Definition counted (opts : AnonymizerOptions) (kind : string) : bool :=
  (maskPii opts && existsb (String.eqb kind) piiKinds)
  || (fuzzLocation opts && String.eqb kind "location").

(** A balance statement of two data rows, the first of which names a
    state. *)
Definition locationStatement : grid :=
  gridOf [["Date"; "Description"; "Balance"];
          ["2024-01-01"; "Store NY"; "100"];
          ["2024-01-02"; "Cafe"; "80"]]%string.

(** A step on the optional report that leaves the redaction counts alone. *)
Definition keeps (o o' : option RemovalReport) : Prop :=
  forall r, o = Some r -> exists r', o' = Some r' /\ redactions r' = redactions r.

(** A step that adds at most [n] to the count of [k]. *)
Definition adds (k : string) (n : nat) (o o' : option RemovalReport) : Prop :=
  forall r, o = Some r ->
  exists r', o' = Some r'
             /\ tally (redactions r) k <= tally (redactions r') k
             /\ tally (redactions r') k <= tally (redactions r) k + n.

(** ** CSV text *)

(** A row written as the [csv] branch writes its text fields. *)
Definition csvLine (r : list jsstring) : jsstring :=
  join [COMMA] (map csvField r).

Definition csvText (rows : grid) : jsstring :=
  join [LF] (map csvLine rows).

(** Rows that leave more than an empty line: at least one field, and not
    the single empty field. *)
Definition readable (r : list jsstring) : bool :=
  match r with
  | [] => false
  | [[]] => false
  | _ => true
  end.

(** ** The loop of [processRows] *)

(** Where the amount of a transaction may come from, given the columns
    found. *)
Definition provenance (ix : Indices) (t : SanitizedTransaction) : Prop :=
  match inferenceSource t with
  | Inference.derived_from_balance => is_Some (balanceIdx ix)
  | Inference.explicit =>
      is_Some (amountIdx ix) \/ (is_Some (debitIdx ix) /\ is_Some (creditIdx ix))
  | Inference.fallback => isNaN (txAmount t) = true
  | Inference.derived_from_desc => False
  end.

(** A data row that the loop passes over with [incSkip('bad_date')]. *)
Definition badDate (host : jsstring -> option jsstring) (d : nat)
           (row : list jsstring) : bool :=
  (2 <=? List.length row)%nat
  && negb (truthy (default [] (parseDateString host (cell row d)))).

(** ** Labels *)

(** A text without white space at its ends and with single spaces as its
    only white space. *)
Definition tidy (s : jsstring) : Prop :=
  trim s = s /\ spaced false s = true.

(** The text fields of a transaction as the loop fills them. *)
Definition presentable (opts : AnonymizerOptions) (t : SanitizedTransaction) : Prop :=
  truthy (txDate t) = true
  /\ truthy (merchant t) = true /\ tidy (merchant t)
  /\ tidy (txDescription t)
  /\ (ultraClean opts = true -> txDescription t = merchant t).

(** ** Row order *)

(** The order of the same rows read from the other end. *)
Definition flip (o : Dialect.RowOrder) : Dialect.RowOrder :=
  match o with
  | Dialect.asc => Dialect.desc
  | Dialect.desc => Dialect.asc
  | Dialect.unknown => Dialect.unknown
  end.

(** ** The type column *)

(** The score of column [c] over the sample of [detectTypeColumn]. *)
Definition typeScore (rows : grid) (c : nat) : nat :=
  fst (Dialect.typeColumnScore (Dialect.sampleOf rows) c).

(** ** Markup *)

(** Code units that [escapeHtml] has nothing to do with. *)
Definition plain (c : N) : bool :=
  negb ((c =? AMP)%N || (c =? LT)%N || (c =? GT)%N || (c =? QUOTE)%N || (c =? APOS)%N).

(** ** Currency cells *)

(** The code units that [cleanCurrency] reads: digits, the dot, the minus
    sign, the comma and the two parentheses. *)
Definition currencyUnit (c : N) : bool :=
  isDigit c || (46 =? c)%N || (45 =? c)%N || (44 =? c)%N || (40 =? c)%N || (41 =? c)%N.

(** ** The figures of a result *)

(** What a transaction says about money and time. *)
Definition figures (t : SanitizedTransaction)
  : jsstring * number * Dialect.Direction * Inference.InferenceSource :=
  (txDate t, txAmount t, txType t, inferenceSource t).

(** What the loop state holds apart from texts and the removal report. *)
Definition ledger (st : LoopState) :=
  (map figures (txs st), balancesForCorrelation st, amountsForCorrelation st,
   skips st, lastValidBalance st, recentAbsDeltas st).

(** What a result says apart from texts, categories and the removal
    report. *)
Definition findings (data : SanitizedData) :=
  (map figures (transactions data),
   detectedColumnsList (metadata data),
   rowOrder (metadata data),
   directionStrategy (metadata data),
   directionConfidence (metadata data),
   skipSummary (metadata data),
   (originalRowCount (metadata data), sanitizedRowCount (metadata data)),
   (rowsWithBalance (metadata data), rowsWithAmount (metadata data),
    rowsWithDebitCredit (metadata data))).

(** ** Literal terms *)

(** The pattern that reads a term code unit by code unit, as the pattern
    syntax builds a sequence. *)
Fixpoint sequenceOf (term : jsstring) : Regex.re :=
  match term with
  | [] => Regex.Empty
  | c :: t =>
      match sequenceOf t with
      | Regex.Empty => Regex.Char c
      | r => Regex.Seq (Regex.Char c) r
      end
  end.

(** Two texts that differ at most in the case of the letters A to Z. *)
Definition sameLetters (a b : jsstring) : Prop :=
  Forall2 (fun x y => toUpperChar x = toUpperChar y) a b.

(** ** The shaped rectangle *)

(** The largest cell count among the rows. *)
Definition widest (rows : grid) : nat :=
  fold_right (fun r m => Nat.max (List.length r) m) 0 rows.

(** The generated header names for the positions [from] up to, but not
    including, [to], counted from 0: [Column_] followed by the position
    counted from 1. *)
Definition generatedNames (from to : nat) : list jsstring :=
  map (fun i => js "Column_" ++ natToString (i + 1)) (seq from (to - from)).

(** A row with empty cells added on the right up to [width]. *)
Definition padTo (width : nat) (row : list jsstring) : list jsstring :=
  row ++ repeat [] (width - List.length row).

(** ** Text in ASCII *)

(** Every code unit of the text is below 128. *)
Definition isAscii (s : jsstring) : bool := forallb (fun c => (c <? 128)%N) s.

(** Every cell of the grid is written in ASCII. *)
Definition asciiGrid (rows : grid) : bool := forallb (forallb isAscii) rows.

End Spec.

(** * Properties *)

(** ** Row-order inference *)

Module RowOrderFacts.
Import Dialect.

(** The adjacent pairs of a sequence, and how many of them rise or fall
    strictly. *)
Definition adjacentPairs (l : list jsstring) : list (jsstring * jsstring) :=
  combine l (tl l).

Definition rising (l : list jsstring) : nat :=
  List.length (List.filter (fun p => strlt (fst p) (snd p)) (adjacentPairs l)).

Definition falling (l : list jsstring) : nat :=
  List.length (List.filter (fun p => strlt (snd p) (fst p)) (adjacentPairs l)).

Lemma strlt_asym (a b : jsstring) : strlt a b = true -> strlt b a = false.
Proof.
  revert b; induction a as [|x a IH]; intros [|y b]; simpl; try congruence.
  destruct (N.ltb_spec x y), (N.ltb_spec y x); try congruence; try lia.
  apply IH.
Qed.

Lemma rising_cons (prev curr : jsstring) (rest : list jsstring) :
  rising (prev :: curr :: rest)
  = ((if strlt prev curr then 1 else 0) + rising (curr :: rest))%nat.
Proof.
  unfold rising, adjacentPairs. cbn [tl combine List.filter fst snd].
  destruct (strlt prev curr); reflexivity.
Qed.

Lemma falling_cons (prev curr : jsstring) (rest : list jsstring) :
  falling (prev :: curr :: rest)
  = ((if strlt curr prev then 1 else 0) + falling (curr :: rest))%nat.
Proof.
  unfold falling, adjacentPairs. cbn [tl combine List.filter fst snd].
  destruct (strlt curr prev); reflexivity.
Qed.

Lemma countPairs_counts (prev : jsstring) (rest : list jsstring) (up down : nat) :
  countPairs prev rest up down
  = ((up + rising (prev :: rest))%nat, (down + falling (prev :: rest))%nat).
Proof.
  revert prev up down.
  induction rest as [|curr rest IH]; intros prev up down.
  - cbn. f_equal; lia.
  - cbn [countPairs]. rewrite rising_cons, falling_cons.
    destruct (strlt prev curr) eqn:Hup.
    + rewrite (strlt_asym _ _ Hup), IH. f_equal; lia.
    + destruct (strlt curr prev) eqn:Hdown; rewrite IH; f_equal; lia.
Qed.

End RowOrderFacts.

(** C6, as the code has it: with fewer than three usable dates, or with no
    strictly rising or falling adjacent pair, the order is [unknown];
    otherwise it is [asc] as soon as the rising pairs are at least as many as
    the falling ones (a tie gives [asc]), and [desc] only when the falling
    pairs are strictly more. *)
Theorem inferRowOrder_majority_ties_asc (dateValues : list (option jsstring)) :
  let dates := Dialect.keepTruthy dateValues in
  Dialect.inferRowOrderFromDates dateValues
  = if (List.length dates <? 3)%nat then Dialect.unknown
    else if (RowOrderFacts.rising dates =? 0)%nat
            && (RowOrderFacts.falling dates =? 0)%nat then Dialect.unknown
    else if (RowOrderFacts.falling dates <=? RowOrderFacts.rising dates)%nat
         then Dialect.asc else Dialect.desc.
Proof.
  intros dates. unfold Dialect.inferRowOrderFromDates. fold dates.
  destruct (List.length dates <? 3)%nat eqn:Hlen; [reflexivity|].
  destruct dates as [|d0 rest]; [discriminate|].
  rewrite RowOrderFacts.countPairs_counts. reflexivity.
Qed.

(** C6, the claim as stated fails: one rising and one falling pair tie, and
    the result is [asc], not [unknown]. *)
Lemma inferRowOrder_tie_is_asc :
  let dates := [Some (js "2024-01-02"); Some (js "2024-01-03"); Some (js "2024-01-01")] in
  RowOrderFacts.rising (Dialect.keepTruthy dates) = 1
  /\ RowOrderFacts.falling (Dialect.keepTruthy dates) = 1
  /\ Dialect.inferRowOrderFromDates dates = Dialect.asc
  /\ Dialect.inferRowOrderFromDates dates <> Dialect.unknown.
Proof. vm_compute. repeat split; discriminate. Qed.

(** ** Row shaping *)

Module ShapeFacts.
Import Spec.

Lemma padRow_app (n : nat) (row : list jsstring) :
  padRow n row = row ++ repeat [] n.
Proof.
  revert row; induction n as [|n IH]; intros row; cbn [padRow repeat].
  - now rewrite app_nil_r.
  - rewrite IH, <- app_assoc. reflexivity.
Qed.

Lemma growHeader_length (n : nat) (header : list jsstring) :
  List.length (growHeader n header) = (List.length header + n)%nat.
Proof.
  revert header; induction n as [|n IH]; intros header; cbn [growHeader].
  - lia.
  - rewrite IH, length_app. cbn. lia.
Qed.

Lemma growHeader_prefix (n : nat) (header : list jsstring) :
  exists names, growHeader n header = header ++ names /\ List.length names = n.
Proof.
  revert header; induction n as [|n IH]; intros header; cbn [growHeader].
  - exists []. now rewrite app_nil_r.
  - destruct (IH (header ++ [js "Column_" ++ natToString (List.length header + 1)]))
      as (names & -> & Hlen).
    eexists (_ :: names). rewrite <- app_assoc. split; [reflexivity|].
    cbn. now rewrite Hlen.
Qed.

Lemma maxWidth_ge_start (rows : grid) (start : nat) :
  (start <= maxWidth start rows)%nat.
Proof.
  unfold maxWidth. revert start.
  induction rows as [|r rows IH]; intros start; cbn; [lia|].
  etransitivity; [|apply IH]. lia.
Qed.

Lemma maxWidth_ge_row (rows : grid) (start : nat) (r : list jsstring) :
  In r rows -> (List.length r <= maxWidth start rows)%nat.
Proof.
  unfold maxWidth. revert start.
  induction rows as [|r0 rows IH]; intros start [].
  - subst. cbn. etransitivity; [|apply (maxWidth_ge_start rows)]. lia.
  - cbn. now apply IH.
Qed.

Lemma maxWidth_widest (rows : grid) (start : nat) :
  maxWidth start rows = Nat.max start (widest rows).
Proof.
  unfold maxWidth. revert start.
  induction rows as [|r rows IH]; intros start; cbn [fold_left widest fold_right].
  - lia.
  - rewrite IH. fold (widest rows). lia.
Qed.

Lemma generatedNames_cons (from to : nat) :
  (from < to)%nat ->
  generatedNames from to
  = (js "Column_" ++ natToString (from + 1)) :: generatedNames (S from) to.
Proof.
  intros H. unfold generatedNames.
  replace (to - from)%nat with (S (to - S from)) by lia. reflexivity.
Qed.

Lemma growHeader_names (n : nat) : forall header : list jsstring,
  growHeader n header
  = header ++ generatedNames (List.length header) (List.length header + n).
Proof.
  induction n as [|n IH]; intros header; cbn [growHeader].
  - unfold generatedNames. rewrite Nat.add_0_r, Nat.sub_diag. cbn.
    now rewrite app_nil_r.
  - rewrite IH, length_app, <- app_assoc. cbn [List.length app].
    rewrite (generatedNames_cons (List.length header)) by lia.
    do 3 f_equal; lia.
Qed.

Lemma stripBom_length (header : list jsstring) :
  List.length (stripBom header) = List.length header.
Proof. destruct header; reflexivity. Qed.

(** The shaped grid, given the rows with content. *)
Lemma shapeRows_of_kept (rows : grid) (first : list jsstring) (data : grid) :
  List.filter hasContent rows = first :: data ->
  shapeRows rows
  = (stripBom first ++ generatedNames (List.length first) (widest (first :: data)))
    :: map (padTo (widest (first :: data))) data.
Proof.
  intros H. unfold shapeRows. rewrite H.
  rewrite growHeader_names, stripBom_length, maxWidth_widest.
  change (widest (first :: data)) with (Nat.max (List.length first) (widest data)).
  f_equal.
  - do 2 f_equal. lia.
  - apply map_ext. intros r. apply padRow_app.
Qed.

Lemma shapeRows_width (first : list jsstring) (data : grid) :
  Forall (fun r => List.length r = widest (first :: data))
    ((stripBom first ++ generatedNames (List.length first) (widest (first :: data)))
     :: map (padTo (widest (first :: data))) data).
Proof.
  set (w := widest (first :: data)).
  assert (Hfirst : (List.length first <= w)%nat) by (unfold w; cbn; lia).
  assert (Hdata : forall r, In r data -> (List.length r <= w)%nat).
  { unfold w. cbn [widest fold_right]. fold (widest data). clear.
    induction data as [|x data IH]; intros r []; subst; cbn [widest fold_right];
      fold (widest data); [lia|].
    specialize (IH r H). lia. }
  constructor.
  - rewrite length_app, stripBom_length. unfold generatedNames.
    rewrite List.length_map, length_seq. lia.
  - apply List.Forall_forall. intros r Hr.
    apply in_map_iff in Hr as (r0 & <- & Hin).
    unfold padTo. rewrite length_app, repeat_length.
    specialize (Hdata r0 Hin). lia.
Qed.

Lemma filter_blank (rows : grid) :
  Forall (fun r => hasContent r = false) rows -> List.filter hasContent rows = [].
Proof.
  induction 1 as [|r rows Hr _ IH]; cbn [List.filter]; [reflexivity|].
  now rewrite Hr.
Qed.

Lemma filter_content (rows : grid) :
  Forall (fun r => hasContent r = true) rows -> List.filter hasContent rows = rows.
Proof.
  induction 1 as [|r rows Hr _ IH]; cbn [List.filter]; [reflexivity|].
  now rewrite Hr, IH.
Qed.

End ShapeFacts.

(** C7, as the code has it: in a grid whose completely blank rows all come
    last, the first row becomes the header, with a leading byte-order mark
    stripped from its first cell and continued with the generated names up
    to the cell count of the widest row with content; the other rows with
    content follow in their order, each padded on the right with empty
    cells to that count; the blank trailing rows are removed; all rows of
    the result have that cell count. A grid of blank rows only is shaped to
    the empty grid. *)
Theorem shapeRows_rectangle_of_kept_rows
  (first : list jsstring) (body trailing : grid) :
  Forall (fun r => hasContent r = true) (first :: body) ->
  Forall (fun r => hasContent r = false) trailing ->
  let width := Spec.widest (first :: body) in
  shapeRows (first :: body ++ trailing)
  = (stripBom first ++ Spec.generatedNames (List.length first) width)
    :: map (Spec.padTo width) body
  /\ Forall (fun r => List.length r = width) (shapeRows (first :: body ++ trailing))
  /\ shapeRows trailing = [].
Proof.
  intros Hkept Hblank width.
  assert (Hfilter : List.filter hasContent (first :: body ++ trailing) = first :: body).
  { change (first :: body ++ trailing) with ((first :: body) ++ trailing).
    rewrite List.filter_app, (ShapeFacts.filter_content _ Hkept),
      (ShapeFacts.filter_blank _ Hblank).
    apply app_nil_r. }
  rewrite (ShapeFacts.shapeRows_of_kept _ _ _ Hfilter).
  split; [reflexivity|]. split; [apply ShapeFacts.shapeRows_width|].
  unfold shapeRows. now rewrite (ShapeFacts.filter_blank _ Hblank).
Qed.

(** C7 at a grid with a byte-order mark, a short header, a short row and a
    blank last row. *)
Lemma shapeRows_rectangle_of_kept_rows_witness :
  shapeRows [[65279%N :: js "Date"; js "Amount"];
             [js "2024-01-01"; js "5"; js "x"];
             [js "2024-01-02"];
             [js ""; js " "]]
  = [[js "Date"; js "Amount"; js "Column_3"];
     [js "2024-01-01"; js "5"; js "x"];
     [js "2024-01-02"; js ""; js ""]].
Proof.
  apply (shapeRows_rectangle_of_kept_rows
           [65279%N :: js "Date"; js "Amount"]
           [[js "2024-01-01"; js "5"; js "x"]; [js "2024-01-02"]]
           [[js ""; js " "]]);
    repeat constructor.
Defined.

(** C7, the claim as stated fails: a last row whose cells are all blank is
    removed by shaping, so that the shaped grid has one data row where the
    input has two. *)
Lemma shapeRows_drops_blank_row :
  let rows := [[js "Date"; js "Amount"]; [js "2024-01-01"; js "5"]; [js ""; js " "]] in
  List.length (tl rows) = 2
  /\ shapeRows rows = [[js "Date"; js "Amount"]; [js "2024-01-01"; js "5"]]
  /\ List.length (tl (shapeRows rows)) = 1.
Proof. vm_compute. repeat split. Qed.

(** ** The processing loop *)

Module LoopFacts.
Import Spec.

Lemma flt_zero_not_gt (a : number) : flt a zero = true -> fgt a zero = false.
Proof. destruct a as [[]|[]| |[] m e]; cbn; congruence. Qed.

(** What an iteration emits, and that it leaves the list of transactions to
    the push. *)
Lemma rowStep_emits host opts ix d ro st row st' tx :
  rowStep host opts ix d ro st row = (st', Some tx) ->
  feq (txAmount tx) zero = false
  /\ txType tx = (if fgt (txAmount tx) zero then Dialect.income else Dialect.expense)
  /\ txs st' = txs st.
Proof.
  unfold rowStep. intros H.
  repeat case_match; simplify_eq; cbn.
  all: repeat split; try reflexivity.
  all: cbn in *; try congruence; try (apply negb_true_iff; assumption).
Qed.

Lemma rowStep_keeps_txs host opts ix d ro st row :
  txs (fst (rowStep host opts ix d ro st row)) = txs st.
Proof.
  unfold rowStep. repeat case_match; simplify_eq; reflexivity.
Qed.

Lemma loopBody_txs host opts ix d ro st row :
  txs (loopBody host opts ix d ro st row)
  = txs st ++ olist (snd (rowStep host opts ix d ro st row)).
Proof.
  unfold loopBody.
  pose proof (rowStep_keeps_txs host opts ix d ro st row) as Hk.
  destruct (rowStep host opts ix d ro st row) as [st' [tx|]]; cbn in *.
  - now rewrite Hk.
  - now rewrite Hk, app_nil_r.
Qed.

Lemma emission_app_l host opts ix d ro l r st0 i :
  (i < List.length l)%nat ->
  emission host opts ix d ro (l ++ [r]) st0 i = emission host opts ix d ro l st0 i.
Proof.
  intros Hi. unfold emission.
  rewrite nth_error_app1 by assumption.
  rewrite firstn_app.
  replace (i - List.length l)%nat with 0%nat by lia.
  cbn [firstn]. now rewrite app_nil_r.
Qed.

Lemma emission_last host opts ix d ro l r st0 :
  emission host opts ix d ro (l ++ [r]) st0 (List.length l)
  = snd (rowStep host opts ix d ro (fold_left (loopBody host opts ix d ro) l st0) r).
Proof.
  unfold emission.
  rewrite nth_error_app2 by lia. rewrite Nat.sub_diag. cbn [nth_error].
  rewrite firstn_app, Nat.sub_diag, firstn_all. cbn [firstn].
  now rewrite app_nil_r.
Qed.

Lemma flat_map_ext_seq {A : Type} (f g : nat -> list A) (a n : nat) :
  (forall i, (a <= i < a + n)%nat -> f i = g i) ->
  flat_map f (seq a n) = flat_map g (seq a n).
Proof.
  revert a; induction n as [|n IH]; intros a H; cbn; [reflexivity|].
  rewrite H by lia. f_equal. apply IH. intros i Hi. apply H. lia.
Qed.

(** The transactions after the loop: those before it, then the emissions of
    the rows in their order. *)
Lemma fold_txs host opts ix d ro l st0 :
  txs (fold_left (loopBody host opts ix d ro) l st0)
  = txs st0 ++ flat_map (fun i => olist (emission host opts ix d ro l st0 i))
                        (seq 0 (List.length l)).
Proof.
  induction l as [|r l IH] using rev_ind.
  - cbn. now rewrite app_nil_r.
  - rewrite fold_left_app. cbn [fold_left].
    rewrite loopBody_txs, IH, length_app. cbn [List.length].
    rewrite Nat.add_1_r, seq_S, flat_map_app. cbn [flat_map Nat.add].
    rewrite emission_last, app_nil_r, <- app_assoc. f_equal. f_equal.
    apply flat_map_ext_seq. intros i Hi.
    rewrite emission_app_l by lia. reflexivity.
Qed.

Lemma fold_invariant host opts ix d ro (P : SanitizedTransaction -> Prop) l st0 :
  (forall st row st' tx, rowStep host opts ix d ro st row = (st', Some tx) -> P tx) ->
  Forall P (txs st0) ->
  Forall P (txs (fold_left (loopBody host opts ix d ro) l st0)).
Proof.
  intros Hstep. revert st0.
  induction l as [|row l IH]; intros st0 H0; cbn [fold_left]; [assumption|].
  apply IH. rewrite loopBody_txs. apply Forall_app. split; [assumption|].
  destruct (rowStep host opts ix d ro st0 row) as [st' [tx|]] eqn:E; cbn.
  - constructor; [|constructor]. eapply Hstep, E.
  - constructor.
Qed.

(** How [processRows] returns: the columns it found and the loop it ran. *)
Lemma processRows_Ok host opts inputRows data :
  processRows host opts inputRows = Ok data ->
  let rows := shapeRows inputRows in
  let ix := indicesOf (detectColumnsWithContext host rows) in
  exists d,
    dateIdx ix = Some d
    /\ detectedColumnsList (metadata data) = detectColumnsWithContext host rows
    /\ transactions data
       = txs (fold_left
                (loopBody host opts ix d
                   (Dialect.inferRowOrderFromDates
                      (map (fun r => parseDateString host (cell r d)) (tl rows))))
                (tl rows) (initialState opts))
    /\ directionStrategy (metadata data) = reportedStrategy ix rows.
Proof.
  intros H. cbv zeta. unfold processRows in H.
  set (rows := shapeRows inputRows) in *.
  set (ix := indicesOf (detectColumnsWithContext host rows)) in *.
  clearbody ix.
  destruct (List.length rows <? 2)%nat; [discriminate|].
  destruct (dateIdx ix) as [d|] eqn:Hd; [|discriminate].
  exists d. split; [reflexivity|].
  unfold reportedStrategy.
  destruct (amountIdx ix) eqn:Ha, (debitIdx ix) eqn:Hdb, (creditIdx ix) eqn:Hcr,
    (balanceIdx ix) eqn:Hb; try discriminate;
    destruct (typeIdx ix) eqn:Ht; destruct (hasSignedSample ix rows) eqn:Hs;
    injection H as <-; cbn; rewrite ?Hs; repeat split; reflexivity.
Qed.

Lemma filter_seq_sorted (p : nat -> bool) (a n : nat) :
  StronglySorted lt (List.filter p (seq a n)).
Proof.
  revert a; induction n as [|n IH]; intros a; cbn; [constructor|].
  destruct (p a); [|apply IH].
  constructor; [apply IH|].
  apply List.Forall_forall. intros x Hx.
  apply filter_In in Hx as [Hx _]. apply in_seq in Hx. lia.
Qed.

Lemma emissions_by_source {A : Type} (f : nat -> option A) (L : list nat) :
  Forall2 (fun i t => f i = Some t)
          (List.filter (fun i => bool_decide (is_Some (f i))) L)
          (flat_map (fun i => olist (f i)) L).
Proof.
  induction L as [|i L IH]; cbn; [constructor|].
  destruct (f i) as [t|] eqn:E; cbn.
  - constructor; [exact E | assumption].
  - assumption.
Qed.

End LoopFacts.

(** C1: every transaction that [processRows] returns has an amount other
    than zero, and its [type] is [income] when the amount is positive and
    [expense] when it is negative; a row that resolves to zero emits
    nothing. *)
Theorem processRows_amount_nonzero_type_matches_sign
  (hostDate : jsstring -> option jsstring) (options : AnonymizerOptions)
  (inputRows : grid) (data : SanitizedData) :
  processRows hostDate options inputRows = Ok data ->
  Forall Spec.signConsistent (transactions data).
Proof.
  intros H. apply LoopFacts.processRows_Ok in H as (d & _ & _ & -> & _).
  apply LoopFacts.fold_invariant; [|constructor].
  intros st row st' tx Hstep.
  apply LoopFacts.rowStep_emits in Hstep as (Hnz & Hty & _).
  split; [exact Hnz|]. rewrite Hty. split.
  - intros ->. reflexivity.
  - intros Hlt. now rewrite (LoopFacts.flt_zero_not_gt _ Hlt).
Qed.

(** C1 at the balance statement of the specification. *)
Lemma processRows_amount_nonzero_witness :
  exists data,
    processRows Spec.noHost defaultOptions Spec.balanceStatement = Ok data
    /\ Forall Spec.signConsistent (transactions data).
Proof.
  destruct (processRows Spec.noHost defaultOptions Spec.balanceStatement)
    as [data|m] eqn:E.
  - exists data. split; [reflexivity|].
    exact (processRows_amount_nonzero_type_matches_sign _ _ _ _ E).
  - exfalso. vm_compute in E. discriminate E.
Defined.

(** C10: the transactions that [processRows] returns are the emissions of
    the data rows taken in file order: there is a strictly increasing list
    of data-row indices, one per returned transaction, such that each
    transaction is what the loop pushed at its row, and every row at which
    the loop pushed is in the list. *)
Theorem processRows_emits_in_file_order
  (hostDate : jsstring -> option jsstring) (options : AnonymizerOptions)
  (inputRows : grid) (data : SanitizedData) :
  processRows hostDate options inputRows = Ok data ->
  exists sources : list nat,
    StronglySorted lt sources
    /\ Forall (fun i => (i < List.length (tl (shapeRows inputRows)))%nat) sources
    /\ Forall2 (fun i t => Spec.emittedAt hostDate options inputRows i = Some t)
               sources (transactions data)
    /\ (forall i, is_Some (Spec.emittedAt hostDate options inputRows i) -> In i sources).
Proof.
  intros H. apply LoopFacts.processRows_Ok in H as (d & Hd & _ & Htx & _).
  unfold Spec.emittedAt. rewrite Hd, Htx, LoopFacts.fold_txs. cbn [txs initialState app].
  set (emit := Spec.emission hostDate options _ d _ (tl (shapeRows inputRows))
                             (initialState options)).
  exists (List.filter (fun i => bool_decide (is_Some (emit i)))
                      (seq 0 (List.length (tl (shapeRows inputRows))))).
  split; [apply LoopFacts.filter_seq_sorted|].
  split; [|split].
  - apply List.Forall_forall. intros i Hi.
    apply filter_In in Hi as [Hi _]. apply in_seq in Hi. lia.
  - apply LoopFacts.emissions_by_source.
  - intros i Hi. apply filter_In. split.
    + apply in_seq. split; [lia|]. cbn.
      destruct Hi as [t Ht]. unfold emit, Spec.emission in Ht.
      destruct (nth_error (tl (shapeRows inputRows)) i) eqn:E; [|discriminate].
      apply nth_error_Some. congruence.
    + apply bool_decide_eq_true. exact Hi.
Qed.

(** C10 at the balance statement of the specification. *)
Lemma processRows_emits_in_file_order_witness :
  exists data sources,
    processRows Spec.noHost defaultOptions Spec.balanceStatement = Ok data
    /\ StronglySorted lt sources
    /\ Forall2 (fun i t => Spec.emittedAt Spec.noHost defaultOptions
                             Spec.balanceStatement i = Some t)
               sources (transactions data).
Proof.
  destruct (processRows Spec.noHost defaultOptions Spec.balanceStatement)
    as [data|m] eqn:E.
  - destruct (processRows_emits_in_file_order _ _ _ _ E)
      as (sources & Hs & _ & Hf & _).
    exists data, sources. split; [reflexivity|]. split; assumption.
  - exfalso. vm_compute in E. discriminate E.
Defined.

(** C5, as the code has it: the diagnostics report [balance] whenever a
    balance column is detected, whatever other columns there are; without a
    balance column they follow the order split, type, signed, fallback.
    [inferDirectionDecision] by itself puts [type] before [balance]. *)
Theorem directionStrategy_balance_overrides
  (hostDate : jsstring -> option jsstring) (options : AnonymizerOptions)
  (inputRows : grid) (data : SanitizedData) :
  processRows hostDate options inputRows = Ok data ->
  directionStrategy (metadata data)
  = Spec.reportedStrategy (indicesOf (detectedColumnsList (metadata data)))
                          (shapeRows inputRows)
  /\ (forall hasSigned hasBalance order rate,
        Dialect.strategy
          (Dialect.inferDirectionDecision false true hasSigned hasBalance order rate)
        = Dialect.type).
Proof.
  intros H. apply LoopFacts.processRows_Ok in H as (d & _ & -> & _ & ->).
  split; reflexivity.
Qed.

(** C5 at a statement with type, amount and balance columns. *)
Lemma directionStrategy_balance_overrides_witness :
  exists data,
    processRows Spec.noHost defaultOptions Spec.typedStatement = Ok data
    /\ directionStrategy (metadata data)
       = Spec.reportedStrategy (indicesOf (detectedColumnsList (metadata data)))
                               (shapeRows Spec.typedStatement).
Proof.
  destruct (processRows Spec.noHost defaultOptions Spec.typedStatement)
    as [data|m] eqn:E.
  - exists data. split; [reflexivity|].
    exact (proj1 (directionStrategy_balance_overrides _ _ _ _ E)).
  - exfalso. vm_compute in E. discriminate E.
Defined.

(** C5, the claim as stated fails: with a type column, an amount column
    and a balance column detected, the reported strategy is [balance]. *)
Lemma directionStrategy_type_and_balance_reports_balance :
  match processRows Spec.noHost defaultOptions Spec.typedStatement with
  | Ok data =>
      let ix := indicesOf (detectedColumnsList (metadata data)) in
      typeIdx ix = Some 2 /\ amountIdx ix = Some 3 /\ balanceIdx ix = Some 4
      /\ directionStrategy (metadata data) = Dialect.balance
      /\ directionStrategy (metadata data) <> Dialect.type
  | Throw _ => False
  end.
Proof. vm_compute. repeat split; discriminate. Qed.

(** ** The formatter *)

Module FormatFacts.

Lemma streq_eq (a b : jsstring) : streq a b = true <-> a = b.
Proof.
  revert b; induction a as [|x a IH]; intros [|y b]; cbn; split;
    try congruence; try discriminate.
  - intros H. apply andb_true_iff in H as [Hx Hab].
    apply N.eqb_eq in Hx. apply IH in Hab. congruence.
  - intros [= -> ->]. rewrite N.eqb_refl. now apply IH.
Qed.

Lemma streq_neq (a b : jsstring) : a <> b -> streq a b = false.
Proof.
  intros H. destruct (streq a b) eqn:E; [|reflexivity].
  now apply streq_eq in E.
Qed.

End FormatFacts.

(** C9: [formatData] returns the empty string when the data has no
    transactions, whatever the format and the options, and when the format
    is none of the five it renders. *)
Theorem formatData_empty_without_transactions_or_format
  (renderJson renderCsv renderMarkdown renderStoryline renderText
     : Format.RenderInput -> jsstring)
  (data : SanitizedData) (format : jsstring) (opts : option Format.FormatOptions) :
  transactions data = [] \/ ~ In format Spec.knownFormats ->
  Format.formatData renderJson renderCsv renderMarkdown renderStoryline renderText
                    (Some data) format opts = [].
Proof.
  intros [Hempty|Hfmt]; unfold Format.formatData.
  - now rewrite Hempty.
  - destruct (transactions data); [reflexivity|].
    unfold Spec.knownFormats in Hfmt. cbn [In] in Hfmt.
    rewrite !FormatFacts.streq_neq; [reflexivity|..]; intros ->; tauto.
Qed.

(** C9 at a result without transactions, asked for as CSV. *)
Lemma formatData_empty_witness :
  (transactions Spec.emptyResult = [] \/ ~ In (js "csv") Spec.knownFormats)
  /\ Format.formatData (fun _ => js "json") (fun _ => js "csv")
                       (fun _ => js "markdown") (fun _ => js "storyline")
                       (fun _ => js "text")
                       (Some Spec.emptyResult) (js "csv") None = [].
Proof.
  split; [left; reflexivity|].
  apply formatData_empty_without_transactions_or_format. left. reflexivity.
Defined.

(** ** The classifier and the host *)

Module ClassifierFacts.

Lemma fold_left_ext_in {A B : Type} (f g : A -> B -> A) (l : list B) (a : A) :
  (forall x b, In b l -> f x b = g x b) -> fold_left f l a = fold_left g l a.
Proof.
  revert a; induction l as [|b l IH]; intros a H; cbn; [reflexivity|].
  rewrite H by (now left). apply IH. intros x b' Hb. apply H. now right.
Qed.

Lemma nth_truthy_In (c : nat) (row : list jsstring) :
  truthy (nth c row []) = true -> In (nth c row []) row.
Proof.
  intros H. destruct (Nat.lt_ge_cases c (List.length row)) as [Hlt|Hge].
  - now apply nth_In.
  - rewrite nth_overflow in H by assumption. discriminate.
Qed.

(** The classifier consults the host only to know whether a sampled cell
    parses as a date. *)
Lemma detectColumns_host_ext host host' (rows : grid) :
  (forall row v, In row (Dialect.sampleOf rows) -> In v row ->
                 bool_decide (is_Some (dateOf host v))
                 = bool_decide (is_Some (dateOf host' v))) ->
  detectColumnsWithContext host rows = detectColumnsWithContext host' rows.
Proof.
  intros H.
  assert (Hstep : forall header c st row,
             In row (Dialect.sampleOf rows) ->
             sampleStep host header c st row = sampleStep host' header c st row).
  { intros header c st row Hrow. unfold sampleStep.
    destruct (truthy (nth c row [])) eqn:Hv; cbn [negb]; [|reflexivity].
    rewrite (H row _ Hrow (nth_truthy_In _ _ Hv)). reflexivity. }
  assert (Hcol : forall hs n hint c,
             analyseColumn host hs (Dialect.sampleOf rows) n hint c
             = analyseColumn host' hs (Dialect.sampleOf rows) n hint c).
  { intros hs n hint c. unfold analyseColumn.
    rewrite (fold_left_ext_in (sampleStep host (nth c hs []) c)
                              (sampleStep host' (nth c hs []) c)
                              (Dialect.sampleOf rows) _ (Hstep _ c)).
    reflexivity. }
  unfold detectColumnsWithContext.
  destruct (List.length rows <? 2)%nat; [reflexivity|].
  cbv zeta.
  rewrite (map_ext _ _ (Hcol (map toLowerCase (hd [] rows))
                             (List.length (hd [] rows))
                             (Dialect.detectTypeColumn rows))).
  reflexivity.
Qed.

End ClassifierFacts.

(** ** The failures of [processRows] *)

Module ThrowFacts.
Import Spec.

Lemma Col_eqb_eq (a b : Col.ColumnType) : Col.eqb a b = true <-> a = b.
Proof. destruct a, b; cbn; split; congruence. Qed.

Lemma findIndexFrom_None (t : Col.ColumnType) (i : nat) (l : list ColumnAnalysis) :
  findIndexFrom t i l = None <-> ~ classified t l.
Proof.
  revert i; induction l as [|a l IH]; intros i; cbn.
  - split; [intros _ (c & [] & _)|reflexivity].
  - destruct (Col.eqb (columnType a) t) eqn:E.
    + apply Col_eqb_eq in E. split; [discriminate|].
      intros H. exfalso. apply H. exists a. split; [now left|assumption].
    + rewrite IH. split.
      * intros H (c & [<-|Hin] & Hc).
        -- apply Col_eqb_eq in Hc. congruence.
        -- apply H. now exists c.
      * intros H (c & Hin & Hc). apply H. exists c. split; [now right|assumption].
Qed.

Lemma findIndex_None (t : Col.ColumnType) (l : list ColumnAnalysis) :
  findIndex t l = None <-> ~ classified t l.
Proof. apply findIndexFrom_None. Qed.

Lemma findIndex_Some_classified (t : Col.ColumnType) (l : list ColumnAnalysis) (d : nat) :
  findIndex t l = Some d -> classified t l.
Proof.
  unfold findIndex. generalize 0. induction l as [|a l IH]; intros i; cbn; [discriminate|].
  destruct (Col.eqb (columnType a) t) eqn:E.
  - intros _. exists a. split; [now left|now apply Col_eqb_eq].
  - intros H. destruct (IH _ H) as (c & Hin & Hc). exists c. split; [now right|assumption].
Qed.

Lemma processRows_few_rows host opts inputRows :
  (List.length (shapeRows inputRows) < 2)%nat ->
  processRows host opts inputRows = Throw NOT_ENOUGH_DATA.
Proof.
  intros H. unfold processRows.
  apply Nat.ltb_lt in H. now rewrite H.
Qed.

Lemma processRows_no_date host opts inputRows :
  (2 <= List.length (shapeRows inputRows))%nat ->
  findIndex Col.date (detectColumnsWithContext host (shapeRows inputRows)) = None ->
  processRows host opts inputRows
  = Throw (noDateMessage (detectColumnsWithContext host (shapeRows inputRows))).
Proof.
  intros H Hd. unfold processRows.
  apply Nat.ltb_ge in H. rewrite H. cbv zeta.
  unfold indicesOf at 1. cbn [dateIdx]. now rewrite Hd.
Qed.

Lemma processRows_no_money host opts inputRows d :
  (2 <= List.length (shapeRows inputRows))%nat ->
  let columns := detectColumnsWithContext host (shapeRows inputRows) in
  findIndex Col.date columns = Some d ->
  findIndex Col.amount columns = None -> findIndex Col.debit columns = None ->
  findIndex Col.credit columns = None -> findIndex Col.balance columns = None ->
  processRows host opts inputRows = Throw (noMoneyMessage columns).
Proof.
  intros H columns Hd Ha Hdb Hcr Hb. unfold processRows.
  apply Nat.ltb_ge in H. rewrite H. cbv zeta. fold columns.
  unfold indicesOf. cbn [dateIdx amountIdx debitIdx creditIdx balanceIdx].
  now rewrite Hd, Ha, Hdb, Hcr, Hb.
Qed.

Lemma processRows_returns host opts inputRows d :
  (2 <= List.length (shapeRows inputRows))%nat ->
  let columns := detectColumnsWithContext host (shapeRows inputRows) in
  findIndex Col.date columns = Some d ->
  ~ (findIndex Col.amount columns = None /\ findIndex Col.debit columns = None
     /\ findIndex Col.credit columns = None /\ findIndex Col.balance columns = None) ->
  exists data, processRows host opts inputRows = Ok data.
Proof.
  intros H columns Hd Hm. unfold processRows.
  apply Nat.ltb_ge in H. rewrite H. cbv zeta. fold columns.
  unfold indicesOf. cbn [dateIdx amountIdx debitIdx creditIdx balanceIdx].
  rewrite Hd.
  destruct (findIndex Col.amount columns), (findIndex Col.debit columns),
    (findIndex Col.credit columns), (findIndex Col.balance columns);
    try (eexists; reflexivity).
  exfalso. apply Hm. repeat split.
Qed.

Lemma startsWith_app (p s : jsstring) : startsWith p (p ++ s) = true.
Proof. induction p as [|x p IH]; cbn; [reflexivity|]. now rewrite N.eqb_refl. Qed.

Lemma includes_app (p a b : jsstring) : includes p (a ++ p ++ b) = true.
Proof.
  induction a as [|x a IH].
  - cbn [app]. destruct (p ++ b) eqn:E; cbn; rewrite <- ?E, startsWith_app; reflexivity.
  - cbn [app includes]. rewrite IH. apply orb_true_r.
Qed.

Lemma includes_prefix (p b : jsstring) : includes p (p ++ b) = true.
Proof. apply (includes_app p [] b). Qed.

Lemma includes_skip (p a s : jsstring) :
  includes p s = true -> includes p (a ++ s) = true.
Proof.
  intros H. induction a as [|x a IH]; [exact H|].
  cbn [app includes]. rewrite IH. apply orb_true_r.
Qed.

Lemma noDateMessage_names_date (columns : list ColumnAnalysis) :
  includes (js "We couldn't find a Date column.") (noDateMessage columns) = true.
Proof.
  unfold noDateMessage.
  change (js "We couldn't find a Date column. ")
    with (js "We couldn't find a Date column." ++ js " ").
  rewrite <- !app_assoc. apply includes_app.
Qed.

Lemma noMoneyMessage_names_money (columns : list ColumnAnalysis) :
  includes (js "We couldn't find any monetary value columns (Amount, Debit/Credit, or Balance).")
           (noMoneyMessage columns) = true.
Proof.
  unfold noMoneyMessage.
  change (js "We couldn't find any monetary value columns (Amount, Debit/Credit, or Balance). ")
    with (js "We couldn't find any monetary value columns (Amount, Debit/Credit, or Balance)." ++ js " ").
  rewrite <- !app_assoc. apply includes_app.
Qed.

(** The columns of the missing-date input, whatever the host makes of its
    two cells. *)
Lemma coffee_columns host :
  map columnType (detectColumnsWithContext host (shapeRows coffeeStatement))
  = [Col.description; Col.balance].
Proof.
  set (b1 := bool_decide (is_Some (dateOf host (js "Coffee")))).
  set (b2 := bool_decide (is_Some (dateOf host (js "4.50")))).
  rewrite (ClassifierFacts.detectColumns_host_ext host
             (hostOfTwo (js "Coffee") (js "4.50") b1 b2)).
  - destruct b1, b2; vm_compute; reflexivity.
  - intros row v Hrow Hv.
    change (Dialect.sampleOf (shapeRows coffeeStatement))
      with [[js "Coffee"; js "4.50"]] in Hrow.
    destruct Hrow as [<-|[]].
    destruct Hv as [<-|[<-|[]]].
    + fold b1. destruct b1; vm_compute; reflexivity.
    + fold b2. destruct b2; vm_compute; reflexivity.
Qed.

End ThrowFacts.

(** C2: [processRows] throws exactly when the shaped grid has fewer than two
    rows, or no column is classified [date], or none of amount, debit,
    credit and balance is classified; the message of the second case says
    that no Date column was found and that of the third that no monetary
    column (Amount, Debit/Credit, or Balance) was found; on the missing-date
    input of the specification it throws the message naming the Date column,
    on every host and for every option setting. *)
Theorem processRows_throws_exactly_when_roles_missing
  (hostDate : jsstring -> option jsstring) (options : AnonymizerOptions)
  (inputRows : grid) :
  let rows := shapeRows inputRows in
  let columns := detectColumnsWithContext hostDate rows in
  ((exists message, processRows hostDate options inputRows = Throw message)
   <-> ((List.length rows < 2)%nat \/ ~ Spec.classified Col.date columns
        \/ Spec.noMonetaryColumn columns))
  /\ (forall message,
        processRows hostDate options inputRows = Throw message ->
        ((List.length rows < 2)%nat /\ message = NOT_ENOUGH_DATA)
        \/ ((2 <= List.length rows)%nat /\ ~ Spec.classified Col.date columns
            /\ includes (js "We couldn't find a Date column.") message = true)
        \/ ((2 <= List.length rows)%nat /\ Spec.classified Col.date columns
            /\ Spec.noMonetaryColumn columns
            /\ includes (js "We couldn't find any monetary value columns (Amount, Debit/Credit, or Balance).")
                        message = true))
  /\ (exists message,
        processRows hostDate options Spec.coffeeStatement = Throw message
        /\ includes (js "We couldn't find a Date column.") message = true
        /\ includes (js "Date") message = true).
Proof.
  intros rows columns. subst columns rows.
  set (rows := shapeRows inputRows).
  set (columns := detectColumnsWithContext hostDate rows).
  assert (Hcases :
    ((List.length rows < 2)%nat
     /\ processRows hostDate options inputRows = Throw NOT_ENOUGH_DATA)
    \/ ((2 <= List.length rows)%nat /\ ~ Spec.classified Col.date columns
        /\ processRows hostDate options inputRows = Throw (noDateMessage columns))
    \/ ((2 <= List.length rows)%nat /\ Spec.classified Col.date columns
        /\ Spec.noMonetaryColumn columns
        /\ processRows hostDate options inputRows = Throw (noMoneyMessage columns))
    \/ ((2 <= List.length rows)%nat /\ Spec.classified Col.date columns
        /\ ~ Spec.noMonetaryColumn columns
        /\ exists data, processRows hostDate options inputRows = Ok data)).
  { destruct (Nat.lt_ge_cases (List.length rows) 2) as [Hlt|Hge].
    { left. split; [assumption|]. now apply ThrowFacts.processRows_few_rows. }
    right.
    destruct (findIndex Col.date columns) as [d|] eqn:Hd.
    2:{ left. split; [assumption|]. split.
        - now apply ThrowFacts.findIndex_None.
        - now apply ThrowFacts.processRows_no_date. }
    right.
    assert (Hdate : Spec.classified Col.date columns).
    { exact (ThrowFacts.findIndex_Some_classified _ _ _ Hd). }
    destruct (findIndex Col.amount columns) eqn:Ha;
      [|destruct (findIndex Col.debit columns) eqn:Hdb;
        [|destruct (findIndex Col.credit columns) eqn:Hcr;
          [|destruct (findIndex Col.balance columns) eqn:Hb]]].
    5:{ left. split; [assumption|]. split; [assumption|]. split.
        - repeat split; now apply ThrowFacts.findIndex_None.
        - now apply (ThrowFacts.processRows_no_money hostDate options inputRows d). }
    all: right; split; [assumption|]; split; [assumption|]; split;
      [intros (H1 & H2 & H3 & H4);
       apply ThrowFacts.findIndex_None in H1, H2, H3, H4; congruence
      |apply (ThrowFacts.processRows_returns hostDate options inputRows d);
       [assumption|assumption
       |intros (H1 & H2 & H3 & H4); fold rows in H1, H2, H3, H4;
        fold columns in H1, H2, H3, H4; congruence]]. }
  split; [|split].
  - split.
    + intros (message & Hm).
      destruct Hcases as [(H & _)|[(_ & H & _)|[(_ & _ & H & _)|(_ & _ & _ & data & H)]]];
        [now left|right; now left|right; now right|congruence].
    + intros [H|[H|H]];
        destruct Hcases as [(H1 & E)|[(_ & H1 & E)|[(_ & _ & H1 & E)|(H0 & H1 & H2 & _)]]];
        try (eexists; exact E); try lia; tauto.
  - intros message Hm.
    destruct Hcases as [(H & E)|[(H0 & H & E)|[(H0 & H1 & H & E)|(_ & _ & _ & data & E)]]];
      rewrite E in Hm; try discriminate; injection Hm as <-.
    + left. now split.
    + right. left. split; [assumption|]. split; [assumption|].
      apply ThrowFacts.noDateMessage_names_date.
    + right. right. split; [assumption|]. split; [assumption|]. split; [assumption|].
      apply ThrowFacts.noMoneyMessage_names_money.
  - eexists. split; [|split].
    + apply ThrowFacts.processRows_no_date.
      * vm_compute. lia.
      * apply ThrowFacts.findIndex_None. intros (c & Hin & Hc).
        apply (in_map columnType) in Hin.
        rewrite ThrowFacts.coffee_columns, Hc in Hin.
        destruct Hin as [|[|[]]]; discriminate.
    + apply ThrowFacts.noDateMessage_names_date.
    + unfold noDateMessage.
      change (js "We couldn't find a Date column. ")
        with (js "We couldn't find a " ++ js "Date" ++ js " column. ").
      rewrite <- !app_assoc.
      do 2 apply ThrowFacts.includes_skip. apply ThrowFacts.includes_prefix.
Qed.

(** ** Balance reconciliation *)

Module BalanceFacts.
Import Spec.

(** The skip tally does not influence what the balance block resolves. *)
Lemma balanceDelta_skips ro desc bal last recent sk sk' :
  fst (balanceDelta ro desc bal last recent sk)
  = fst (balanceDelta ro desc bal last recent sk').
Proof. unfold balanceDelta. repeat case_match; reflexivity. Qed.

(** Nor does the description, as long as it is no summary row. *)
Lemma balanceDelta_plain ro desc bal last recent sk :
  Regex.test true BALANCE_SUMMARY desc = false ->
  balanceDelta ro desc bal last recent sk = balanceDelta ro [] bal last recent sk.
Proof.
  intros H. unfold balanceDelta. rewrite H.
  change (Regex.test true BALANCE_SUMMARY []) with false. reflexivity.
Qed.

Lemma explicitAmount_none ix row res :
  amountIdx ix = None -> debitIdx ix = None -> creditIdx ix = None ->
  explicitAmount ix row res = res.
Proof.
  intros Ha Hd Hc. unfold explicitAmount.
  destruct res as [[a t] i]. rewrite Hd. cbn. now rewrite Ha.
Qed.

(** One iteration of the loop, seen through [view], for a statement whose
    only monetary column is the balance. *)
Lemma loopBody_view host opts ix d b ro st row bal c s :
  balanceIdx ix = Some b ->
  amountIdx ix = None -> debitIdx ix = None -> creditIdx ix = None ->
  (2 <= List.length row)%nat ->
  parseDateString host (cell row d) = Some (c :: s) ->
  Regex.test true BALANCE_SUMMARY (rawDescription ix row) = false ->
  cleanCurrency (cell row b) = bal ->
  view (loopBody host opts ix d ro st row) = balanceStep ro bal (view st).
Proof.
  intros Hb Ha Hd Hc Hlen Hdate Hsum Hbal.
  unfold loopBody, rowStep, view, balanceStep.
  apply Nat.ltb_ge in Hlen. rewrite Hlen, Hdate, Hb, Hbal.
  unfold rawDescription in Hsum.
  destruct (sanitizeDescription opts _ _) as [cleanDesc rep].
  destruct (normalizeMerchant opts cleanDesc rep) as [merchant rep'].
  rewrite (balanceDelta_plain _ _ _ _ _ _ Hsum).
  pose proof (balanceDelta_skips ro [] bal (lastValidBalance st)
                (recentAbsDeltas st) (skips st) empty) as Hsk.
  destruct (balanceDelta ro [] bal (lastValidBalance st) (recentAbsDeltas st) (skips st))
    as [[[res last] recent] sk1].
  destruct (balanceDelta ro [] bal (lastValidBalance st) (recentAbsDeltas st) empty)
    as [[[res' last'] recent'] sk2].
  cbn in Hsk. injection Hsk as <- <- <-.
  rewrite (explicitAmount_none _ _ _ Ha Hd Hc).
  destruct res as [[amount ty] inference].
  destruct (negb (feq amount zero)); cbn; [|now rewrite app_nil_r].
  now rewrite map_app.
Qed.

Lemma findIndexFrom_Some t i l j :
  findIndexFrom t i l = Some j ->
  exists a, nth_error l (j - i) = Some a /\ columnType a = t /\ (i <= j)%nat.
Proof.
  revert i; induction l as [|a l IH]; intros i; cbn; [discriminate|].
  destruct (Col.eqb (columnType a) t) eqn:E.
  - intros [= <-]. exists a. rewrite Nat.sub_diag.
    split; [reflexivity|]. split; [now apply ThrowFacts.Col_eqb_eq|lia].
  - intros H. destruct (IH _ H) as (a' & Hn & Ht & Hle).
    exists a'. replace (j - i)%nat with (S (j - S i)) by lia.
    split; [exact Hn|]. split; [exact Ht|lia].
Qed.

(** Two roles are never found at the same index. *)
Lemma findIndex_distinct t1 t2 l i j :
  t1 <> t2 -> findIndex t1 l = Some i -> findIndex t2 l = Some j -> i <> j.
Proof.
  intros Hne H1 H2 ->.
  apply findIndexFrom_Some in H1 as (a1 & Hn1 & <- & _).
  apply findIndexFrom_Some in H2 as (a2 & Hn2 & <- & _).
  congruence.
Qed.

Lemma cell_truthy_lt row i : truthy (cell row i) = true -> (i < List.length row)%nat.
Proof.
  unfold cell. intros H.
  destruct (Nat.lt_ge_cases i (List.length row)) as [Hlt|Hge]; [assumption|].
  rewrite nth_overflow in H by assumption. discriminate.
Qed.

Lemma parseDateString_truthy host v r : parseDateString host v = Some r -> truthy v = true.
Proof. unfold parseDateString. destruct (truthy v); [reflexivity|discriminate]. Qed.

Lemma cleanCurrency_truthy v : cleanCurrency v <> zero -> truthy v = true.
Proof. unfold cleanCurrency. destruct (truthy v); [reflexivity|]. cbn. congruence. Qed.

Lemma keepTruthy_Some (dates : list jsstring) :
  Forall (fun s => truthy s = true) dates ->
  Dialect.keepTruthy (map Some dates) = dates.
Proof.
  induction 1 as [|s dates Hs _ IH]; [reflexivity|].
  cbn. destruct s; [discriminate|]. cbn. f_equal. exact IH.
Qed.

(** Dates of which no adjacent pair falls are never read as descending. *)
Lemma ascending_not_desc (dates : list jsstring) :
  Forall (fun s => truthy s = true) dates ->
  RowOrderFacts.falling dates = 0 ->
  Dialect.inferRowOrderFromDates (map Some dates) <> Dialect.desc.
Proof.
  intros Ht Hf. unfold Dialect.inferRowOrderFromDates.
  rewrite (keepTruthy_Some _ Ht).
  destruct (List.length dates <? 3)%nat; [discriminate|].
  destruct dates as [|d0 rest]; [discriminate|].
  rewrite RowOrderFacts.countPairs_counts, Hf. cbn [Nat.add].
  destruct (_ && _); [discriminate|]. cbn. discriminate.
Qed.

Lemma five_balances (ro : Dialect.RowOrder) :
  ro <> Dialect.desc ->
  fst (fst (Spec.balanceStep ro (lit "130")
             (Spec.balanceStep ro (lit "80")
               (Spec.balanceStep ro (lit "80")
                 (Spec.balanceStep ro (lit "100")
                   (Spec.balanceStep ro (lit "100") ([], None, [])))))))
  = [(lit "-20", Dialect.expense, Inference.derived_from_balance);
     (lit "50", Dialect.income, Inference.derived_from_balance)].
Proof. intros H. destruct ro; [| congruence |]; vm_compute; reflexivity. Qed.

Lemma row_view host opts ix d b ro st (r : list jsstring) bal :
  balanceIdx ix = Some b ->
  amountIdx ix = None -> debitIdx ix = None -> creditIdx ix = None ->
  d <> b ->
  is_Some (parseDateString host (cell r d)) ->
  (forall date, parseDateString host (cell r d) = Some date -> truthy date = true) ->
  Regex.test true BALANCE_SUMMARY (Spec.rawDescription ix r) = false ->
  cleanCurrency (cell r b) = bal -> bal <> zero ->
  Spec.view (loopBody host opts ix d ro st r) = Spec.balanceStep ro bal (Spec.view st).
Proof.
  intros Hb Ha Hdb Hcr Hne [date Hp] Htr Hsum Hval Hnz.
  specialize (Htr _ Hp). destruct date as [|c s]; [discriminate|].
  apply (loopBody_view host opts ix d b ro st r bal c s);
    try assumption.
  pose proof (cell_truthy_lt r d
                (parseDateString_truthy _ _ _ Hp)).
  assert (truthy (cell r b) = true)
    by (apply cleanCurrency_truthy; congruence).
  pose proof (cell_truthy_lt r b H0). lia.
Qed.

Lemma view_txs (st : LoopState) :
  map (fun t => (txAmount t, txType t, inferenceSource t)) (txs st)
  = fst (fst (Spec.view st)).
Proof. reflexivity. Qed.

Lemma view_initial opts : Spec.view (initialState opts) = ([], None, []).
Proof. reflexivity. Qed.

Lemma fold_left_five {A B : Type} (f : A -> B -> A) (a b c d e : B) (s : A) :
  fold_left f [a; b; c; d; e] s = f (f (f (f (f s a) b) c) d) e.
Proof. reflexivity. Qed.

End BalanceFacts.

(** C3: a statement of five data rows whose balance column reads 100, 100,
    80, 80, 130, with parseable dates of which none falls below its
    predecessor, no summary vocabulary in the descriptions and no other
    monetary column, yields exactly two transactions: -20 as an expense and
    +50 as income, both derived from the balance. *)
Theorem processRows_reconciles_balances
  (hostDate : jsstring -> option jsstring) (options : AnonymizerOptions)
  (inputRows : grid) (header r1 r2 r3 r4 r5 : list jsstring) (d b : nat)
  (dates : list jsstring) :
  shapeRows inputRows = [header; r1; r2; r3; r4; r5] ->
  let ix := indicesOf (detectColumnsWithContext hostDate (shapeRows inputRows)) in
  dateIdx ix = Some d ->
  balanceIdx ix = Some b ->
  amountIdx ix = None -> debitIdx ix = None -> creditIdx ix = None ->
  map (fun r => parseDateString hostDate (cell r d)) [r1; r2; r3; r4; r5]
  = map Some dates ->
  Forall (fun s => truthy s = true) dates ->
  RowOrderFacts.falling dates = 0 ->
  Forall (fun r => Regex.test true BALANCE_SUMMARY (Spec.rawDescription ix r) = false)
         [r1; r2; r3; r4; r5] ->
  map (fun r => cleanCurrency (cell r b)) [r1; r2; r3; r4; r5]
  = [lit "100"; lit "100"; lit "80"; lit "80"; lit "130"] ->
  exists data,
    processRows hostDate options inputRows = Ok data
    /\ map (fun t => (txAmount t, txType t, inferenceSource t)) (transactions data)
       = [(lit "-20", Dialect.expense, Inference.derived_from_balance);
          (lit "50", Dialect.income, Inference.derived_from_balance)].
Proof.
  intros Hshape ix Hd Hb Ha Hdb Hcr Hdates Htruthy Hasc Hsum Hbal.
  assert (Hlen : (2 <= List.length (shapeRows inputRows))%nat)
    by (rewrite Hshape; cbn; lia).
  destruct (ThrowFacts.processRows_returns hostDate options inputRows d Hlen Hd)
    as [data Hdata].
  { intros (_ & _ & _ & Hnone). unfold ix, indicesOf in Hb. cbn in Hb. congruence. }
  exists data. split; [exact Hdata|].
  apply LoopFacts.processRows_Ok in Hdata as (d' & Hd' & _ & Htx & _).
  fold ix in Hd', Htx. assert (d' = d) as -> by congruence.
  rewrite Hshape in Htx. cbn [tl] in Htx. rewrite Hdates in Htx.
  pose proof (BalanceFacts.ascending_not_desc dates Htruthy Hasc) as Hro.
  assert (Hdb' : d <> b).
  { apply (BalanceFacts.findIndex_distinct Col.date Col.balance
             (detectColumnsWithContext hostDate (shapeRows inputRows)));
      [discriminate|exact Hd|exact Hb]. }
  clearbody ix.
  revert Htx Hro. generalize (Dialect.inferRowOrderFromDates (map Some dates)).
  intros ro Htx Hro.
  assert (Hparse : Forall (fun r => is_Some (parseDateString hostDate (cell r d))
                      /\ forall date, parseDateString hostDate (cell r d) = Some date ->
                                      truthy date = true) [r1; r2; r3; r4; r5]).
  { apply List.Forall_forall. intros r Hin.
    apply (in_map (fun r => parseDateString hostDate (cell r d))) in Hin.
    rewrite Hdates in Hin. apply in_map_iff in Hin as (date & Hdate & Hdin).
    rewrite List.Forall_forall in Htruthy. specialize (Htruthy _ Hdin).
    rewrite <- Hdate. split; [eauto|]. now intros ? [= <-]. }
  assert (Hnz : Forall (fun x => x <> zero)
                  [lit "100"; lit "100"; lit "80"; lit "80"; lit "130"])
    by (repeat constructor; vm_compute; discriminate).
  rewrite Htx, BalanceFacts.view_txs, BalanceFacts.fold_left_five.
  injection Hbal as H1 H2 H3 H4 H5.
  inversion Hparse as [|? ? [P1 T1] Hp2]; subst.
  inversion Hp2 as [|? ? [P2 T2] Hp3]; subst.
  inversion Hp3 as [|? ? [P3 T3] Hp4]; subst.
  inversion Hp4 as [|? ? [P4 T4] Hp5]; subst.
  inversion Hp5 as [|? ? [P5 T5] _]; subst.
  inversion Hsum as [|? ? S1 Hs2]; subst.
  inversion Hs2 as [|? ? S2 Hs3]; subst.
  inversion Hs3 as [|? ? S3 Hs4]; subst.
  inversion Hs4 as [|? ? S4 Hs5]; subst.
  inversion Hs5 as [|? ? S5 _]; subst.
  inversion Hnz as [|? ? N1 Hn2]; subst.
  inversion Hn2 as [|? ? N2 Hn3]; subst.
  inversion Hn3 as [|? ? N3 Hn4]; subst.
  inversion Hn4 as [|? ? N4 Hn5]; subst.
  inversion Hn5 as [|? ? N5 _]; subst.
  rewrite (BalanceFacts.row_view hostDate options ix d b ro _ r5 _ Hb Ha Hdb Hcr Hdb' P5 T5 S5 H5 N5).
  rewrite (BalanceFacts.row_view hostDate options ix d b ro _ r4 _ Hb Ha Hdb Hcr Hdb' P4 T4 S4 H4 N4).
  rewrite (BalanceFacts.row_view hostDate options ix d b ro _ r3 _ Hb Ha Hdb Hcr Hdb' P3 T3 S3 H3 N3).
  rewrite (BalanceFacts.row_view hostDate options ix d b ro _ r2 _ Hb Ha Hdb Hcr Hdb' P2 T2 S2 H2 N2).
  rewrite (BalanceFacts.row_view hostDate options ix d b ro _ r1 _ Hb Ha Hdb Hcr Hdb' P1 T1 S1 H1 N1).
  rewrite BalanceFacts.view_initial. exact (BalanceFacts.five_balances ro Hro).
Qed.

(** C3 at the balance statement of the specification, on a host that reads
    only the date-only form. *)
Lemma processRows_reconciles_balances_witness :
  exists data,
    processRows Spec.noHost defaultOptions Spec.balanceStatement = Ok data
    /\ map (fun t => (txAmount t, txType t, inferenceSource t)) (transactions data)
       = [(lit "-20", Dialect.expense, Inference.derived_from_balance);
          (lit "50", Dialect.income, Inference.derived_from_balance)].
Proof.
  apply (processRows_reconciles_balances Spec.noHost defaultOptions
           Spec.balanceStatement
           (map js ["Date"; "Description"; "Balance"]%string)
           (map js ["2024-01-01"; "Coffee shop"; "100"]%string)
           (map js ["2024-01-02"; "Coffee shop"; "100"]%string)
           (map js ["2024-01-03"; "Coffee shop"; "80"]%string)
           (map js ["2024-01-04"; "Coffee shop"; "80"]%string)
           (map js ["2024-01-05"; "Coffee shop"; "130"]%string)
           0 2
           (map js ["2024-01-01"; "2024-01-02"; "2024-01-03"; "2024-01-04";
                    "2024-01-05"]%string)).
  all: try (vm_compute; reflexivity).
  all: repeat constructor.
Defined.

(** ** Code units *)

Module CharFacts.

Ltac to_prop :=
  repeat first
    [ rewrite orb_true_iff | rewrite andb_true_iff | rewrite orb_false_iff
    | rewrite andb_false_iff | rewrite N.leb_le | rewrite N.leb_gt
    | rewrite N.eqb_eq | rewrite N.eqb_neq ].

Ltac to_prop_in H :=
  repeat first
    [ rewrite orb_true_iff in H | rewrite andb_true_iff in H
    | rewrite orb_false_iff in H | rewrite andb_false_iff in H
    | rewrite N.leb_le in H | rewrite N.leb_gt in H
    | rewrite N.eqb_eq in H | rewrite N.eqb_neq in H ].

Lemma word_range (c : N) : isWordChar c = true -> (48 <= c <= 122)%N.
Proof.
  unfold isWordChar, isDigit, isUpper, isLower. intros H. to_prop_in H. lia.
Qed.

Lemma range_not_space (c : N) : (33 <= c <= 159)%N -> isSpace c = false.
Proof. intros H. unfold isSpace. to_prop. lia. Qed.

Lemma space_not_word (c : N) : isSpace c = true -> isWordChar c = false.
Proof.
  intros Hs. destruct (isWordChar c) eqn:Hw; [|reflexivity].
  apply word_range in Hw. rewrite range_not_space in Hs by lia. discriminate.
Qed.

Lemma upper_range (c : N) : isUpper c = true <-> (65 <= c <= 90)%N.
Proof. unfold isUpper. to_prop. lia. Qed.

Lemma lower_range (c : N) : isLower c = true <-> (97 <= c <= 122)%N.
Proof. unfold isLower. to_prop. lia. Qed.

Lemma isUpper_false (c : N) : isUpper c = false <-> (c < 65 \/ 90 < c)%N.
Proof. unfold isUpper. to_prop. lia. Qed.

Lemma isLower_false (c : N) : isLower c = false <-> (c < 97 \/ 122 < c)%N.
Proof. unfold isLower. to_prop. lia. Qed.

Lemma toLowerChar_idem (c : N) : toLowerChar (toLowerChar c) = toLowerChar c.
Proof.
  unfold toLowerChar. destruct (isUpper c) eqn:H; [|now rewrite H].
  apply upper_range in H.
  replace (isUpper (c + 32)) with false; [reflexivity|].
  symmetry. apply isUpper_false. lia.
Qed.

Lemma toUpperChar_idem (c : N) : toUpperChar (toUpperChar c) = toUpperChar c.
Proof.
  unfold toUpperChar. destruct (isLower c) eqn:H; [|now rewrite H].
  apply lower_range in H.
  replace (isLower (c - 32)) with false; [reflexivity|].
  symmetry. apply isLower_false. lia.
Qed.

Lemma toLowerChar_space (c : N) : isSpace (toLowerChar c) = isSpace c.
Proof.
  unfold toLowerChar. destruct (isUpper c) eqn:H; [|reflexivity].
  apply upper_range in H. rewrite !range_not_space by lia. reflexivity.
Qed.

Lemma toUpperChar_space (c : N) : isSpace (toUpperChar c) = isSpace c.
Proof.
  unfold toUpperChar. destruct (isLower c) eqn:H; [|reflexivity].
  apply lower_range in H. rewrite !range_not_space by lia. reflexivity.
Qed.

Lemma toUpperChar_word (c : N) : isWordChar c = true -> isWordChar (toUpperChar c) = true.
Proof.
  unfold toUpperChar. destruct (isLower c) eqn:H; [|trivial].
  intros _. apply lower_range in H.
  unfold isWordChar. replace (isUpper (c - 32)) with true; [now rewrite orb_true_r|].
  symmetry. apply upper_range. lia.
Qed.

End CharFacts.

(** ** The matcher on the patterns of the sanitizer *)

Module RegexFacts.
Import Regex Spec.

(** Without a match a global replacement returns its subject. *)
Lemma replaceGo_no_match ic r f pre idx rest :
  searchFrom ic r pre idx rest = None ->
  replaceGo ic r f pre idx 0 rest = rest.
Proof.
  revert pre idx; induction rest as [|c t IH]; intros pre idx; cbn.
  - destruct (matchAt ic r _); [discriminate|reflexivity].
  - destruct (matchAt ic r _); [discriminate|].
    intros H. now rewrite IH.
Qed.

Lemma replaceAll_no_match ic r by_ s :
  test ic r s = false -> replaceAll ic r by_ s = s.
Proof.
  unfold test, replaceAll, replaceAllWith. intros H.
  apply replaceGo_no_match. destruct (searchFrom ic r None 0 s); [discriminate|reflexivity].
Qed.

Lemma replaceFirst_no_match ic r by_ s :
  test ic r s = false -> replaceFirst ic r by_ s = s.
Proof.
  unfold test, replaceFirst. now destruct (searchFrom ic r None 0 s) as [[i e]|].
Qed.

Lemma countGo_no_match ic r pre idx rest :
  searchFrom ic r pre idx rest = None -> countGo ic r pre idx 0 rest = 0.
Proof.
  revert pre idx; induction rest as [|c t IH]; intros pre idx; cbn.
  - destruct (matchAt ic r _); [discriminate|reflexivity].
  - destruct (matchAt ic r _); [discriminate|]. apply IH.
Qed.

Lemma countMatches_no_match ic r s :
  test ic r s = false -> countMatches ic r s = 0.
Proof.
  unfold test, countMatches. intros H.
  apply countGo_no_match. destruct (searchFrom ic r None 0 s); [discriminate|reflexivity].
Qed.

(** A greedy repetition of one class under the final continuation takes the
    whole run of the class. *)
Lemma rloop_class (ok : N -> bool) (mn fuel : nat) (p : pos) :
  (List.length (prest p) < fuel)%nat ->
  rloop (step1 ok) true mn None fuel Some p
  = if (mn <=? run ok (prest p))%nat
    then Some (mkPos (match run ok (prest p) with
                      | O => ppre p
                      | S n => nth_error (prest p) n
                      end)
                     (pidx p + run ok (prest p))
                     (skipn (run ok (prest p)) (prest p)))
    else None.
Proof.
  revert mn p; induction fuel as [|f IH]; intros mn p Hf; [lia|].
  destruct p as [pre idx rest]. cbn [prest pidx ppre] in *.
  cbn [rloop].
  set (again := step1 ok _ _).
  assert (Hagain :
    again = match rest with
            | c :: t =>
                if ok c
                then rloop (step1 ok) true (pred mn) None f Some (mkPos (Some c) (S idx) t)
                else None
            | [] => None
            end).
  { unfold again, step1. cbn [prest pidx option_map].
    destruct rest as [|c t]; [reflexivity|].
    destruct (ok c); [|reflexivity].
    replace (S idx =? idx)%nat with false by (symmetry; apply Nat.eqb_neq; lia).
    now rewrite andb_false_r. }
  rewrite Hagain. clear again Hagain.
  destruct rest as [|c t].
  - cbn. destruct mn; cbn; [|reflexivity]. now rewrite Nat.add_0_r.
  - cbn [run]. destruct (ok c) eqn:Hc.
    + rewrite IH by (cbn in *; lia). cbn [prest pidx ppre].
      replace (pred mn <=? run ok t)%nat with (mn <=? S (run ok t))%nat
        by (destruct mn; reflexivity).
      replace (match run ok t with O => Some c | S n => nth_error t n end)
        with (nth_error (c :: t) (run ok t))
        by (destruct (run ok t); reflexivity).
      replace (S idx + run ok t)%nat with (idx + S (run ok t))%nat by lia.
      cbn [skipn].
      destruct mn; [reflexivity|].
      cbn [Nat.ltb Nat.leb]. reflexivity.
    + destruct mn; cbn; [|reflexivity]. now rewrite Nat.add_0_r.
Qed.

Lemma run_ext (ok ok' : N -> bool) (s : jsstring) :
  (forall c, ok c = ok' c) -> run ok s = run ok' s.
Proof. intros H. induction s as [|c t IH]; cbn; [reflexivity|]. now rewrite H, IH. Qed.

(** [\s+] at a position: the whole run of white space, if there is any. *)
Lemma matchAt_WHITESPACE pre idx rest :
  option_map pidx (matchAt false WHITESPACE (mkPos pre idx rest))
  = if (1 <=? run isSpace rest)%nat then Some (idx + run isSpace rest)%nat else None.
Proof.
  change (matchAt false WHITESPACE (mkPos pre idx rest))
    with (rloop (step1 (classMatches false false [CSpace])) true 1 None
                (1 + List.length rest + 1) Some (mkPos pre idx rest)).
  rewrite rloop_class by (cbn; lia). cbn [prest pidx ppre].
  rewrite (run_ext _ isSpace) by (intros c; cbn; now destruct (isSpace c)).
  now destruct (1 <=? run isSpace rest)%nat.
Qed.

(** [\w\S*] at a position: a word character and all that follows it up to
    the next white space. *)
Lemma matchAt_WORDS pre idx rest :
  option_map pidx (matchAt false WORDS (mkPos pre idx rest))
  = match rest with
    | c :: t =>
        if isWordChar c
        then Some (S idx + run (fun x => negb (isSpace x)) t)%nat
        else None
    | [] => None
    end.
Proof.
  change (matchAt false WORDS (mkPos pre idx rest))
    with (step1 (classMatches false false [CWord])
            (fun p => rloop (step1 (classMatches false false [CNotSpace])) true 0 None
                            (0 + List.length (prest p) + 1) Some p)
            (mkPos pre idx rest)).
  unfold step1 at 1. cbn [prest pidx].
  destruct rest as [|c t]; [reflexivity|].
  replace (classMatches false false [CWord] c) with (isWordChar c)
    by (cbn; now destruct (isWordChar c)).
  destruct (isWordChar c); [|reflexivity].
  rewrite rloop_class by (cbn; lia). cbn [prest pidx ppre Nat.leb option_map].
  rewrite (run_ext _ (fun x => negb (isSpace x)))
    by (intros x; cbn; now destruct (isSpace x)).
  reflexivity.
Qed.

Lemma collapseScan_in_run (t : jsstring) :
  collapseScan true t = collapseScan false (skipn (run isSpace t) t).
Proof.
  induction t as [|c t IH]; [reflexivity|].
  cbn [collapseScan run]. destruct (isSpace c) eqn:Hc.
  - cbn [skipn]. exact IH.
  - cbn [skipn collapseScan]. now rewrite Hc.
Qed.

(** The global replacement of [\s+] by a space is the collapsing scan. *)
Lemma replaceGo_WHITESPACE rest pre idx skip :
  replaceGo false WHITESPACE (fun _ => js " ") pre idx skip rest
  = collapseScan false (skipn skip rest).
Proof.
  revert pre idx skip; induction rest as [|c t IH]; intros pre idx skip.
  - destruct skip; cbn [replaceGo skipn collapseScan]; [|reflexivity].
    pose proof (matchAt_WHITESPACE pre idx []) as H. cbn [run Nat.leb] in H.
    destruct (matchAt false WHITESPACE _); [unfold option_map in H; cbn in H; discriminate H|reflexivity].
  - destruct skip as [|n]; cbn [replaceGo skipn]; [|apply IH].
    pose proof (matchAt_WHITESPACE pre idx (c :: t)) as H.
    cbn [run collapseScan] in *. destruct (isSpace c) eqn:Hc.
    + cbn [Nat.leb] in H.
      destruct (matchAt false WHITESPACE _) as [e|]; [|unfold option_map in H; cbn in H; discriminate H].
      unfold option_map in H. injection H as ->.
      replace (idx + S (run isSpace t) - idx)%nat with (S (run isSpace t)) by lia.
      rewrite IH, collapseScan_in_run. reflexivity.
    + cbn [Nat.leb] in H.
      destruct (matchAt false WHITESPACE _); [unfold option_map in H; cbn in H; discriminate H|].
      now rewrite IH.
Qed.

Lemma titleScan_in_word (t : jsstring) :
  let n := run (fun x => negb (isSpace x)) t in
  titleScan true t = toLowerCase (firstn n t) ++ titleScan false (skipn n t).
Proof.
  induction t as [|c t IH]; [reflexivity|].
  cbn [titleScan run]. destruct (isSpace c) eqn:Hc; cbn [negb].
  - cbn [firstn skipn toLowerCase map app titleScan].
    now rewrite (CharFacts.space_not_word _ Hc).
  - cbn [firstn skipn toLowerCase map app]. f_equal. exact IH.
Qed.

(** The global replacement of [\w\S*] by its capitalization is the
    title-casing scan. *)
Lemma replaceGo_WORDS rest pre idx skip :
  replaceGo false WORDS capitalize pre idx skip rest
  = titleScan false (skipn skip rest).
Proof.
  revert pre idx skip; induction rest as [|c t IH]; intros pre idx skip.
  - destruct skip; cbn [replaceGo skipn titleScan]; [|reflexivity].
    pose proof (matchAt_WORDS pre idx []) as H. cbv beta iota in H.
    destruct (matchAt false WORDS _); [unfold option_map in H; cbn in H; discriminate H|reflexivity].
  - destruct skip as [|n]; cbn [replaceGo skipn]; [|apply IH].
    pose proof (matchAt_WORDS pre idx (c :: t)) as H. cbv beta iota in H.
    cbn [titleScan]. destruct (isWordChar c) eqn:Hc.
    + destruct (matchAt false WORDS _) as [e|];
        [|unfold option_map in H; cbn in H; discriminate H].
      unfold option_map in H. injection H as ->.
      match goal with
      | |- context [(?a - idx)%nat] =>
          replace (a - idx)%nat with (S (run (fun x => negb (isSpace x)) t)) by lia
      end.
      rewrite IH. cbn [firstn capitalize app]. f_equal.
      rewrite titleScan_in_word. reflexivity.
    + destruct (matchAt false WORDS _); [unfold option_map in H; cbn in H; discriminate H|].
      now rewrite IH.
Qed.

Lemma collapseSpaces_scan (s : jsstring) :
  collapseSpaces s = trim (collapseScan false s).
Proof.
  unfold collapseSpaces, replaceAll, replaceAllWith.
  now rewrite replaceGo_WHITESPACE.
Qed.

Lemma titleCase_scan (s : jsstring) :
  titleCase s = trim (titleScan false s).
Proof.
  unfold titleCase, replaceAllWith. now rewrite replaceGo_WORDS.
Qed.

End RegexFacts.

(** ** Trimming, collapsing and title-casing *)

Module TextFacts.
Import Regex Spec.

Lemma trimStart_skipn (s : jsstring) : trimStart s = skipn (run isSpace s) s.
Proof.
  induction s as [|c t IH]; [reflexivity|].
  cbn [trimStart run]. destruct (isSpace c); [exact IH|reflexivity].
Qed.

Lemma trimEnd_firstn (s : jsstring) :
  trimEnd s = firstn (List.length s - run isSpace (rev s)) s.
Proof.
  unfold trimEnd. rewrite trimStart_skipn, skipn_rev, rev_involutive. reflexivity.
Qed.

Lemma trimStart_idem (s : jsstring) : trimStart (trimStart s) = trimStart s.
Proof.
  induction s as [|c t IH]; [reflexivity|].
  cbn [trimStart]. destruct (isSpace c) eqn:Hc; [exact IH|].
  cbn [trimStart]. now rewrite Hc.
Qed.

Lemma trimEnd_idem (s : jsstring) : trimEnd (trimEnd s) = trimEnd s.
Proof. unfold trimEnd. now rewrite rev_involutive, trimStart_idem. Qed.

(** Trimming the end keeps a head that is no white space. *)
Lemma trimStart_trimEnd (s : jsstring) :
  trimStart s = s -> trimStart (trimEnd s) = trimEnd s.
Proof.
  rewrite trimEnd_firstn. generalize (List.length s - run isSpace (rev s))%nat.
  intros k H. destruct s as [|c t]; [now destruct k|].
  destruct k; [reflexivity|]. cbn [firstn trimStart] in *.
  destruct (isSpace c); [|reflexivity].
  exfalso. pose proof (f_equal (@List.length N) H) as Hl.
  rewrite trimStart_skipn, length_skipn in Hl. cbn in Hl. lia.
Qed.

Lemma trim_idem (s : jsstring) : trim (trim s) = trim s.
Proof.
  unfold trim.
  rewrite (trimStart_trimEnd (trimStart s) (trimStart_idem s)).
  apply trimEnd_idem.
Qed.

Lemma run_map (s : jsstring) (s' : jsstring) :
  map isSpace s = map isSpace s' -> run isSpace s = run isSpace s'.
Proof.
  revert s'; induction s as [|c t IH]; intros [|c' t'] H; try discriminate; [reflexivity|].
  injection H as Hc Ht. cbn [run]. rewrite Hc. now rewrite (IH _ Ht).
Qed.

Lemma titleScan_length (b : bool) (s : jsstring) :
  List.length (titleScan b s) = List.length s.
Proof.
  revert b; induction s as [|c t IH]; intros b; [reflexivity|].
  cbn [titleScan]. destruct b, (isSpace c), (isWordChar c); cbn; now rewrite IH.
Qed.

(** Title-casing leaves the white space where it is. *)
Lemma titleScan_spaces (b : bool) (s : jsstring) :
  map isSpace (titleScan b s) = map isSpace s.
Proof.
  revert b; induction s as [|c t IH]; intros b; [reflexivity|].
  cbn [titleScan]. destruct b.
  - destruct (isSpace c) eqn:Hc; cbn [map]; rewrite IH, ?CharFacts.toLowerChar_space;
      reflexivity.
  - destruct (isWordChar c) eqn:Hc; cbn [map]; rewrite IH, ?CharFacts.toUpperChar_space;
      reflexivity.
Qed.

Lemma titleScan_firstn (b : bool) (k : nat) (s : jsstring) :
  titleScan b (firstn k s) = firstn k (titleScan b s).
Proof.
  revert b k; induction s as [|c t IH]; intros b [|k]; try reflexivity.
  cbn [titleScan firstn].
  destruct b; [destruct (isSpace c)|destruct (isWordChar c)];
    cbn [firstn]; now rewrite IH.
Qed.

Lemma titleScan_skipn (n : nat) (s : jsstring) :
  (n <= run isSpace s)%nat ->
  titleScan false (skipn n s) = skipn n (titleScan false s).
Proof.
  revert n; induction s as [|c t IH]; intros [|n] H; try reflexivity.
  cbn [run] in H. destruct (isSpace c) eqn:Hc; [|lia].
  cbn [skipn titleScan]. rewrite (CharFacts.space_not_word _ Hc).
  cbn [skipn]. apply IH. lia.
Qed.

(** Title-casing commutes with trimming. *)
Lemma titleScan_trim (s : jsstring) :
  titleScan false (trim s) = trim (titleScan false s).
Proof.
  unfold trim. rewrite !trimEnd_firstn, !trimStart_skipn.
  rewrite (run_map (titleScan false s) s) by apply titleScan_spaces.
  rewrite titleScan_firstn, titleScan_skipn by lia.
  rewrite <- (titleScan_skipn (run isSpace s) s) by lia.
  rewrite titleScan_length. f_equal. f_equal.
  apply run_map. rewrite !map_rev. f_equal. symmetry. apply titleScan_spaces.
Qed.

Lemma titleScan_idem (b : bool) (s : jsstring) :
  titleScan b (titleScan b s) = titleScan b s.
Proof.
  revert b; induction s as [|c t IH]; intros b; [reflexivity|].
  cbn [titleScan]. destruct b.
  - destruct (isSpace c) eqn:Hc; cbn [titleScan].
    + now rewrite Hc, IH.
    + now rewrite CharFacts.toLowerChar_space, Hc, CharFacts.toLowerChar_idem, IH.
  - destruct (isWordChar c) eqn:Hc; cbn [titleScan].
    + now rewrite (CharFacts.toUpperChar_word _ Hc), CharFacts.toUpperChar_idem, IH.
    + now rewrite Hc, IH.
Qed.

(** Title-casing twice is title-casing once. *)
Lemma titleCase_idem (s : jsstring) : titleCase (titleCase s) = titleCase s.
Proof.
  rewrite !RegexFacts.titleCase_scan.
  now rewrite titleScan_trim, trim_idem, titleScan_idem.
Qed.

End TextFacts.

(** ** Where a match ends *)

Module SuffixFacts.
Import Regex Spec.

Lemma sound_Some : sound Some.
Proof. intros p e [= ->]. reflexivity. Qed.

Lemma sound_step1 ok k : sound k -> sound (step1 ok k).
Proof.
  intros Hk p e. unfold step1. destruct (prest p) as [|c t] eqn:E; [discriminate|].
  destruct (ok c); [|discriminate]. intros H. apply Hk in H. cbn in H.
  now apply suffix_cons_r.
Qed.

Lemma sound_rloop m g mn mx fuel k :
  (forall k', sound k' -> sound (m k')) -> sound k ->
  sound (rloop m g mn mx fuel k).
Proof.
  intros Hm Hk. revert mn mx.
  induction fuel as [|f IH]; intros mn mx p e; cbn [rloop]; [discriminate|].
  set (k' := fun p' : pos =>
               if (mn =? 0)%nat && (pidx p' =? pidx p)%nat then None
               else rloop m g (pred mn) (option_map pred mx) f k p').
  assert (Hk' : sound k').
  { intros p' e'. unfold k'. destruct (_ && _); [discriminate|]. apply IH. }
  pose proof (Hm k' Hk' p) as Hagain.
  destruct mx as [[|n]|]; [apply Hk| |];
    (destruct (0 <? mn)%nat; [apply Hagain|]);
    destruct g; unfold orElse;
    (destruct (m k' p) eqn:E1; destruct (k p) eqn:E2; intros [= <-];
     first [now apply Hagain | now apply Hk]).
Qed.

(** Every match ends inside the rest of the subject. *)
Lemma sound_rmatch ic r k : sound k -> sound (rmatch ic r k).
Proof.
  revert k; induction r; intros k Hk; cbn [rmatch];
    try (now apply sound_step1).
  - exact Hk.
  - apply IHr1, IHr2, Hk.
  - intros p e. unfold orElse.
    destruct (rmatch ic r1 k p) eqn:E1; [intros [= <-]; eapply IHr1; eauto|].
    intros H. eapply IHr2; eauto.
  - intros p e. apply sound_rloop; [intros k'; apply IHr|exact Hk].
  - intros p e. destruct (ppre p); [discriminate|apply Hk].
  - intros p e. destruct (prest p) eqn:E; [|discriminate].
    intros H. apply Hk in H. now rewrite E in H.
  - intros p e. destruct (atWordBoundary p); [apply Hk|discriminate].
  - intros p e. destruct (atWordBoundary p); [discriminate|apply Hk].
Qed.

(** A pattern anchored at the start matches at the start or not at all. *)
Lemma searchFrom_anchored ic r c idx rest :
  searchFrom ic (Seq Bol r) (Some c) idx rest = None.
Proof.
  revert c idx; induction rest as [|x t IH]; intros c idx; cbn; [reflexivity|].
  apply IH.
Qed.

Lemma replaceFirst_anchored ic r (s : jsstring) :
  replaceFirst ic (Seq Bol r) [] s `suffix_of` s.
Proof.
  unfold replaceFirst.
  destruct (searchFrom ic (Seq Bol r) None 0 s) as [[i e]|] eqn:E; [|reflexivity].
  destruct s as [|x t]; cbn [searchFrom] in E.
  - destruct (matchAt ic (Seq Bol r) _) eqn:Em; [|discriminate].
    injection E as <- <-. cbn [firstn app].
    apply (sound_rmatch ic (Seq Bol r) Some sound_Some _ _ Em).
  - destruct (matchAt ic (Seq Bol r) _) eqn:Em.
    + injection E as <- <-. cbn [firstn app].
      apply (sound_rmatch ic (Seq Bol r) Some sound_Some _ _ Em).
    + now rewrite searchFrom_anchored in E.
Qed.

End SuffixFacts.

(** ** Single-spaced text *)

Module SpacedFacts.
Import Spec.

Lemma spaced_collapseScan (b : bool) (s : jsstring) : spaced b (collapseScan b s) = true.
Proof.
  revert b; induction s as [|c t IH]; intros b; [reflexivity|].
  cbn [collapseScan]. destruct (isSpace c) eqn:Hc.
  - destruct b; [apply IH|]. cbn [spaced].
    change (isSpace 32) with true. cbn. apply IH.
  - cbn [spaced]. rewrite Hc. apply IH.
Qed.

Lemma collapseScan_spaced (b : bool) (s : jsstring) :
  spaced b s = true -> collapseScan b s = s.
Proof.
  revert b; induction s as [|c t IH]; intros b H; [reflexivity|].
  cbn [spaced collapseScan] in *. destruct (isSpace c).
  - apply andb_true_iff in H as [H Ht]. apply andb_true_iff in H as [Hc Hb].
    apply N.eqb_eq in Hc. subst c. destruct b; [discriminate|].
    now rewrite IH.
  - now rewrite IH.
Qed.

Lemma spaced_weaken (b : bool) (s : jsstring) : spaced b s = true -> spaced false s = true.
Proof.
  destruct s as [|c t]; [reflexivity|]. cbn [spaced].
  destruct (isSpace c); [|trivial]. destruct b; [|trivial].
  rewrite andb_false_r. discriminate.
Qed.

Lemma spaced_tail (b : bool) (c : N) (t : jsstring) :
  spaced b (c :: t) = true -> spaced false t = true.
Proof.
  cbn [spaced]. destruct (isSpace c).
  - intros H. apply andb_true_iff in H as [_ H]. exact (spaced_weaken _ _ H).
  - trivial.
Qed.

Lemma spaced_suffix (b : bool) (s l : jsstring) :
  s `suffix_of` l -> spaced b l = true -> spaced false s = true.
Proof.
  intros [k ->]. revert b. induction k as [|c k IH]; intros b H.
  - exact (spaced_weaken _ _ H).
  - apply (IH false). exact (spaced_tail _ _ _ H).
Qed.

Lemma spaced_prefix (b : bool) (k : nat) (s : jsstring) :
  spaced b s = true -> spaced b (firstn k s) = true.
Proof.
  revert b k; induction s as [|c t IH]; intros b [|k] H; try reflexivity.
  cbn [firstn spaced] in *. destruct (isSpace c).
  - apply andb_true_iff in H as [H Ht]. rewrite H. now apply IH.
  - now apply IH.
Qed.

Lemma spaced_trim (s : jsstring) : spaced false s = true -> spaced false (trim s) = true.
Proof.
  intros H. unfold trim. rewrite TextFacts.trimEnd_firstn. apply spaced_prefix.
  apply (spaced_suffix false _ s); [|exact H].
  rewrite TextFacts.trimStart_skipn. apply suffix_drop.
Qed.

Lemma spaced_titleScan (b st : bool) (s : jsstring) :
  spaced b s = true -> spaced b (titleScan st s) = true.
Proof.
  revert b st; induction s as [|c t IH]; intros b st H; [reflexivity|].
  cbn [titleScan spaced] in *. destruct st.
  - destruct (isSpace c) eqn:Hc; cbn [spaced].
    + rewrite Hc. apply andb_true_iff in H as [H Ht]. rewrite H. now apply IH.
    + rewrite CharFacts.toLowerChar_space, Hc. now apply IH.
  - destruct (isWordChar c) eqn:Hw; cbn [spaced].
    + rewrite CharFacts.toUpperChar_space.
      destruct (isSpace c) eqn:Hc.
      * rewrite (CharFacts.space_not_word _ Hc) in Hw. discriminate.
      * now apply IH.
    + destruct (isSpace c).
      * apply andb_true_iff in H as [H Ht]. rewrite H. now apply IH.
      * now apply IH.
Qed.

(** Collapsing white space changes nothing in trimmed, single-spaced text. *)
Lemma collapseSpaces_spaced (s : jsstring) :
  spaced false s = true -> trim s = s -> collapseSpaces s = s.
Proof.
  intros Hs Ht. now rewrite RegexFacts.collapseSpaces_scan, collapseScan_spaced.
Qed.

End SpacedFacts.

(** ** The sanitizer on its own output *)

Module SanitizerFacts.
Import Regex Spec.

Lemma streq_refl (s : jsstring) : streq s s = true.
Proof. now apply FormatFacts.streq_eq. Qed.

Lemma merchant_prefixes_anchored :
  exists r, PATTERNS.MERCHANT_PREFIXES = Seq Bol r.
Proof. eexists. vm_compute. reflexivity. Qed.

Lemma wellFormed_titleCase (x : jsstring) :
  spaced false x = true -> wellFormed (titleCase x).
Proof.
  intros Hx. split; [|split].
  - rewrite RegexFacts.titleCase_scan. apply TextFacts.trim_idem.
  - rewrite RegexFacts.titleCase_scan.
    apply SpacedFacts.spaced_trim, SpacedFacts.spaced_titleScan, Hx.
  - apply TextFacts.titleCase_idem.
Qed.

Lemma sanitizeDescription_wellFormed opts raw report :
  wellFormed (fst (sanitizeDescription opts raw report)).
Proof.
  unfold sanitizeDescription. destruct (truthy raw); cbn [negb].
  - match goal with
    | |- context [let '(clean, report) := ?st in _] => destruct st as [clean rep]
    end.
    cbn [fst]. apply wellFormed_titleCase.
    destruct merchant_prefixes_anchored as [r ->].
    eapply SpacedFacts.spaced_suffix; [apply SuffixFacts.replaceFirst_anchored|].
    rewrite RegexFacts.collapseSpaces_scan.
    apply SpacedFacts.spaced_trim, SpacedFacts.spaced_collapseScan.
  - cbn. repeat split.
Qed.

Lemma removeTerms_settled (terms : list jsstring) (s : jsstring) report :
  Forall (fun p : bool * re => test (fst p) (snd p) s = false)
         (map (fun term => (true, literal term)) terms) ->
  fold_left removeTerm terms (s, report) = (s, report).
Proof.
  induction terms as [|term terms IH]; intros H; [reflexivity|].
  apply Forall_cons in H as [Ht H]. cbn [fold_left removeTerm].
  cbn [fst snd] in Ht. rewrite (RegexFacts.countMatches_no_match _ _ _ Ht).
  now apply IH.
Qed.

Lemma redact_settled ic pat by_ kind (s : jsstring) report :
  test ic pat s = false -> redact ic pat by_ kind (s, report) = (s, report).
Proof.
  intros H. unfold redact.
  now rewrite (RegexFacts.replaceAll_no_match _ _ _ _ H), streq_refl.
Qed.

Lemma removeIds_settled pat (s : jsstring) report :
  test (fst pat) (snd pat) s = false -> removeIds (s, report) pat = (s, report).
Proof.
  intros H. unfold removeIds.
  now rewrite (RegexFacts.replaceAll_no_match _ _ _ _ H), streq_refl.
Qed.

(** On a well-formed text that no removal pattern matches, sanitizing
    changes neither the text nor the report. *)
Lemma sanitizeDescription_settled opts (s : jsstring) report :
  wellFormed s -> settled opts s ->
  sanitizeDescription opts s report = (s, report).
Proof.
  intros (Htrim & Hspaced & Htitle) Hsettled.
  unfold settled, removalPatterns in Hsettled.
  apply Forall_app in Hsettled as [Hterms Hsettled].
  apply Forall_app in Hsettled as [Hpii Hsettled].
  apply Forall_app in Hsettled as [Hids Hsettled].
  apply Forall_app in Hsettled as [Hnames Hsettled].
  apply Forall_app in Hsettled as [Hloc Hnoise].
  unfold sanitizeDescription. destruct (truthy s) eqn:Hs; cbn [negb];
    [|destruct s; [reflexivity|discriminate]].
  rewrite Htrim.
  assert (Hcustom : applyCustomRemovals opts (s, report) = (s, report)).
  { unfold applyCustomRemovals. destruct (customTerms opts) eqn:Hc; [reflexivity|].
    rewrite Hs. cbn [negb]. rewrite (removeTerms_settled _ _ _ Hterms).
    now rewrite (SpacedFacts.collapseSpaces_spaced _ Hspaced Htrim). }
  rewrite Hcustom.
  assert (Hmask : (if maskPii opts then maskPiiSteps (s, report) else (s, report))
                  = (s, report)).
  { destruct (maskPii opts); [|reflexivity]. unfold maskPiiSteps.
    repeat (apply Forall_cons in Hpii as [? Hpii]).
    cbn [fst snd] in *. now rewrite !redact_settled. }
  rewrite Hmask.
  assert (Hid : fold_left removeIds PATTERNS.ID_PATTERNS (s, report) = (s, report)).
  { revert Hids. generalize PATTERNS.ID_PATTERNS. intros l.
    induction l as [|p l IH]; intros H; [reflexivity|].
    apply Forall_cons in H as [Hp H]. cbn [fold_left].
    rewrite (removeIds_settled _ _ _ Hp). now apply IH. }
  rewrite Hid.
  assert (Hn : (if scrubContacts opts
                then (replaceAll false PATTERNS.NAMES (js "Individual") (fst (s, report)),
                      snd (s, report))
                else (s, report)) = (s, report)).
  { destruct (scrubContacts opts); [|reflexivity].
    apply Forall_cons in Hnames as [Hn _]. cbn [fst snd] in *.
    now rewrite (RegexFacts.replaceAll_no_match _ _ _ _ Hn). }
  rewrite Hn.
  assert (Hl : (if fuzzLocation opts
                then redact false PATTERNS.LOCATIONS " [LOC]" "location" (s, report)
                else (s, report)) = (s, report)).
  { destruct (fuzzLocation opts); [|reflexivity].
    apply Forall_cons in Hloc as [Hl _]. cbn [fst snd] in Hl.
    now apply redact_settled. }
  rewrite Hl.
  apply Forall_cons in Hnoise as [H1 Hnoise].
  apply Forall_cons in Hnoise as [H2 Hnoise].
  apply Forall_cons in Hnoise as [H3 Hnoise].
  apply Forall_cons in Hnoise as [H4 _].
  cbn [fst snd] in H1, H2, H3, H4.
  rewrite (RegexFacts.replaceAll_no_match _ _ _ _ H1).
  rewrite (RegexFacts.replaceAll_no_match _ _ _ _ H2).
  rewrite (RegexFacts.replaceAll_no_match _ _ _ _ H3).
  rewrite (SpacedFacts.collapseSpaces_spaced _ Hspaced Htrim).
  rewrite (RegexFacts.replaceFirst_no_match _ _ _ _ H4).
  now rewrite Htitle.
Qed.

(** [settled] can be decided by running the patterns. *)
Lemma settled_by_test opts (s : jsstring) :
  forallb (fun p : bool * re => negb (test (fst p) (snd p) s)) (removalPatterns opts) = true ->
  settled opts s.
Proof.
  unfold settled. intros H. apply List.Forall_forall. intros p Hp.
  rewrite forallb_forall in H. specialize (H p Hp).
  now apply negb_true_iff in H.
Qed.

End SanitizerFacts.

(** ** ASCII text stays ASCII *)

Module AsciiFacts.
Import Regex Spec.

Definition ascii (s : jsstring) : Prop := Forall (fun c => (c < 128)%N) s.

Lemma isAscii_spec (s : jsstring) : isAscii s = true <-> ascii s.
Proof.
  unfold isAscii, ascii. rewrite forallb_forall, List.Forall_forall.
  split; intros H c Hc; specialize (H c Hc); now apply N.ltb_lt.
Qed.

Lemma keeps_suffix (P : N -> Prop) (s t : jsstring) :
  t `suffix_of` s -> Forall P s -> Forall P t.
Proof. intros [k ->] H. now apply Forall_app in H as [_ H]. Qed.

Lemma replaceGo_keeps (P : N -> Prop) ic r f :
  (forall m, Forall P m -> Forall P (f m)) ->
  forall rest pre idx skip,
    Forall P rest -> Forall P (replaceGo ic r f pre idx skip rest).
Proof.
  intros Hf. induction rest as [|c t IH]; intros pre idx skip Hrest.
  - destruct skip; cbn [replaceGo]; [|constructor].
    destruct (matchAt ic r _); [|constructor].
    rewrite app_nil_r. apply Hf. rewrite firstn_nil. constructor.
  - pose proof Hrest as Hct. apply Forall_cons in Hrest as [Hc Ht].
    destruct skip; cbn [replaceGo]; [|now apply IH].
    destruct (matchAt ic r _) as [e|].
    + apply Forall_app. split; [apply Hf, Forall_take, Hct|].
      destruct (pidx e - idx)%nat; [constructor; [exact Hc|]|]; now apply IH.
    + constructor; [exact Hc|now apply IH].
Qed.

Lemma replaceAllWith_keeps (P : N -> Prop) ic r f (s : jsstring) :
  (forall m, Forall P m -> Forall P (f m)) ->
  Forall P s -> Forall P (replaceAllWith ic r f s).
Proof. intros Hf Hs. now apply replaceGo_keeps. Qed.

Lemma replaceAll_keeps (P : N -> Prop) ic r (by_ s : jsstring) :
  Forall P by_ -> Forall P s -> Forall P (replaceAll ic r by_ s).
Proof. intros Hb Hs. apply replaceAllWith_keeps; [intros _ _; exact Hb|exact Hs]. Qed.

Lemma searchFrom_suffix ic r (rest : jsstring) :
  forall pre idx i e,
    searchFrom ic r pre idx rest = Some (i, e) -> prest e `suffix_of` rest.
Proof.
  induction rest as [|c t IH]; intros pre idx i e; cbn [searchFrom].
  - destruct (matchAt ic r _) as [e'|] eqn:Em; [|discriminate].
    intros [= _ <-].
    exact (SuffixFacts.sound_rmatch ic r Some SuffixFacts.sound_Some _ _ Em).
  - destruct (matchAt ic r _) as [e'|] eqn:Em.
    + intros [= _ <-].
      exact (SuffixFacts.sound_rmatch ic r Some SuffixFacts.sound_Some _ _ Em).
    + intros H. apply IH in H. now apply suffix_cons_r.
Qed.

Lemma replaceFirst_keeps (P : N -> Prop) ic r (by_ s : jsstring) :
  Forall P by_ -> Forall P s -> Forall P (replaceFirst ic r by_ s).
Proof.
  intros Hb Hs. unfold replaceFirst.
  destruct (searchFrom ic r None 0 s) as [[i e]|] eqn:E; [|exact Hs].
  apply Forall_app. split; [now apply Forall_take|].
  apply Forall_app. split; [exact Hb|].
  eapply keeps_suffix; [eapply searchFrom_suffix, E|exact Hs].
Qed.

Lemma trim_keeps (P : N -> Prop) (s : jsstring) : Forall P s -> Forall P (trim s).
Proof.
  intros H. unfold trim.
  rewrite TextFacts.trimEnd_firstn. apply Forall_take.
  rewrite TextFacts.trimStart_skipn. now apply Forall_drop.
Qed.

Lemma collapseSpaces_ascii (s : jsstring) : ascii s -> ascii (collapseSpaces s).
Proof.
  intros H. unfold collapseSpaces. apply trim_keeps, replaceAll_keeps; [|exact H].
  apply isAscii_spec. reflexivity.
Qed.

Lemma toUpperChar_ascii (c : N) : (c < 128)%N -> (toUpperChar c < 128)%N.
Proof. unfold toUpperChar. destruct (isLower c); lia. Qed.

Lemma toLowerChar_ascii (c : N) : (c < 128)%N -> (toLowerChar c < 128)%N.
Proof.
  unfold toLowerChar. destruct (isUpper c) eqn:E; [|lia].
  apply CharFacts.upper_range in E. lia.
Qed.

Lemma capitalize_ascii (m : jsstring) : ascii m -> ascii (capitalize m).
Proof.
  intros H. destruct m as [|c t]; [constructor|].
  apply Forall_cons in H as [Hc Ht]. cbn [capitalize]. constructor.
  - now apply toUpperChar_ascii.
  - unfold toLowerCase. apply Forall_map.
    eapply List.Forall_impl; [|exact Ht]. intros a. apply toLowerChar_ascii.
Qed.

Lemma titleCase_ascii (s : jsstring) : ascii s -> ascii (titleCase s).
Proof.
  intros H. unfold titleCase.
  apply trim_keeps, replaceAllWith_keeps; [apply capitalize_ascii|exact H].
Qed.

Lemma removeTerm_ascii (st : Cleaning) (term : jsstring) :
  ascii (fst st) -> ascii (fst (removeTerm st term)).
Proof.
  destruct st as [out rep]. unfold removeTerm. cbn [fst].
  destruct (countMatches true (literal term) out); [trivial|].
  intros H. cbn [fst]. apply replaceAll_keeps; [constructor|exact H].
Qed.

Lemma applyCustomRemovals_ascii opts (st : Cleaning) :
  ascii (fst st) -> ascii (fst (applyCustomRemovals opts st)).
Proof.
  destruct st as [input rep]. unfold applyCustomRemovals. cbn [fst].
  intros H. destruct (customTerms opts) as [|t ts] eqn:E; [exact H|].
  destruct (negb (truthy input)); [exact H|].
  rewrite <- E.
  assert (Hfold : forall terms st, ascii (fst st) ->
            ascii (fst (fold_left removeTerm terms st))).
  { induction terms as [|x terms IH]; intros st Hst; [exact Hst|].
    cbn [fold_left]. apply IH. now apply removeTerm_ascii. }
  specialize (Hfold (customTerms opts) (input, rep) H).
  destruct (fold_left removeTerm (customTerms opts) (input, rep)) as [out rep'].
  cbn [fst] in *. now apply collapseSpaces_ascii.
Qed.

Lemma redact_ascii ic pat by_ kind (st : Cleaning) :
  isAscii (js by_) = true -> ascii (fst st) -> ascii (fst (redact ic pat by_ kind st)).
Proof.
  destruct st as [before rep]. unfold redact. cbn [fst]. intros Hb H.
  apply replaceAll_keeps; [now apply isAscii_spec|exact H].
Qed.

Lemma removeIds_ascii (st : Cleaning) (pat : bool * re) :
  ascii (fst st) -> ascii (fst (removeIds st pat)).
Proof.
  destruct st as [before rep]. unfold removeIds. cbn [fst]. intros H.
  apply replaceAll_keeps; [constructor|exact H].
Qed.

Lemma maskPiiSteps_ascii (st : Cleaning) : ascii (fst st) -> ascii (fst (maskPiiSteps st)).
Proof.
  intros H. unfold maskPiiSteps.
  repeat (apply redact_ascii; [reflexivity|]). exact H.
Qed.

(** A description written in ASCII is sanitized to one written in ASCII. *)
Lemma sanitizeDescription_ascii opts (raw : jsstring) rep :
  ascii raw -> ascii (fst (sanitizeDescription opts raw rep)).
Proof.
  intros H. unfold sanitizeDescription.
  destruct (negb (truthy raw)); [constructor|].
  cbv zeta.
  set (st1 := applyCustomRemovals opts (trim raw, rep)).
  assert (H1 : ascii (fst st1))
    by (apply applyCustomRemovals_ascii; cbn [fst]; now apply trim_keeps).
  clearbody st1.
  set (st2 := if maskPii opts then maskPiiSteps st1 else st1).
  assert (H2 : ascii (fst st2))
    by (unfold st2; destruct (maskPii opts); [now apply maskPiiSteps_ascii|exact H1]).
  clearbody st2. clear H1 st1.
  set (st3 := fold_left removeIds PATTERNS.ID_PATTERNS st2).
  assert (H3 : ascii (fst st3)).
  { assert (Hfold : forall pats st, ascii (fst st) ->
              ascii (fst (fold_left removeIds pats st))).
    { induction pats as [|p pats IH]; intros st Hst; [exact Hst|].
      cbn [fold_left]. apply IH. now apply removeIds_ascii. }
    now apply Hfold. }
  clearbody st3. clear H2 st2.
  set (st4 := if scrubContacts opts
              then (replaceAll false PATTERNS.NAMES (js "Individual") (fst st3), snd st3)
              else st3).
  assert (H4 : ascii (fst st4)).
  { unfold st4. destruct (scrubContacts opts); [|exact H3]. cbn [fst].
    apply replaceAll_keeps; [apply isAscii_spec; reflexivity|exact H3]. }
  clearbody st4. clear H3 st3.
  set (st5 := if fuzzLocation opts
              then redact false PATTERNS.LOCATIONS " [LOC]" "location" st4
              else st4).
  assert (H5 : ascii (fst st5)).
  { unfold st5. destruct (fuzzLocation opts); [|exact H4].
    apply redact_ascii; [reflexivity|exact H4]. }
  clearbody st5. clear H4 st4.
  destruct st5 as [clean rep5]. cbn [fst] in *.
  apply titleCase_ascii, replaceFirst_keeps; [constructor|].
  apply collapseSpaces_ascii.
  apply replaceAll_keeps; [apply isAscii_spec; reflexivity|].
  apply replaceAll_keeps; [apply isAscii_spec; reflexivity|].
  apply replaceAll_keeps; [constructor|exact H5].
Qed.

End AsciiFacts.

(** C4, as the code has it, for a description written in ASCII (which is
    sanitized to ASCII again): when no removal pattern of the pipeline
    (custom terms, masked identifiers, transaction ids, names and locations
    if enabled, noise and separators, merchant prefixes) matches the
    sanitized description any more, sanitizing it again returns the same
    string and leaves the report as it is. *)
Theorem sanitizeDescription_idempotent_when_settled
  (options : AnonymizerOptions) (raw : jsstring)
  (report report' : option RemovalReport) :
  Spec.isAscii raw = true ->
  let sanitized := fst (sanitizeDescription options raw report) in
  Spec.settled options sanitized ->
  Spec.isAscii sanitized = true
  /\ sanitizeDescription options sanitized report' = (sanitized, report').
Proof.
  intros Hraw sanitized H. split.
  - apply AsciiFacts.isAscii_spec, AsciiFacts.sanitizeDescription_ascii.
    now apply AsciiFacts.isAscii_spec.
  - apply SanitizerFacts.sanitizeDescription_settled; [|exact H].
    apply SanitizerFacts.sanitizeDescription_wellFormed.
Qed.

(** C4 at a description with a merchant prefix and a social security number. *)
Lemma sanitizeDescription_idempotent_witness :
  let sanitized :=
    fst (sanitizeDescription defaultOptions (js "SQ *COFFEE 123-45-6789") None) in
  sanitized = js "Coffee [Ssn]"
  /\ sanitizeDescription defaultOptions sanitized None = (sanitized, None).
Proof.
  split; [vm_compute; reflexivity|].
  apply (sanitizeDescription_idempotent_when_settled defaultOptions
           (js "SQ *COFFEE 123-45-6789") None None).
  - vm_compute. reflexivity.
  - apply SanitizerFacts.settled_by_test. vm_compute. reflexivity.
Defined.

(** C4, the claim as stated fails: with the default options a second
    merchant prefix survives the first pass and is stripped by the second;
    with contact scrubbing on, title-casing makes a name that the second
    pass replaces. *)
Lemma sanitizeDescription_second_pass_changes :
  let scrubbing :=
    {| maskPii := true; scrubContacts := true; fuzzLocation := true;
       cleanMetadata := false; ultraClean := false; customRemoveTerms := [] |} in
  let once := fst (sanitizeDescription defaultOptions (js "SQ *SQ *A") None) in
  let once' := fst (sanitizeDescription scrubbing (js "john doe") None) in
  once = js "Sq *A"
  /\ fst (sanitizeDescription defaultOptions once None) = js "A"
  /\ once' = js "John Doe"
  /\ fst (sanitizeDescription scrubbing once' None) = js "Individual".
Proof. vm_compute. repeat split. Qed.

(** ** Redaction counts *)

Module CountFacts.
Import Spec.

Lemma tally_insert (m : gmap string nat) (k kind : string) (v : nat) :
  tally (<[kind := v]> m) k = if String.eqb k kind then v else tally m k.
Proof.
  unfold tally. destruct (String.eqb_spec k kind) as [->|Hne].
  - now rewrite lookup_insert_eq.
  - now rewrite lookup_insert_ne by congruence.
Qed.

Lemma tally_empty (k : string) : tally empty k = 0.
Proof. reflexivity. Qed.

(** At most one of the eight kinds is the kind asked for. *)
Lemma one_kind (k : string) :
  (if String.eqb k "email" then 1 else 0) + (if String.eqb k "phone" then 1 else 0)
  + (if String.eqb k "url" then 1 else 0) + (if String.eqb k "card" then 1 else 0)
  + (if String.eqb k "ssn" then 1 else 0) + (if String.eqb k "address" then 1 else 0)
  + (if String.eqb k "zip" then 1 else 0) + (if String.eqb k "location" then 1 else 0)
  <= 1.
Proof.
  destruct (String.eqb_spec k "email") as [->|_]; [cbn; lia|].
  destruct (String.eqb_spec k "phone") as [->|_]; [cbn; lia|].
  destruct (String.eqb_spec k "url") as [->|_]; [cbn; lia|].
  destruct (String.eqb_spec k "card") as [->|_]; [cbn; lia|].
  destruct (String.eqb_spec k "ssn") as [->|_]; [cbn; lia|].
  destruct (String.eqb_spec k "address") as [->|_]; [cbn; lia|].
  destruct (String.eqb_spec k "zip") as [->|_]; [cbn; lia|].
  destruct (String.eqb k "location"); lia.
Qed.

(** ** The preflight side *)

Lemma testAndCount_tally ic pat kind s li m k :
  tally m k <= tally (snd (testAndCount ic pat kind s li m)) k
  /\ tally (snd (testAndCount ic pat kind s li m)) k
     <= tally m k + (if String.eqb k kind then 1 else 0).
Proof.
  unfold testAndCount. destruct (Regex.testG ic pat li s) as [[|] li']; cbn [snd].
  - unfold count. rewrite tally_insert. fold (tally m kind).
    destruct (String.eqb_spec k kind) as [->|_]; lia.
  - lia.
Qed.

Lemma plannedTests_tally s li m k :
  tally m k <= tally (snd (plannedTests s li m)) k <= tally m k + 1.
Proof.
  pose proof (one_kind k) as Hone. unfold plannedTests.
  repeat match goal with
         | |- context [testAndCount ?ic ?p ?kd ?s ?l ?m0] =>
             pose proof (testAndCount_tally ic p kd s l m0 k);
             destruct (testAndCount ic p kd s l m0) as [? ?]
         end.
  cbn [snd] in *. lia.
Qed.

Lemma sampleRowStep_tally opts descCol acc r k :
  tally (pRedactions acc) k
  <= tally (pRedactions (sampleRowStep opts descCol acc r)) k
  <= tally (pRedactions acc) k + 1.
Proof.
  unfold sampleRowStep.
  match goal with
  | |- context [plannedTests ?s ?l ?m] =>
      pose proof (plannedTests_tally s l m k) as H;
      destruct (plannedTests s l m) as [? ?]
  end.
  cbn [snd pRedactions] in *. exact H.
Qed.

Lemma sample_tally opts descCol rows acc k :
  tally (pRedactions (fold_left (sampleRowStep opts descCol) rows acc)) k
  <= tally (pRedactions acc) k + List.length rows.
Proof.
  revert acc. induction rows as [|r rows IH]; intros acc; cbn [fold_left List.length].
  - lia.
  - specialize (IH (sampleRowStep opts descCol acc r)).
    pose proof (sampleRowStep_tally opts descCol acc r k). lia.
Qed.

Lemma preflight_tally host opts li g n k :
  tally (plannedRedactions (fst (preflightRows host opts li g n))) k
  <= sampleRows (fst (preflightRows host opts li g n)).
Proof.
  unfold preflightRows. cbn [fst plannedRedactions sampleRows].
  match goal with
  | |- context [fold_left (sampleRowStep ?o ?c) ?rows ?acc] =>
      pose proof (sample_tally o c rows acc k) as H
  end.
  cbn [pRedactions] in H. rewrite tally_empty in H. exact H.
Qed.


(** ** The processing side *)

Lemma keeps_refl o : keeps o o.
Proof. intros r ->. eauto. Qed.

Lemma keeps_trans o1 o2 o3 : keeps o1 o2 -> keeps o2 o3 -> keeps o1 o3.
Proof.
  intros H12 H23 r Hr. destruct (H12 r Hr) as (r2 & E2 & R2).
  destruct (H23 r2 E2) as (r3 & E3 & R3). exists r3. split; [assumption|congruence].
Qed.

Lemma keeps_map (f : RemovalReport -> RemovalReport) o :
  (forall r, redactions (f r) = redactions r) -> keeps o (option_map f o).
Proof. intros Hf r ->. cbn. eauto. Qed.

Lemma keeps_adds k o o' : keeps o o' -> adds k 0 o o'.
Proof.
  intros H r Hr. destruct (H r Hr) as (r' & E & R). exists r'.
  rewrite R. repeat split; [assumption|lia|lia].
Qed.

Lemma adds_trans k n1 n2 o1 o2 o3 :
  adds k n1 o1 o2 -> adds k n2 o2 o3 -> adds k (n1 + n2) o1 o3.
Proof.
  intros H12 H23 r Hr. destruct (H12 r Hr) as (r2 & E2 & L2 & U2).
  destruct (H23 r2 E2) as (r3 & E3 & L3 & U3). exists r3.
  repeat split; [assumption|lia|lia].
Qed.

Lemma adds_weaken k n m o o' : n <= m -> adds k n o o' -> adds k m o o'.
Proof.
  intros Hle H r Hr. destruct (H r Hr) as (r' & E & L & U). exists r'.
  repeat split; [assumption|lia|lia].
Qed.

Lemma redact_adds ic pat by_ kind s o k :
  adds k (if String.eqb k kind then 1 else 0) o (snd (redact ic pat by_ kind (s, o))).
Proof.
  unfold redact. cbn [snd]. destruct (streq _ s).
  - apply (adds_weaken k 0); [lia|]. apply keeps_adds, keeps_refl.
  - intros r ->. cbn. eexists. split; [reflexivity|].
    unfold countRedaction. cbn [redactions]. rewrite tally_insert. fold (tally (redactions r) kind).
    destruct (String.eqb_spec k kind) as [->|_]; lia.
Qed.

Lemma removeIds_keeps st pat : keeps (snd st) (snd (removeIds st pat)).
Proof.
  destruct st as [s o]. unfold removeIds. cbn [snd]. destruct (streq _ s).
  - apply keeps_refl.
  - now apply keeps_map.
Qed.

Lemma fold_keeps {B : Type} (f : Cleaning -> B -> Cleaning) (l : list B) st :
  (forall st b, keeps (snd st) (snd (f st b))) ->
  keeps (snd st) (snd (fold_left f l st)).
Proof.
  intros Hf. revert st. induction l as [|b l IH]; intros st; cbn [fold_left].
  - apply keeps_refl.
  - eapply keeps_trans; [apply Hf|apply IH].
Qed.

Lemma removeTerm_keeps st term : keeps (snd st) (snd (removeTerm st term)).
Proof.
  destruct st as [s o]. unfold removeTerm. destruct (Regex.countMatches _ _ _); cbn [snd].
  - apply keeps_refl.
  - now apply keeps_map.
Qed.

Lemma applyCustomRemovals_keeps opts st :
  keeps (snd st) (snd (applyCustomRemovals opts st)).
Proof.
  destruct st as [s o]. unfold applyCustomRemovals.
  destruct (customTerms opts) as [|t ts] eqn:E; [apply keeps_refl|].
  destruct (negb (truthy s)); [apply keeps_refl|].
  pose proof (fold_keeps removeTerm (t :: ts) (s, o) removeTerm_keeps) as H.
  destruct (fold_left removeTerm (t :: ts) (s, o)) as [out rep]. exact H.
Qed.

Lemma normalizeMerchant_keeps opts c o :
  keeps o (snd (normalizeMerchant opts c o)).
Proof.
  unfold normalizeMerchant. destruct (negb (truthy c)); [apply keeps_refl|].
  pose proof (applyCustomRemovals_keeps opts (c, o)) as H.
  destruct (applyCustomRemovals opts (c, o)) as [s rep]. cbn [snd] in H.
  destruct (negb (truthy _)); cbn [snd]; [exact H|].
  destruct (_ && _); [|exact H].
  eapply keeps_trans; [exact H|]. now apply keeps_map.
Qed.


Lemma redact_step ic pat by_ kind st k :
  adds k (if String.eqb k kind then 1 else 0) (snd st)
       (snd (redact ic pat by_ kind st)).
Proof. destruct st as [s o]. apply redact_adds. Qed.

Lemma maskPiiSteps_adds st k :
  adds k (if existsb (String.eqb k) piiKinds then 1 else 0)
       (snd st) (snd (maskPiiSteps st)).
Proof.
  unfold maskPiiSteps. eapply adds_weaken; cycle 1.
  - repeat (eapply adds_trans; [|apply redact_step]).
    apply keeps_adds, keeps_refl.
  - pose proof (one_kind k). cbn [existsb piiKinds].
    repeat match goal with
           | |- context [String.eqb k ?x] => destruct (String.eqb k x)
           end; cbn; lia.
Qed.

Lemma sanitizeDescription_adds opts raw o k :
  adds k (if counted opts k then 1 else 0) o
       (snd (sanitizeDescription opts raw o)).
Proof.
  unfold sanitizeDescription.
  destruct (negb (truthy raw)); [apply (adds_weaken k 0); [lia|]; apply keeps_adds, keeps_refl|].
  cbv zeta.
  pose proof (applyCustomRemovals_keeps opts (trim raw, o)) as H0.
  set (st0 := applyCustomRemovals opts (trim raw, o)) in *. cbn [snd] in H0.
  set (st1 := if maskPii opts then maskPiiSteps st0 else st0).
  assert (H1 : adds k (if maskPii opts && existsb (String.eqb k) piiKinds then 1 else 0)
                    (snd st0) (snd st1)).
  { unfold st1. destruct (maskPii opts); cbn [andb].
    - apply maskPiiSteps_adds.
    - apply keeps_adds, keeps_refl. }
  pose proof (fold_keeps removeIds PATTERNS.ID_PATTERNS st1 removeIds_keeps) as H2.
  set (st2 := fold_left removeIds PATTERNS.ID_PATTERNS st1) in *.
  set (st3 := if scrubContacts opts
              then (Regex.replaceAll false PATTERNS.NAMES (js "Individual") (fst st2), snd st2)
              else st2).
  assert (H3 : snd st3 = snd st2) by (unfold st3; destruct (scrubContacts opts); reflexivity).
  set (st4 := if fuzzLocation opts
              then redact false PATTERNS.LOCATIONS " [LOC]" "location" st3
              else st3).
  assert (H4 : adds k (if fuzzLocation opts && String.eqb k "location" then 1 else 0)
                    (snd st3) (snd st4)).
  { unfold st4. destruct (fuzzLocation opts); cbn [andb].
    - apply redact_step.
    - apply keeps_adds, keeps_refl. }
  rewrite H3 in H4. clearbody st4. destruct st4 as [clean report]. cbn [snd] in *.
  eapply adds_weaken; cycle 1.
  - eapply adds_trans; [|exact H4].
    eapply adds_trans; [|apply keeps_adds; exact H2].
    eapply adds_trans; [|exact H1].
    apply keeps_adds. exact H0.
  - unfold counted.
    destruct (maskPii opts), (fuzzLocation opts); cbn [andb orb];
      try (destruct (existsb _ _); cbn; lia).
    destruct (existsb (String.eqb k) piiKinds) eqn:E; cbn [orb];
      [|destruct (String.eqb k "location"); lia].
    assert (String.eqb k "location" = false) as ->; [|lia].
    cbn in E. destruct (String.eqb_spec k "location") as [->|]; [discriminate E|reflexivity].
Qed.


Lemma rowStep_adds host opts ix d ro st row k :
  tally (redactions (report st)) k
  <= tally (redactions (report (fst (rowStep host opts ix d ro st row)))) k
  /\ tally (redactions (report (fst (rowStep host opts ix d ro st row)))) k
     <= tally (redactions (report st)) k + (if counted opts k then 1 else 0).
Proof.
  unfold rowStep. destruct (_ <? 2)%nat; [cbn; lia|].
  destruct (parseDateString host (cell row d)) as [[|c s]|]; try (cbn; lia).
  match goal with
  | |- context [sanitizeDescription opts ?raw ?o] =>
      pose proof (sanitizeDescription_adds opts raw o k) as Hs;
      destruct (sanitizeDescription opts raw o) as [cleanDesc rep]
  end.
  pose proof (normalizeMerchant_keeps opts cleanDesc rep) as Hm.
  destruct (normalizeMerchant opts cleanDesc rep) as [merchant rep'].
  cbn [snd] in Hs, Hm.
  destruct (Hs _ eq_refl) as (r1 & -> & L1 & U1).
  destruct (Hm _ eq_refl) as (r2 & -> & R2).
  repeat match goal with
         | |- context [let '(_, _) := ?x in _] => destruct x
         end.
  cbn [fst report from_option id]. rewrite R2. lia.
Qed.

Lemma loopBody_adds host opts ix d ro st row k :
  tally (redactions (report (loopBody host opts ix d ro st row))) k
  <= tally (redactions (report st)) k + (if counted opts k then 1 else 0).
Proof.
  pose proof (rowStep_adds host opts ix d ro st row k) as H.
  unfold loopBody. destruct (rowStep host opts ix d ro st row) as [st' [tx|]];
    cbn [fst] in H; [unfold pushTransaction; cbn [report]|]; lia.
Qed.

Lemma loop_adds host opts ix d ro rows st k :
  tally (redactions (report (fold_left (loopBody host opts ix d ro) rows st))) k
  <= tally (redactions (report st)) k
     + (if counted opts k then List.length rows else 0).
Proof.
  revert st. induction rows as [|row rows IH]; intros st; cbn [fold_left List.length].
  - destruct (counted opts k); lia.
  - specialize (IH (loopBody host opts ix d ro st row)).
    pose proof (loopBody_adds host opts ix d ro st row k).
    destruct (counted opts k); lia.
Qed.

(** The report that [processRows] returns is the one the loop built. *)
Lemma processRows_report host opts inputRows data :
  processRows host opts inputRows = Ok data ->
  exists ix d ro,
    removalReport (metadata data)
    = report (fold_left (loopBody host opts ix d ro) (tl (shapeRows inputRows))
                        (initialState opts)).
Proof.
  intros H. unfold processRows in H.
  set (rows := shapeRows inputRows) in *.
  set (ix := indicesOf (detectColumnsWithContext host rows)) in *.
  clearbody ix.
  destruct (List.length rows <? 2)%nat; [discriminate|].
  destruct (dateIdx ix) as [d|] eqn:Hd; [|discriminate].
  exists ix, d.
  destruct (amountIdx ix) eqn:Ha, (debitIdx ix) eqn:Hdb, (creditIdx ix) eqn:Hcr,
    (balanceIdx ix) eqn:Hb; try discriminate;
    injection H as <-; cbn; eexists; reflexivity.
Qed.

Lemma processRows_tally host opts inputRows data k :
  processRows host opts inputRows = Ok data ->
  redacted data k
  <= if counted opts k then List.length (tl (shapeRows inputRows)) else 0.
Proof.
  intros H. apply processRows_report in H as (ix & d & ro & H).
  unfold redacted. rewrite H.
  pose proof (loop_adds host opts ix d ro (tl (shapeRows inputRows))
                (initialState opts) k) as Hl.
  cbn [initialState report emptyReport redactions] in Hl.
  rewrite tally_empty in Hl. exact Hl.
Qed.

Lemma sampleRows_le host opts li g n :
  sampleRows (fst (preflightRows host opts li g n)) <= List.length (tl (shapeRows g)).
Proof.
  unfold preflightRows. cbn [fst sampleRows].
  generalize (Z.to_nat (1 + effectiveSampleSize n (shapeRows g))). intros k.
  generalize (shapeRows g). intros rows.
  destruct rows as [|h rows], k as [|k]; cbn [firstn tl List.length]; try lia.
  rewrite length_firstn. lia.
Qed.

End CountFacts.

(** C8, as the code has it: both reports count rows, not occurrences, and
    only [processRows] looks at the options.  For every kind, the count that
    [preflightRows] plans is at most the number of rows it sampled, and the
    rows it sampled are among the data rows; the count that [processRows]
    reports is at most the number of data rows when
    the options enable that kind ([maskPii] for card, ssn, email, phone, url,
    address and zip; [fuzzLocation] for location) and zero otherwise. *)
Theorem redaction_counts_bounded_by_rows
  (hostDate : jsstring -> option jsstring) (options : AnonymizerOptions)
  (li : LastIndex) (inputRows : grid) (sampleSize : option Z) (kind : string) :
  Spec.tally (plannedRedactions
                 (fst (preflightRows hostDate options li inputRows sampleSize))) kind
  <= sampleRows (fst (preflightRows hostDate options li inputRows sampleSize))
  /\ sampleRows (fst (preflightRows hostDate options li inputRows sampleSize))
     <= List.length (tl (shapeRows inputRows))
  /\ (forall data,
        processRows hostDate options inputRows = Ok data ->
        Spec.redacted data kind
        <= if Spec.counted options kind
           then List.length (tl (shapeRows inputRows)) else 0).
Proof.
  split; [apply CountFacts.preflight_tally|].
  split; [apply CountFacts.sampleRows_le|].
  intros data H.
  exact (CountFacts.processRows_tally hostDate options inputRows data kind H).
Qed.

(** C8 at the location statement with the default options: the plan counts
    at most the two sampled rows, and the result counts no location. *)
Lemma redaction_counts_bounded_by_rows_witness :
  exists data,
    processRows Spec.noHost defaultOptions Spec.locationStatement = Ok data
    /\ Spec.planned Spec.noHost defaultOptions Spec.locationStatement 2 "location" <= 2
    /\ Spec.redacted data "location" <= 0.
Proof.
  destruct (processRows Spec.noHost defaultOptions Spec.locationStatement)
    as [data|m] eqn:E.
  - exists data. split; [reflexivity|].
    destruct (redaction_counts_bounded_by_rows Spec.noHost defaultOptions
                freshLastIndex Spec.locationStatement (Some 2%Z) "location")
      as (Hplan & _ & Hdata).
    split; [exact Hplan|exact (Hdata data E)].
  - exfalso. vm_compute in E. discriminate E.
Defined.

(** C8, the claim as stated fails: on a statement of two data rows sampled
    at size 2 under the default options, the first description, [Store NY],
    makes [preflightRows] plan one location redaction, while [processRows]
    over the same two rows, with [fuzzLocation] off, reports none. *)
Lemma preflightRows_overstates_location :
  exists data,
    processRows Spec.noHost defaultOptions Spec.locationStatement = Ok data
    /\ List.length (tl (shapeRows Spec.locationStatement)) = 2
    /\ sampleRows (fst (preflightRows Spec.noHost defaultOptions freshLastIndex
                                      Spec.locationStatement (Some 2%Z))) = 2
    /\ Spec.planned Spec.noHost defaultOptions Spec.locationStatement 2 "location" = 1
    /\ Spec.redacted data "location" = 0
    /\ ~ (Spec.planned Spec.noHost defaultOptions Spec.locationStatement 2 "location"
          <= Spec.redacted data "location").
Proof.
  eexists. split; [vm_compute; reflexivity|].
  vm_compute. repeat split. lia.
Qed.

(** * Further properties *)

(** ** Patterns of one code unit *)

Module SingleFacts.
Import Regex.

(** A global replacement by a pattern that consumes exactly one code unit
    rewrites the text unit by unit. *)
Lemma replaceGo_single ic r (ok : N -> bool) f :
  (forall p, matchAt ic r p = step1 ok Some p) ->
  forall s pre idx,
    replaceGo ic r f pre idx 0 s
    = flat_map (fun c => if ok c then f [c] else [c]) s.
Proof.
  intros Hm. induction s as [|c t IH]; intros pre idx; cbn [replaceGo flat_map].
  - rewrite Hm. reflexivity.
  - rewrite Hm. unfold step1. cbn [prest pidx].
    destruct (ok c); cbn [pidx].
    + replace (S idx - idx)%nat with 1%nat by lia. cbn [firstn].
      rewrite IH. reflexivity.
    + rewrite IH. reflexivity.
Qed.

Lemma replaceAll_Char c by_ s :
  replaceAll false (Char c) by_ s
  = flat_map (fun x => if (c =? x)%N then by_ else [x]) s.
Proof.
  unfold replaceAll, replaceAllWith.
  apply (replaceGo_single false (Char c) (fun x => (c =? x)%N)).
  reflexivity.
Qed.

Lemma replaceAll_Class neg items by_ s :
  replaceAll false (Class neg items) by_ s
  = flat_map (fun x => if classMatches false neg items x then by_ else [x]) s.
Proof.
  unfold replaceAll, replaceAllWith.
  apply (replaceGo_single false (Class neg items) (classMatches false neg items)).
  reflexivity.
Qed.

End SingleFacts.

(** ** The CSV reader *)

Module CsvFacts.

Definition trimmedRow (r : list jsstring) : Prop :=
  r <> [] /\ Forall (fun c => trim c = c) r.

Lemma endRow_rows (P : list jsstring -> Prop) st :
  Forall P (csvRows st) ->
  P (currentRow st ++ [trim (currentVal st)]) ->
  Forall P (csvRows (endRow st)).
Proof.
  intros Hr Hc. unfold endRow. destruct (_ || _); cbn [csvRows]; [|assumption].
  apply Forall_app. split; [assumption|]. constructor; [assumption|constructor].
Qed.

Lemma endRow_currentRow st : currentRow (endRow st) = [] \/ endRow st = st.
Proof. unfold endRow. destruct (_ || _); [left; reflexivity|right; reflexivity]. Qed.

Lemma trimmedRow_push row v :
  Forall (fun c => trim c = c) row -> trimmedRow (row ++ [trim v]).
Proof.
  intros H. split.
  - destruct row; discriminate.
  - apply Forall_app. split; [assumption|].
    constructor; [apply TextFacts.trim_idem|constructor].
Qed.

Lemma csvStep_keeps char next st :
  Forall trimmedRow (csvRows st) ->
  Forall (fun c => trim c = c) (currentRow st) ->
  Forall trimmedRow (csvRows (fst (csvStep char next st)))
  /\ Forall (fun c => trim c = c) (currentRow (fst (csvStep char next st))).
Proof.
  intros Hr Hc. unfold csvStep.
  repeat match goal with
         | |- context [if ?b then _ else _] => destruct b
         end; cbn [fst csvRows currentRow]; try (split; assumption).
  - split; [assumption|]. apply Forall_app. split; [assumption|].
    constructor; [apply TextFacts.trim_idem|constructor].
  - split.
    + apply endRow_rows; [assumption|now apply trimmedRow_push].
    + destruct (endRow_currentRow st) as [->| ->]; [constructor|assumption].
Qed.

Lemma csvLoop_keeps text : forall skip st,
  Forall trimmedRow (csvRows st) ->
  Forall (fun c => trim c = c) (currentRow st) ->
  Forall trimmedRow (csvRows (csvLoop text skip st))
  /\ Forall (fun c => trim c = c) (currentRow (csvLoop text skip st)).
Proof.
  induction text as [|char rest IH]; intros skip st Hr Hc; cbn [csvLoop].
  - split; assumption.
  - destruct skip; [now apply IH|].
    pose proof (csvStep_keeps char (head rest) st Hr Hc) as [Hr' Hc'].
    destruct (csvStep char (head rest) st) as [st' skip']. now apply IH.
Qed.

Lemma parseCSV_trimmed (text : jsstring) : Forall trimmedRow (parseCSV text).
Proof.
  unfold parseCSV.
  destruct (csvLoop_keeps text false csvStart) as [Hr Hc];
    [constructor|constructor|].
  apply endRow_rows; [exact Hr|].
  now apply trimmedRow_push.
Qed.

End CsvFacts.

(** X1: Every row that [parseCSV] returns has at least one cell, and every cell
    is trimmed: trimming it again changes nothing. *)
Theorem parseCSV_rows_nonempty_cells_trimmed (text : jsstring) :
  Forall (fun row => row <> [] /\ Forall (fun c => trim c = c) row) (parseCSV text).
Proof. exact (CsvFacts.parseCSV_trimmed text). Qed.

Module RoundTripFacts.
Import Spec.

Definition withVal (st : CsvState) (v : jsstring) (q : bool) : CsvState :=
  {| csvRows := csvRows st; currentRow := currentRow st;
     currentVal := v; insideQuote := q |}.

Lemma field_body (v : jsstring) : forall rest st,
  insideQuote st = true ->
  head rest <> Some QUOTE ->
  csvLoop (flat_map (fun x => if (QUOTE =? x)%N then [QUOTE; QUOTE] else [x]) v
           ++ QUOTE :: rest) false st
  = csvLoop rest false (withVal st (currentVal st ++ v) false).
Proof.
  induction v as [|x v IH]; intros rest st Hq Hrest.
  - cbn [flat_map app csvLoop]. unfold csvStep. rewrite N.eqb_refl, Hq.
    rewrite bool_decide_eq_false_2 by assumption. cbn [andb negb].
    unfold withVal. now rewrite app_nil_r.
  - cbn [flat_map]. destruct (N.eqb_spec QUOTE x) as [<-|Hx].
    + cbn [app csvLoop head]. unfold csvStep at 1. rewrite N.eqb_refl, Hq.
      rewrite bool_decide_eq_true_2 by reflexivity. cbn [andb].
      rewrite IH by (assumption || reflexivity).
      unfold withVal. cbn [csvRows currentRow currentVal].
      now rewrite <- app_assoc.
    + cbn [app csvLoop]. unfold csvStep at 1.
      replace (x =? QUOTE)%N with false by (symmetry; apply N.eqb_neq; congruence).
      rewrite Hq. cbn [negb]. rewrite !andb_false_r.
      rewrite IH by (assumption || reflexivity).
      unfold withVal. cbn [csvRows currentRow currentVal].
      now rewrite <- app_assoc.
Qed.

Lemma field (v rest : jsstring) st :
  insideQuote st = false ->
  head rest <> Some QUOTE ->
  csvLoop (csvField v ++ rest) false st
  = csvLoop rest false (withVal st (currentVal st ++ v) false).
Proof.
  intros Hq Hrest. unfold csvField.
  unfold DQUOTE. rewrite SingleFacts.replaceAll_Char.
  cbn [app csvLoop]. unfold csvStep at 1. rewrite N.eqb_refl, Hq. cbn [andb negb].
  rewrite <- app_assoc. cbn [app].
  rewrite field_body by (assumption || reflexivity). reflexivity.
Qed.

Lemma line (r : list jsstring) : forall rest st,
  r <> [] ->
  insideQuote st = false -> currentVal st = [] ->
  head rest <> Some QUOTE -> head rest <> Some COMMA ->
  csvLoop (csvLine r ++ rest) false st
  = csvLoop rest false
      {| csvRows := csvRows st;
         currentRow := currentRow st ++ map trim (removelast r);
         currentVal := List.last r [];
         insideQuote := false |}.
Proof.
  induction r as [|c r IH]; intros rest st Hne Hq Hv Hr1 Hr2; [congruence|].
  destruct r as [|c2 r].
  - unfold csvLine. cbn [map join]. rewrite field by assumption.
    unfold withVal. rewrite Hv. cbn [removelast map List.last app]. now rewrite app_nil_r.
  - unfold csvLine. cbn [map join]. fold (csvLine (c2 :: r)) in *.
    change (join [COMMA] (csvField c2 :: map csvField r)) with (csvLine (c2 :: r)).
    rewrite <- !app_assoc. rewrite field by (assumption || (cbn; discriminate)).
    cbn [app csvLoop]. unfold csvStep at 1. cbn [withVal insideQuote].
    change (COMMA =? QUOTE)%N with false. rewrite N.eqb_refl. cbn [andb negb].
    rewrite IH; cbn [insideQuote currentVal csvRows currentRow withVal];
      try assumption; try reflexivity; [|discriminate].
    rewrite Hv. cbn [app]. rewrite <- app_assoc. reflexivity.
Qed.


Lemma readable_spec (r : list jsstring) :
  truthy (List.last r []) || (0 <? List.length (removelast r))%nat = readable r.
Proof.
  destruct r as [|c [|c2 r]]; [reflexivity|destruct c; reflexivity|].
  destruct c; cbn [readable]; apply orb_true_iff; right; reflexivity.
Qed.

Lemma map_trim_snoc (r : list jsstring) :
  r <> [] -> map trim (removelast r) ++ [trim (List.last r [])] = map trim r.
Proof.
  intros H. rewrite (app_removelast_last [] H) at 3.
  now rewrite map_app.
Qed.

(** What the end of a written line does to a state that is between rows. *)
Lemma endRow_line (r : list jsstring) (rows : grid) (q : bool) :
  r <> [] ->
  endRow {| csvRows := rows; currentRow := [] ++ map trim (removelast r);
            currentVal := List.last r []; insideQuote := q |}
  = if readable r
    then {| csvRows := rows ++ [map trim r]; currentRow := []; currentVal := [];
            insideQuote := q |}
    else {| csvRows := rows; currentRow := []; currentVal := []; insideQuote := q |}.
Proof.
  intros H. unfold endRow. cbn [currentVal currentRow csvRows insideQuote app].
  rewrite List.length_map, readable_spec. destruct (readable r) eqn:E.
  - now rewrite map_trim_snoc.
  - destruct r as [|c [|c2 r]]; [congruence| |destruct c; discriminate E].
    destruct c; [reflexivity|discriminate E].
Qed.

Lemma text_rows (rows : grid) : forall st,
  insideQuote st = false -> currentVal st = [] -> currentRow st = [] ->
  csvRows (endRow (csvLoop (csvText rows) false st))
  = csvRows st ++ map (map trim) (List.filter readable rows).
Proof.
  induction rows as [|r rows IH]; intros [rs cr cv q] Hq Hv Hc;
    cbn [insideQuote currentVal currentRow] in Hq, Hv, Hc; subst.
  - cbn. now rewrite app_nil_r.
  - destruct rows as [|r2 rows].
    + unfold csvText. cbn [map join List.filter].
      destruct r as [|c r].
      * cbn. now rewrite app_nil_r.
      * rewrite <- (app_nil_r (csvLine (c :: r))).
        rewrite line; try reflexivity; try discriminate.
        cbn [csvLoop csvRows currentRow].
        rewrite endRow_line by discriminate.
        destruct (readable (c :: r)); cbn [csvRows map]; [reflexivity|now rewrite app_nil_r].
    + unfold csvText. cbn [map join]. fold (csvText (r2 :: rows)).
      change (join [LF] (csvLine r2 :: map csvLine rows)) with (csvText (r2 :: rows)).
      destruct r as [|c r].
      * cbn [csvLine map join app csvLoop]. unfold csvStep.
        cbn [insideQuote]. change (LF =? QUOTE)%N with false.
        change (LF =? COMMA)%N with false. cbn [andb orb negb].
        change (LF =? LF)%N with true. change (LF =? CR)%N with false.
        cbn [andb orb negb]. unfold endRow at 2. cbn [currentVal currentRow truthy orb List.length Nat.ltb Nat.leb].
        rewrite IH by reflexivity. reflexivity.
      * rewrite line; try reflexivity; try discriminate.
        cbn [app csvLoop]. unfold csvStep. cbn [insideQuote].
        change (LF =? QUOTE)%N with false.
        change (LF =? COMMA)%N with false. cbn [andb orb negb].
        change (LF =? LF)%N with true. change (LF =? CR)%N with false.
        cbn [andb orb negb csvRows currentRow].
        rewrite endRow_line by discriminate.
        cbn [List.filter].
        destruct (readable (c :: r)); rewrite IH by reflexivity; cbn [csvRows map].
        -- now rewrite <- app_assoc.
        -- reflexivity.
Qed.

End RoundTripFacts.

(** X2: Text written field by field as the [csv] branch of [formatData] writes
    text fields (between double quotes, inner quotes doubled, fields joined
    by commas, lines by line feeds) is read back by [parseCSV] cell for
    cell, each cell trimmed, whatever the cells contain; a row without
    fields or with one empty field leaves an empty line, which is skipped. *)
Theorem parseCSV_reads_back_quoted_fields (rows : grid) :
  parseCSV (Spec.csvText rows)
  = map (map trim) (List.filter Spec.readable rows).
Proof.
  unfold parseCSV.
  now rewrite (RoundTripFacts.text_rows rows csvStart).
Qed.

Module HeaderFacts.

Lemma endRow_extends st : exists more, csvRows (endRow st) = csvRows st ++ more.
Proof.
  unfold endRow. destruct (_ || _); cbn [csvRows]; eauto.
  exists []. now rewrite app_nil_r.
Qed.

Lemma csvStep_extends char next st :
  exists more, csvRows (fst (csvStep char next st)) = csvRows st ++ more.
Proof.
  unfold csvStep.
  repeat match goal with
         | |- context [if ?b then _ else _] => destruct b
         end; cbn [fst csvRows];
    try (exists []; now rewrite app_nil_r).
  apply endRow_extends.
Qed.

Lemma csvLoop_extends text : forall skip st,
  exists more, csvRows (csvLoop text skip st) = csvRows st ++ more.
Proof.
  induction text as [|char rest IH]; intros skip st; cbn [csvLoop].
  - exists []. now rewrite app_nil_r.
  - destruct skip; [apply IH|].
    destruct (csvStep_extends char (head rest) st) as [m1 H1].
    destruct (csvStep char (head rest) st) as [st' skip']. cbn [fst] in H1.
    destruct (IH skip' st') as [m2 H2]. exists (m1 ++ m2).
    now rewrite H2, H1, app_assoc.
Qed.

(** The first row, once read, stays the first row. *)
Lemma first_row_stays text skip st row rows :
  csvRows st = row :: rows ->
  hd [] (csvRows (endRow (csvLoop text skip st))) = row.
Proof.
  intros H. destruct (csvLoop_extends text skip st) as [m1 H1].
  destruct (endRow_extends (csvLoop text skip st)) as [m2 H2].
  now rewrite H2, H1, H.
Qed.

Definition headerOf (h : HeaderState) : list jsstring :=
  if truthy (headerVal h) || (0 <? List.length (headers h))%nat
  then headers h ++ [trim (headerVal h)]
  else headers h.

Lemma headerOf_endRow st h :
  csvRows st = [] -> currentRow st = headers h -> currentVal st = headerVal h ->
  headerOf h <> [] ->
  exists q, endRow st = {| csvRows := [headerOf h]; currentRow := [];
                           currentVal := []; insideQuote := q |}.
Proof.
  intros Hr Hc Hv Hne. unfold endRow, headerOf in *. rewrite Hc, Hv, Hr.
  destruct (_ || _) eqn:E.
  - eexists. reflexivity.
  - apply orb_false_iff in E as [_ E]. destruct (headers h); [congruence|discriminate E].
Qed.

Lemma simulation text : forall skip st h,
  csvRows st = [] -> currentRow st = headers h -> currentVal st = headerVal h ->
  insideQuote st = headerQuote h ->
  headerOf (headerLoop text skip h) <> [] ->
  hd [] (csvRows (endRow (csvLoop text skip st))) = headerOf (headerLoop text skip h).
Proof.
  induction text as [|ch rest IH]; intros skip st h Hr Hc Hv Hq Hne;
    cbn [csvLoop headerLoop] in *.
  - destruct (headerOf_endRow st h Hr Hc Hv Hne) as [q ->]. reflexivity.
  - destruct skip; [now apply IH|].
    unfold csvStep. rewrite Hq.
    destruct (ch =? QUOTE)%N.
    { destruct (headerQuote h && bool_decide (head rest = Some QUOTE));
        apply IH; cbn; congruence. }
    rewrite (andb_comm (ch =? COMMA)%N).
    destruct (negb (headerQuote h) && (ch =? COMMA)%N).
    { apply IH; cbn; congruence. }
    rewrite (andb_comm ((ch =? LF)%N || (ch =? CR)%N)).
    destruct (negb (headerQuote h) && ((ch =? LF)%N || (ch =? CR)%N)).
    { destruct (headerOf_endRow st h Hr Hc Hv Hne) as [q ->].
      now apply first_row_stays with (rows := []). }
    apply IH; cbn; congruence.
Qed.

End HeaderFacts.

(** X3: When [parseCSVHeaderRow] of the application script finds a header, it is
    the first row that [parseCSV] reads from the same text. *)
Theorem parseCSVHeaderRow_is_first_parsed_row (text : jsstring) :
  parseCSVHeaderRow text <> [] ->
  hd [] (parseCSV text) = parseCSVHeaderRow text.
Proof.
  intros H. unfold parseCSV.
  apply (HeaderFacts.simulation text false csvStart
           {| headers := []; headerVal := []; headerQuote := false |});
    try reflexivity.
  exact H.
Qed.

Lemma parseCSVHeaderRow_is_first_parsed_row_witness :
  hd [] (parseCSV (js "Date,Amount")) = parseCSVHeaderRow (js "Date,Amount").
Proof.
  apply parseCSVHeaderRow_is_first_parsed_row. vm_compute. discriminate.
Defined.

(** ** Shaping twice *)

Module ReshapeFacts.
Import Regex.

Lemma hasContent_app (r x : list jsstring) :
  hasContent r = true -> hasContent (r ++ x) = true.
Proof. unfold hasContent. rewrite existsb_app. now intros ->. Qed.

Lemma stripBom_app (h names : list jsstring) :
  h <> [] -> stripBom h = h -> stripBom (h ++ names) = h ++ names.
Proof.
  destruct h as [|c h]; [congruence|]. cbn [stripBom app].
  intros _ [= H]. now rewrite H.
Qed.

Lemma hasContent_nonempty (r : list jsstring) : hasContent r = true -> r <> [].
Proof. destruct r; [discriminate|discriminate]. Qed.

Lemma maxWidth_rectangle (w : nat) (rows : grid) :
  Forall (fun r => List.length r = w) rows -> maxWidth w rows = w.
Proof.
  unfold maxWidth. induction 1 as [|r rows Hr _ IH]; cbn [fold_left]; [reflexivity|].
  rewrite Hr, Nat.max_id. exact IH.
Qed.

Lemma filter_all {A : Type} (p : A -> bool) (l : list A) :
  Forall (fun x => p x = true) l -> List.filter p l = l.
Proof.
  induction 1 as [|x l Hx _ IH]; cbn [List.filter]; [reflexivity|].
  now rewrite Hx, IH.
Qed.

Lemma filter_Forall {A : Type} (p : A -> bool) (l : list A) :
  Forall (fun x => p x = true) (List.filter p l).
Proof.
  apply List.Forall_forall. intros x Hx. now apply filter_In in Hx.
Qed.

(** A cell that trimming leaves alone does not begin with a byte-order
    mark, which [trim] counts as white space. *)
Lemma trimmed_no_bom (c : jsstring) : trim c = c -> replaceFirst false BOM [] c = c.
Proof.
  intros H. unfold replaceFirst, BOM.
  destruct c as [|x t]; [reflexivity|].
  cbn [searchFrom matchAt rmatch ppre step1 prest canon].
  destruct (65279 =? x)%N eqn:E.
  - exfalso. apply N.eqb_eq in E. subst x.
    assert (Hlen : List.length (trim (65279%N :: t)) = List.length (65279%N :: t))
      by now rewrite H.
    unfold trim in Hlen.
    change (trimStart (65279%N :: t)) with (trimStart t) in Hlen.
    rewrite TextFacts.trimEnd_firstn, length_firstn in Hlen.
    rewrite TextFacts.trimStart_skipn, length_skipn in Hlen.
    cbn [List.length] in Hlen. lia.
  - now rewrite SuffixFacts.searchFrom_anchored.
Qed.

Lemma shapeRows_fixed (rows : grid) :
  stripBom (hd [] (List.filter hasContent rows)) = hd [] (List.filter hasContent rows) ->
  shapeRows (shapeRows rows) = shapeRows rows.
Proof.
  intros Hbom. unfold shapeRows at 2 3.
  pose proof (filter_Forall hasContent rows) as Hkept.
  destruct (List.filter hasContent rows) as [|first data]; [reflexivity|].
  cbn [hd] in Hbom. rewrite Hbom.
  inversion Hkept as [|? ? Hfirst Hdata]; subst.
  set (w := maxWidth (List.length first) data).
  pose proof (ShapeFacts.maxWidth_ge_start data (List.length first)) as Hw. fold w in Hw.
  destruct (ShapeFacts.growHeader_prefix (w - List.length first) first)
    as (names & Hgrow & Hnames).
  assert (Hrect : Forall (fun r => List.length r = w)
                    (map (fun row => padRow (w - List.length row) row) data)).
  { apply List.Forall_forall. intros r Hr.
    apply in_map_iff in Hr as (r0 & <- & Hin).
    rewrite ShapeFacts.padRow_app, length_app, repeat_length.
    pose proof (ShapeFacts.maxWidth_ge_row data (List.length first) r0 Hin) as H.
    fold w in H. lia. }
  assert (Hstrip : stripBom (growHeader (w - List.length first) first)
                   = growHeader (w - List.length first) first).
  { rewrite Hgrow. apply stripBom_app; [now apply hasContent_nonempty|assumption]. }
  assert (Hlen : List.length (growHeader (w - List.length first) first) = w)
    by (rewrite ShapeFacts.growHeader_length; lia).
  unfold shapeRows. rewrite filter_all.
  - rewrite Hstrip, Hlen, (maxWidth_rectangle w _ Hrect), Nat.sub_diag.
    cbn [growHeader]. f_equal.
    rewrite <- (map_id (map _ data)) at 2.
    apply map_ext_in. intros r Hr. rewrite List.Forall_forall in Hrect.
    rewrite (Hrect r Hr), Nat.sub_diag. reflexivity.
  - constructor.
    + rewrite Hgrow. now apply hasContent_app.
    + apply List.Forall_forall. intros r Hr.
      apply in_map_iff in Hr as (r0 & <- & Hin).
      rewrite ShapeFacts.padRow_app. apply hasContent_app.
      rewrite List.Forall_forall in Hdata. now apply Hdata.
Qed.

End ReshapeFacts.

(** X4: Shaping a shaped grid changes nothing, provided the first cell of the
    first kept row does not begin with a byte-order mark (so that the header
    is not stripped a second time). *)
Theorem shapeRows_idempotent_without_bom (rows : grid) :
  stripBom (hd [] (List.filter hasContent rows)) = hd [] (List.filter hasContent rows) ->
  shapeRows (shapeRows rows) = shapeRows rows.
Proof. apply ReshapeFacts.shapeRows_fixed. Qed.

Lemma shapeRows_idempotent_without_bom_witness :
  shapeRows (shapeRows Spec.balanceStatement) = shapeRows Spec.balanceStatement.
Proof.
  apply shapeRows_idempotent_without_bom. vm_compute. reflexivity.
Defined.

(** X5: [process] shapes the parsed text and [processRows] shapes it again; the
    second shaping changes nothing, so that processing a text is processing
    the rows that [parseCSV] reads from it. *)
Theorem process_is_processRows_of_parseCSV
  (hostDate : jsstring -> option jsstring) (options : AnonymizerOptions)
  (csvText : jsstring) :
  process hostDate options csvText = processRows hostDate options (parseCSV csvText).
Proof.
  unfold process, processRows.
  rewrite ReshapeFacts.shapeRows_fixed; [reflexivity|].
  assert (Hin : forall r, In r (List.filter hasContent (parseCSV csvText)) ->
                          Forall (fun c => trim c = c) r).
  { intros r Hr. apply filter_In in Hr as [Hr _].
    pose proof (CsvFacts.parseCSV_trimmed csvText) as H.
    rewrite List.Forall_forall in H. now apply H. }
  destruct (List.filter hasContent (parseCSV csvText)) as [|first data]; [reflexivity|].
  cbn [hd]. specialize (Hin first (or_introl eq_refl)).
  destruct first as [|c first]; [reflexivity|]. cbn [stripBom].
  inversion Hin; subst. now rewrite ReshapeFacts.trimmed_no_bom.
Qed.

(** ** What the loop of [processRows] records *)

Module RecordFacts.
Import Spec.

(** How [processRows] returns: the state the loop ended in. *)
Lemma processRows_final host opts inputRows data :
  processRows host opts inputRows = Ok data ->
  let rows := shapeRows inputRows in
  let ix := indicesOf (detectColumnsWithContext host rows) in
  exists d ro,
    dateIdx ix = Some d
    /\ ro = Dialect.inferRowOrderFromDates
              (map (fun r => parseDateString host (cell r d)) (tl rows))
    /\ detectedColumnsList (metadata data) = detectColumnsWithContext host rows
    /\ transactions data
       = txs (fold_left (loopBody host opts ix d ro) (tl rows) (initialState opts))
    /\ skipSummary (metadata data)
       = skips (fold_left (loopBody host opts ix d ro) (tl rows) (initialState opts))
    /\ inferenceSummary (metadata data) = summarize (transactions data)
    /\ sanitizedRowCount (metadata data) = List.length (transactions data)
    /\ originalRowCount (metadata data) = List.length rows
    /\ (2 <= List.length rows)%nat.
Proof.
  intros H. cbv zeta. unfold processRows in H.
  set (rows := shapeRows inputRows) in *.
  set (ix := indicesOf (detectColumnsWithContext host rows)) in *.
  clearbody ix.
  destruct (List.length rows <? 2)%nat eqn:Hlen; [discriminate|].
  apply Nat.ltb_ge in Hlen.
  destruct (dateIdx ix) as [d|] eqn:Hd; [|discriminate].
  exists d. eexists. split; [reflexivity|]. split; [reflexivity|].
  destruct (amountIdx ix) eqn:Ha, (debitIdx ix) eqn:Hdb, (creditIdx ix) eqn:Hcr,
    (balanceIdx ix) eqn:Hb; try discriminate;
    injection H as <-; cbn; repeat split; try reflexivity; exact Hlen.
Qed.

Lemma nan_of_comparisons (a : number) :
  flt a zero = false -> fgt a zero = false -> feq a zero = false -> isNaN a = true.
Proof. destruct a as [[]|[]| |[] m e]; cbn; congruence. Qed.

Lemma above_cent_nonzero (delta : number) :
  fgt (fabs delta) (lit "0.01") = true -> feq delta zero = false.
Proof. destruct delta as [[]|[]| |[] m e]; cbn; try reflexivity; vm_compute; congruence. Qed.

(** The amount under resolution is either untouched or a balance delta
    other than zero. *)
Definition fromBalance (res : Resolved) : Prop :=
  res = (zero, Dialect.expense, Inference.fallback)
  \/ (snd res = Inference.derived_from_balance /\ feq (fst (fst res)) zero = false).

Lemma balanceDelta_source ro rawDesc bal last recent sk :
  fromBalance (fst (fst (fst (balanceDelta ro rawDesc bal last recent sk)))).
Proof.
  unfold balanceDelta, fromBalance.
  repeat case_match; cbn; auto.
  all: right; split; [reflexivity|]; now apply above_cent_nonzero.
Qed.

Lemma explicitAmount_source ix row res :
  fromBalance res ->
  let out := explicitAmount ix row res in
  out = res
  \/ (snd out = Inference.explicit
      /\ (is_Some (amountIdx ix)
          \/ (is_Some (debitIdx ix) /\ is_Some (creditIdx ix))))
  \/ (snd out = Inference.fallback
      /\ (feq (fst (fst out)) zero = false -> isNaN (fst (fst out)) = true)).
Proof.
  intros Hres. cbv zeta. unfold explicitAmount.
  destruct res as [[fa ty] inf].
  repeat case_match; simplify_eq; cbn; auto.
  all: try (right; left; split; [reflexivity|]; eauto; fail).
  all: destruct Hres as [Hres|[Hres Hnz]]; simplify_eq; cbn in *; try congruence.
  all: right; right; split; [reflexivity|]; intros Hne;
    apply nan_of_comparisons; assumption.
Qed.

Lemma rowStep_provenance host opts ix d ro st row st' tx :
  rowStep host opts ix d ro st row = (st', Some tx) -> provenance ix tx.
Proof.
  unfold rowStep. intros H.
  destruct (List.length row <? 2)%nat; [discriminate|].
  destruct (parseDateString host (cell row d)) as [[|c s]|]; try discriminate.
  destruct (sanitizeDescription opts _ _) as [cleanDesc rep].
  destruct (normalizeMerchant opts cleanDesc rep) as [merchant rep'].
  set (bd := match balanceIdx ix with
             | Some b => balanceDelta ro _ (cleanCurrency (cell row b))
                           (lastValidBalance st) (recentAbsDeltas st) (skips st)
             | None => _
             end) in H.
  assert (Hbd : fromBalance (fst (fst (fst bd)))
                /\ (snd (fst (fst (fst bd))) = Inference.derived_from_balance ->
                    is_Some (balanceIdx ix))).
  { unfold bd. destruct (balanceIdx ix) as [b|].
    - split; [apply balanceDelta_source|eauto].
    - split; [left; reflexivity|discriminate]. }
  destruct bd as [[[res last] recent] sk]. cbn [fst snd] in Hbd.
  destruct Hbd as [Hfrom Hbal].
  pose proof (explicitAmount_source ix row res Hfrom) as Hexp. cbv zeta in Hexp.
  destruct (explicitAmount ix row res) as [[fa ty] inf].
  destruct (negb (feq fa zero)) eqn:Hnz; [|discriminate].
  injection H as _ <-. unfold provenance. cbn [inferenceSource txAmount].
  apply negb_true_iff in Hnz.
  destruct Hexp as [<-|[[Hi Hcols]|[Hi Hnan]]]; cbn [fst snd] in *.
  - destruct Hfrom as [[= -> -> ->]|[Hi _]]; cbn [snd] in *.
    + vm_compute in Hnz. discriminate.
    + subst inf. now apply Hbal.
  - subst inf. exact Hcols.
  - subst inf. now apply Hnan.
Qed.

Lemma tally_incSkip (m : gmap string nat) (k key : string) :
  tally (incSkip key m) k
  = if String.eqb k key then tally m key + 1 else tally m k.
Proof. unfold incSkip. now rewrite CountFacts.tally_insert. Qed.

Lemma balanceDelta_skips_only_suspect ro rawDesc bal last recent sk k :
  k <> "suspect_balance_row"%string ->
  tally (snd (balanceDelta ro rawDesc bal last recent sk)) k = tally sk k.
Proof.
  intros Hk. unfold balanceDelta.
  repeat case_match; cbn [snd]; try reflexivity.
  all: rewrite tally_incSkip; destruct (String.eqb_spec k "suspect_balance_row"); congruence.
Qed.

Lemma rowStep_bad_date host opts ix d ro st row :
  tally (skips (fst (rowStep host opts ix d ro st row))) "bad_date"
  = tally (skips st) "bad_date" + (if badDate host d row then 1 else 0).
Proof.
  unfold rowStep, badDate.
  destruct (List.length row <? 2)%nat eqn:Hlen.
  - apply Nat.ltb_lt in Hlen. replace (2 <=? List.length row)%nat with false
      by (symmetry; apply Nat.leb_gt; lia). cbn. lia.
  - apply Nat.ltb_ge in Hlen. replace (2 <=? List.length row)%nat with true
      by (symmetry; apply Nat.leb_le; lia). cbn [andb].
    destruct (parseDateString host (cell row d)) as [[|c s]|]; cbn [default from_option id truthy negb].
    + cbn [fst skips]. rewrite tally_incSkip. cbn. reflexivity.
    + destruct (sanitizeDescription opts _ _) as [cleanDesc rep].
      destruct (normalizeMerchant opts cleanDesc rep) as [merchant rep'].
      destruct (balanceIdx ix) as [b|].
      * match goal with
        | |- context [balanceDelta ?a ?b ?c ?e ?f ?g] =>
            pose proof (balanceDelta_skips_only_suspect a b c e f g "bad_date") as Hs;
            destruct (balanceDelta a b c e f g) as [[[res last] recent] sk]
        end.
        cbn [snd] in Hs. destruct (explicitAmount ix row res) as [[fa ty] inf].
        cbn [fst skips]. rewrite Hs by discriminate. lia.
      * destruct (explicitAmount ix row _) as [[fa ty] inf]. cbn [fst skips]. lia.
    + cbn [fst skips]. rewrite tally_incSkip. cbn. reflexivity.
Qed.

Lemma loopBody_skips host opts ix d ro st row :
  skips (loopBody host opts ix d ro st row)
  = skips (fst (rowStep host opts ix d ro st row)).
Proof.
  unfold loopBody. destruct (rowStep host opts ix d ro st row) as [st' [tx|]]; reflexivity.
Qed.

Lemma loop_bad_dates host opts ix d ro rows : forall st,
  tally (skips (fold_left (loopBody host opts ix d ro) rows st)) "bad_date"
  = tally (skips st) "bad_date" + List.length (List.filter (badDate host d) rows).
Proof.
  induction rows as [|row rows IH]; intros st; cbn [fold_left List.filter].
  - cbn. lia.
  - rewrite IH, loopBody_skips, rowStep_bad_date.
    destruct (badDate host d row); cbn [List.length]; lia.
Qed.

Lemma summarize_tally (txs : list SanitizedTransaction) (k : string) :
  forall m,
    tally (fold_left
             (fun m t =>
                let key := Inference.name (inferenceSource t) in
                insert key (default 0 (m !! key) + 1) m) txs m) k
    = tally m k
      + List.length
          (List.filter (fun t => String.eqb k (Inference.name (inferenceSource t))) txs).
Proof.
  induction txs as [|t txs IH]; intros m; cbn [fold_left List.filter].
  - cbn. lia.
  - rewrite IH. cbv zeta. rewrite CountFacts.tally_insert.
    fold (tally m (Inference.name (inferenceSource t))).
    destruct (String.eqb_spec k (Inference.name (inferenceSource t))) as [->|_];
      cbn [List.length]; lia.
Qed.

End RecordFacts.

(** X6: Where amounts come from: a transaction that [processRows] returns is
    derived from the balance only if a balance column was found, is
    explicit only if an amount column or both a debit and a credit column
    were found, is never derived from the description, and carries the
    source [fallback] only with an amount that is not a number. *)
Theorem processRows_amount_provenance
  (hostDate : jsstring -> option jsstring) (options : AnonymizerOptions)
  (inputRows : grid) (data : SanitizedData) :
  processRows hostDate options inputRows = Ok data ->
  Forall (Spec.provenance (indicesOf (detectedColumnsList (metadata data))))
         (transactions data).
Proof.
  intros H.
  apply RecordFacts.processRows_final in H as (d & ro & _ & _ & -> & -> & _).
  apply LoopFacts.fold_invariant; [|constructor].
  intros st row st' tx Hstep. exact (RecordFacts.rowStep_provenance _ _ _ _ _ _ _ _ _ Hstep).
Qed.

Lemma processRows_amount_provenance_witness :
  exists data,
    processRows Spec.noHost defaultOptions Spec.typedStatement = Ok data
    /\ Forall (Spec.provenance (indicesOf (detectedColumnsList (metadata data))))
              (transactions data).
Proof.
  destruct (processRows Spec.noHost defaultOptions Spec.typedStatement)
    as [data|m] eqn:E.
  - exists data. split; [reflexivity|].
    exact (processRows_amount_provenance _ _ _ _ E).
  - exfalso. vm_compute in E. discriminate E.
Defined.

(** X7: The skip summary counts under [bad_date] exactly the data rows of two
    or more cells whose date cell does not parse to a date. *)
Theorem processRows_counts_bad_dates
  (hostDate : jsstring -> option jsstring) (options : AnonymizerOptions)
  (inputRows : grid) (data : SanitizedData) :
  processRows hostDate options inputRows = Ok data ->
  exists d,
    dateIdx (indicesOf (detectedColumnsList (metadata data))) = Some d
    /\ Spec.tally (skipSummary (metadata data)) "bad_date"
       = List.length (List.filter (Spec.badDate hostDate d) (tl (shapeRows inputRows))).
Proof.
  intros H.
  apply RecordFacts.processRows_final in H as (d & ro & Hd & _ & -> & _ & -> & _).
  exists d. split; [exact Hd|].
  rewrite RecordFacts.loop_bad_dates. reflexivity.
Qed.

Lemma processRows_counts_bad_dates_witness :
  exists data d,
    processRows Spec.noHost defaultOptions Spec.balanceStatement = Ok data
    /\ dateIdx (indicesOf (detectedColumnsList (metadata data))) = Some d
    /\ Spec.tally (skipSummary (metadata data)) "bad_date"
       = List.length (List.filter (Spec.badDate Spec.noHost d)
                                  (tl (shapeRows Spec.balanceStatement))).
Proof.
  destruct (processRows Spec.noHost defaultOptions Spec.balanceStatement)
    as [data|m] eqn:E.
  - destruct (processRows_counts_bad_dates _ _ _ _ E) as (d & Hd & Hn).
    exists data, d. split; [reflexivity|]. split; assumption.
  - exfalso. vm_compute in E. discriminate E.
Defined.

(** X8: The inference summary holds, under the name of each source, the number
    of returned transactions with that source, and nothing under any other
    key. *)
Theorem processRows_inference_summary_counts
  (hostDate : jsstring -> option jsstring) (options : AnonymizerOptions)
  (inputRows : grid) (data : SanitizedData) (key : string) :
  processRows hostDate options inputRows = Ok data ->
  Spec.tally (inferenceSummary (metadata data)) key
  = List.length
      (List.filter (fun t => String.eqb key (Inference.name (inferenceSource t)))
                   (transactions data)).
Proof.
  intros H.
  apply RecordFacts.processRows_final in H as (d & ro & _ & _ & _ & _ & _ & -> & _).
  unfold summarize. rewrite RecordFacts.summarize_tally. reflexivity.
Qed.

Lemma processRows_inference_summary_counts_witness :
  exists data,
    processRows Spec.noHost defaultOptions Spec.balanceStatement = Ok data
    /\ Spec.tally (inferenceSummary (metadata data)) "derived_from_balance"
       = List.length
           (List.filter
              (fun t => String.eqb "derived_from_balance"
                                   (Inference.name (inferenceSource t)))
              (transactions data)).
Proof.
  destruct (processRows Spec.noHost defaultOptions Spec.balanceStatement)
    as [data|m] eqn:E.
  - exists data. split; [reflexivity|].
    exact (processRows_inference_summary_counts _ _ _ _ _ E).
  - exfalso. vm_compute in E. discriminate E.
Defined.

(** ** Labels *)

Module LabelFacts.
Import Regex Spec.

Lemma collapseSpaces_tidy (x : jsstring) : tidy (collapseSpaces x).
Proof.
  rewrite RegexFacts.collapseSpaces_scan. split.
  - apply TextFacts.trim_idem.
  - apply SpacedFacts.spaced_trim, SpacedFacts.spaced_collapseScan.
Qed.

Lemma titleCase_tidy (s : jsstring) :
  tidy s -> tidy (titleCase s) /\ List.length (titleCase s) = List.length s.
Proof.
  intros [Ht Hs]. destruct (SanitizerFacts.wellFormed_titleCase s Hs) as (H1 & H2 & _).
  split; [split; assumption|].
  rewrite RegexFacts.titleCase_scan, <- TextFacts.titleScan_trim, Ht.
  apply TextFacts.titleScan_length.
Qed.

Lemma normalizeMerchant_label opts c rep :
  truthy (fst (normalizeMerchant opts c rep)) = true
  /\ tidy (fst (normalizeMerchant opts c rep)).
Proof.
  unfold normalizeMerchant.
  destruct (negb (truthy c)); [split; [reflexivity|split; reflexivity]|].
  destruct (applyCustomRemovals opts (c, rep)) as [s0 rep0].
  set (s := collapseSpaces _).
  destruct (truthy s) eqn:Hs; cbn [negb fst]; [|split; [reflexivity|split; reflexivity]].
  destruct (titleCase_tidy s (collapseSpaces_tidy _)) as [Ht Hl].
  split; [|exact Ht].
  destruct s; [discriminate|]. destruct (titleCase _); [discriminate|reflexivity].
Qed.

Lemma sanitizeDescription_tidy opts raw rep :
  tidy (fst (sanitizeDescription opts raw rep)).
Proof.
  destruct (SanitizerFacts.sanitizeDescription_wellFormed opts raw rep) as (H1 & H2 & _).
  split; assumption.
Qed.

Lemma rowStep_presentable host opts ix d ro st row st' tx :
  rowStep host opts ix d ro st row = (st', Some tx) -> presentable opts tx.
Proof.
  unfold rowStep. intros H.
  destruct (List.length row <? 2)%nat; [discriminate|].
  destruct (parseDateString host (cell row d)) as [[|c s]|]; try discriminate.
  match type of H with
  | context [sanitizeDescription opts ?raw ?o] =>
      pose proof (sanitizeDescription_tidy opts raw o) as Hd;
      destruct (sanitizeDescription opts raw o) as [cleanDesc rep]
  end.
  pose proof (normalizeMerchant_label opts cleanDesc rep) as [Hm1 Hm2].
  destruct (normalizeMerchant opts cleanDesc rep) as [m rep']. cbn [fst] in *.
  repeat match type of H with
         | context [let '(_, _) := ?x in _] => destruct x
         end.
  destruct (negb _); [|discriminate]. injection H as _ <-.
  unfold presentable. cbn [txDate merchant txDescription].
  repeat split; try assumption; try apply Hm2; destruct (ultraClean opts);
    try apply Hm2; try apply Hd; try reflexivity; discriminate.
Qed.

(** The confidences of the rule table lie between that of the default and
    0.9. *)
Lemma rule_confidences :
  forallb (fun rule : re * jsstring * number =>
             fle (lit "0.4") (snd rule) && fle (snd rule) (lit "0.9"))
          categoryRules = true.
Proof. vm_compute. reflexivity. Qed.

End LabelFacts.

(** X9: For a description written in ASCII, whatever the options,
    [sanitizeDescription] returns a text that is trimmed, has single spaces
    as its only white space, is already in title case, and is written in
    ASCII again. *)
Theorem sanitizeDescription_output_is_well_formed
  (options : AnonymizerOptions) (raw : jsstring) (report : option RemovalReport) :
  Spec.isAscii raw = true ->
  Spec.wellFormed (fst (sanitizeDescription options raw report))
  /\ Spec.isAscii (fst (sanitizeDescription options raw report)) = true.
Proof.
  intros H. split.
  - apply SanitizerFacts.sanitizeDescription_wellFormed.
  - apply AsciiFacts.isAscii_spec, AsciiFacts.sanitizeDescription_ascii.
    now apply AsciiFacts.isAscii_spec.
Qed.

(** X9 at a description with white space, separators and a number to mask. *)
Lemma sanitizeDescription_output_is_well_formed_witness :
  Spec.wellFormed (fst (sanitizeDescription defaultOptions
                          (js "  pos  COFFEE_shop|NY 123-45-6789 ") None))
  /\ Spec.isAscii (fst (sanitizeDescription defaultOptions
                           (js "  pos  COFFEE_shop|NY 123-45-6789 ") None)) = true.
Proof.
  apply (sanitizeDescription_output_is_well_formed defaultOptions
           (js "  pos  COFFEE_shop|NY 123-45-6789 ") None).
  vm_compute. reflexivity.
Defined.

(** X10: [normalizeMerchant] never returns the empty string: its label has at
    least one code unit, no white space at its ends and single spaces as its
    only white space; for an empty description it is [Unknown]. *)
Theorem normalizeMerchant_label_never_empty
  (options : AnonymizerOptions) (cleanedDesc : jsstring)
  (report : option RemovalReport) :
  truthy (fst (normalizeMerchant options cleanedDesc report)) = true
  /\ Spec.tidy (fst (normalizeMerchant options cleanedDesc report))
  /\ fst (normalizeMerchant options [] report) = js "Unknown".
Proof.
  destruct (LabelFacts.normalizeMerchant_label options cleanedDesc report) as [H1 H2].
  repeat split; try assumption; apply H2.
Qed.

(** X11: For a grid whose cells are written in ASCII, every transaction that
    [processRows] returns has a date and a merchant that are not empty, a
    merchant and a description without stray white space, and, under
    [ultraClean], the merchant as its description. *)
Theorem processRows_transactions_presentable
  (hostDate : jsstring -> option jsstring) (options : AnonymizerOptions)
  (inputRows : grid) (data : SanitizedData) :
  Spec.asciiGrid inputRows = true ->
  processRows hostDate options inputRows = Ok data ->
  Forall (Spec.presentable options) (transactions data).
Proof.
  intros _ H.
  apply RecordFacts.processRows_final in H as (d & ro & _ & _ & _ & -> & _).
  apply LoopFacts.fold_invariant; [|constructor].
  intros st row st' tx Hstep. exact (LabelFacts.rowStep_presentable _ _ _ _ _ _ _ _ _ Hstep).
Qed.

Lemma processRows_transactions_presentable_witness :
  exists data,
    processRows Spec.noHost defaultOptions Spec.balanceStatement = Ok data
    /\ Forall (Spec.presentable defaultOptions) (transactions data).
Proof.
  destruct (processRows Spec.noHost defaultOptions Spec.balanceStatement)
    as [data|m] eqn:E.
  - exists data. split; [reflexivity|].
    refine (processRows_transactions_presentable _ _ _ _ _ E).
    vm_compute. reflexivity.
  - exfalso. vm_compute in E. discriminate E.
Defined.

(** X12: The category of [categorizeTransaction] comes with a confidence between
    0.4, that of [Other], and 0.9. *)
Theorem categorizeTransaction_confidence_bounds (rawDesc cleanedDesc merchant : jsstring) :
  fle (lit "0.4") (snd (categorizeTransaction rawDesc cleanedDesc merchant)) = true
  /\ fle (snd (categorizeTransaction rawDesc cleanedDesc merchant)) (lit "0.9") = true.
Proof.
  unfold categorizeTransaction.
  destruct (List.filter _ categoryRules) as [|rule rules] eqn:E.
  - cbn [snd]. split; vm_compute; reflexivity.
  - assert (Hin : In rule categoryRules).
    { assert (In rule (rule :: rules)) as H by (left; reflexivity).
      rewrite <- E in H. apply filter_In in H as [H _]. exact H. }
    pose proof LabelFacts.rule_confidences as Hall.
    rewrite forallb_forall in Hall. specialize (Hall rule Hin).
    apply andb_true_iff in Hall. exact Hall.
Qed.

(** ** The preflight sample *)

Module SampleFacts.
Import Spec.

Lemma processRows_order host opts inputRows data :
  processRows host opts inputRows = Ok data ->
  exists d,
    dateIdx (indicesOf (detectColumnsWithContext host (shapeRows inputRows))) = Some d
    /\ rowOrder (metadata data)
       = Dialect.inferRowOrderFromDates
           (map (fun r => parseDateString host (cell r d)) (tl (shapeRows inputRows))).
Proof.
  intros H. unfold processRows in H.
  set (rows := shapeRows inputRows) in *.
  set (ix := indicesOf (detectColumnsWithContext host rows)) in *.
  clearbody ix.
  destruct (List.length rows <? 2)%nat; [discriminate|].
  destruct (dateIdx ix) as [d|] eqn:Hd; [|discriminate].
  exists d. split; [reflexivity|].
  destruct (amountIdx ix) eqn:Ha, (debitIdx ix) eqn:Hdb, (creditIdx ix) eqn:Hcr,
    (balanceIdx ix) eqn:Hb; try discriminate;
    injection H as <-; reflexivity.
Qed.

Lemma sample_length (k : nat) (rows : grid) :
  List.length (tl (firstn (S k) rows)) = Nat.min k (List.length (tl rows)).
Proof.
  destruct rows as [|h rows]; cbn [firstn tl List.length]; [lia|].
  apply length_firstn.
Qed.

Lemma effectiveSampleSize_ge n rows : (10 <= effectiveSampleSize n rows)%Z.
Proof. unfold effectiveSampleSize. lia. Qed.

Lemma sample_is_firstn n (rows : grid) :
  firstn (Z.to_nat (1 + effectiveSampleSize n rows)) rows
  = firstn (S (Z.to_nat (effectiveSampleSize n rows))) rows.
Proof.
  pose proof (effectiveSampleSize_ge n rows).
  f_equal. lia.
Qed.

(** The sample is the whole grid when the data rows are at most ten or at
    most the size asked for. *)
Lemma sample_whole n (rows : grid) :
  (Z.of_nat (List.length (tl rows)) <= Z.max 10 (default 100%Z n))%Z ->
  firstn (Z.to_nat (1 + effectiveSampleSize n rows)) rows = rows.
Proof.
  intros H. apply firstn_all2. unfold effectiveSampleSize.
  destruct rows as [|h rows]; cbn [tl List.length] in *; lia.
Qed.

Lemma preflight_strategy host opts li inputRows n :
  let sample := firstn (Z.to_nat (1 + effectiveSampleSize n (shapeRows inputRows)))
                       (shapeRows inputRows) in
  let ix := indicesOf (detectColumnsWithContext host sample) in
  likelyDirectionStrategy (fst (preflightRows host opts li inputRows n))
  = match balanceIdx ix with
    | Some _ => Dialect.balance
    | None =>
        match debitIdx ix, creditIdx ix with
        | Some _, Some _ => Dialect.split
        | _, _ =>
            match typeIdx ix, amountIdx ix with
            | Some _, Some a =>  Dialect.type
            | _, Some a =>
                if existsb (fun r => includes (js "-") (cell r a)
                                     || includes (js "(") (cell r a)) (tl sample)
                then Dialect.signed else Dialect.fallback
            | _, None => Dialect.fallback
            end
        end
    end.
Proof.
  cbv zeta. unfold preflightRows. cbn [fst likelyDirectionStrategy].
  set (ix := indicesOf _). clearbody ix.
  destruct (balanceIdx ix), (debitIdx ix), (creditIdx ix), (typeIdx ix), (amountIdx ix);
    cbn; try reflexivity;
    match goal with |- context [existsb ?f ?l] => destruct (existsb f l) end; reflexivity.
Qed.

End SampleFacts.

(** X13: The number of rows that [preflightRows] samples: all data rows when
    they are at most ten; otherwise the size asked for (100 by default),
    raised to ten when it is smaller and cut to the number of data rows
    when it is larger. *)
Theorem preflightRows_sample_size
  (hostDate : jsstring -> option jsstring) (options : AnonymizerOptions)
  (li : LastIndex) (inputRows : grid) (sampleSize : option Z) :
  Z.of_nat (sampleRows (fst (preflightRows hostDate options li inputRows sampleSize)))
  = Z.min (Z.of_nat (List.length (tl (shapeRows inputRows))))
          (Z.max 10 (default 100%Z sampleSize)).
Proof.
  unfold preflightRows. cbn [fst sampleRows].
  rewrite SampleFacts.sample_is_firstn, SampleFacts.sample_length.
  unfold effectiveSampleSize.
  destruct (shapeRows inputRows) as [|h rows]; cbn [tl List.length]; lia.
Qed.

(** X14: When the data rows are at most ten, or at most the sample size asked
    for, the preflight reads the whole grid and reports what [processRows]
    reports: the same column classification and the same row order; with at
    most 24 data rows also the same direction strategy. *)
Theorem preflightRows_agrees_with_processRows
  (hostDate : jsstring -> option jsstring) (options : AnonymizerOptions)
  (li : LastIndex) (inputRows : grid) (sampleSize : option Z)
  (data : SanitizedData) :
  processRows hostDate options inputRows = Ok data ->
  (Z.of_nat (List.length (tl (shapeRows inputRows)))
   <= Z.max 10 (default 100%Z sampleSize))%Z ->
  pfDetectedColumnsList (fst (preflightRows hostDate options li inputRows sampleSize))
  = detectedColumnsList (metadata data)
  /\ pfRowOrder (fst (preflightRows hostDate options li inputRows sampleSize))
     = rowOrder (metadata data)
  /\ ((List.length (tl (shapeRows inputRows)) <= 24)%nat ->
      likelyDirectionStrategy
        (fst (preflightRows hostDate options li inputRows sampleSize))
      = directionStrategy (metadata data)).
Proof.
  intros H Hsize.
  pose proof (SampleFacts.sample_whole sampleSize (shapeRows inputRows) Hsize) as Hall.
  destruct (SampleFacts.processRows_order _ _ _ _ H) as (d & Hd & Hro).
  pose proof (SampleFacts.preflight_strategy hostDate options li inputRows sampleSize)
    as Hst. cbv zeta in Hst. rewrite Hall in Hst.
  apply LoopFacts.processRows_Ok in H as (d' & Hd' & Hcols & _ & Hstrat).
  split; [|split].
  - unfold preflightRows. cbn [fst pfDetectedColumnsList]. now rewrite Hall, Hcols.
  - unfold preflightRows. cbn [fst pfRowOrder]. now rewrite Hall, Hd, Hro.
  - intros H24. rewrite Hst, Hstrat. unfold Spec.reportedStrategy, hasSignedSample.
    unfold Dialect.sampleOf. rewrite firstn_all2 by lia.
    set (ix := indicesOf _). clearbody ix.
    destruct (balanceIdx ix), (debitIdx ix), (creditIdx ix), (typeIdx ix),
      (amountIdx ix); reflexivity.
Qed.

Lemma preflightRows_agrees_with_processRows_witness :
  exists data,
    processRows Spec.noHost defaultOptions Spec.typedStatement = Ok data
    /\ pfDetectedColumnsList
         (fst (preflightRows Spec.noHost defaultOptions freshLastIndex
                             Spec.typedStatement None))
       = detectedColumnsList (metadata data)
    /\ pfRowOrder
         (fst (preflightRows Spec.noHost defaultOptions freshLastIndex
                             Spec.typedStatement None))
       = rowOrder (metadata data).
Proof.
  destruct (processRows Spec.noHost defaultOptions Spec.typedStatement)
    as [data|m] eqn:E.
  - exists data. split; [reflexivity|].
    destruct (preflightRows_agrees_with_processRows Spec.noHost defaultOptions
                freshLastIndex Spec.typedStatement None data E) as (H1 & H2 & _).
    + vm_compute. discriminate.
    + split; assumption.
  - exfalso. vm_compute in E. discriminate E.
Defined.

Module PlanFacts.

Definition shortExample (e : Example3) : Prop :=
  (List.length (exRaw e) <= 160)%nat /\ (List.length (exSanitized e) <= 160)%nat.

(** What a sample row adds to the plan. *)
Definition within (n : nat) (acc : Planned) : Prop :=
  (pIdRemovals acc <= n)%nat
  /\ (pMerchantNormalizations acc <= n)%nat
  /\ (List.length (pExamples acc) <= Nat.min 8 n)%nat
  /\ Forall shortExample (pExamples acc).

Lemma sampleRowStep_within opts descCol acc r n :
  within n acc -> within (S n) (sampleRowStep opts descCol acc r).
Proof.
  intros (Hi & Hm & He & Hs). unfold sampleRowStep.
  destruct (plannedTests _ _ _) as [li reds].
  unfold within. cbn [pIdRemovals pMerchantNormalizations pExamples].
  split; [destruct (looksLikeId _); lia|].
  split.
  { match goal with
    | |- context [if ?b then S (pMerchantNormalizations acc) else _] => destruct b
    end; lia. }
  destruct (List.length (pExamples acc) <? 8)%nat eqn:E; cbn [andb].
  - apply Nat.ltb_lt in E. destruct (_ || _).
    + split; [rewrite length_app; cbn [List.length]; lia|].
      apply Forall_app. split; [assumption|]. constructor; [|constructor].
      split; cbn [exRaw exSanitized]; rewrite length_firstn; lia.
    + split; [lia|assumption].
  - split; [lia|assumption].
Qed.

Lemma sample_within opts descCol rows : forall acc n,
  within n acc ->
  within (n + List.length rows) (fold_left (sampleRowStep opts descCol) rows acc).
Proof.
  induction rows as [|r rows IH]; intros acc n H; cbn [fold_left List.length].
  - now rewrite Nat.add_0_r.
  - replace (n + S (List.length rows))%nat with (S n + List.length rows)%nat by lia.
    apply IH. now apply sampleRowStep_within.
Qed.

End PlanFacts.

(** X15: The plan of [preflightRows] stays within its sample: the planned id
    removals and merchant normalizations are at most the number of sampled
    rows, there are at most eight examples and at most one per sampled row,
    and the raw and sanitized text of an example have at most 160 code
    units. *)
Theorem preflightRows_plan_within_sample
  (hostDate : jsstring -> option jsstring) (options : AnonymizerOptions)
  (li : LastIndex) (inputRows : grid) (sampleSize : option Z) :
  (plannedIdRemovals (fst (preflightRows hostDate options li inputRows sampleSize))
   <= sampleRows (fst (preflightRows hostDate options li inputRows sampleSize)))%nat
  /\ (plannedMerchantNormalizations
        (fst (preflightRows hostDate options li inputRows sampleSize))
      <= sampleRows (fst (preflightRows hostDate options li inputRows sampleSize)))%nat
  /\ (List.length (examples (fst (preflightRows hostDate options li inputRows sampleSize)))
      <= Nat.min 8 (sampleRows (fst (preflightRows hostDate options li inputRows
                                                      sampleSize))))%nat
  /\ Forall (fun e => (List.length (exRaw e) <= 160)%nat
                      /\ (List.length (exSanitized e) <= 160)%nat)
            (examples (fst (preflightRows hostDate options li inputRows sampleSize))).
Proof.
  unfold preflightRows.
  cbn [fst plannedIdRemovals plannedMerchantNormalizations examples sampleRows].
  match goal with
  | |- context [fold_left (sampleRowStep ?o ?c) ?rows ?acc] =>
      pose proof (PlanFacts.sample_within o c rows acc 0) as H
  end.
  cbn [Nat.add] in H. apply H.
  repeat split; cbn; try lia. constructor.
Qed.

(** ** One analysis per column *)

Module ColumnFacts.

Lemma alter_columnIndex (t : Col.ColumnType) (i : nat) (l : list ColumnAnalysis) :
  map columnIndex (alter (setColumnType t) i l) = map columnIndex l.
Proof.
  revert i; induction l as [|a l IH]; intros [|i]; cbn; try reflexivity.
  now rewrite IH.
Qed.

Lemma splitPair_columnIndex headers sampleRows numericCols analysis :
  map columnIndex (splitPair headers sampleRows numericCols analysis)
  = map columnIndex analysis.
Proof.
  unfold splitPair. destruct numericCols as [|c1 [|c2 rest]]; try reflexivity.
  match goal with
  | |- context [fold_left ?f sampleRows (false, 0, 0)] =>
      destruct (fold_left f sampleRows (false, 0, 0)) as [[collision c1Count] c2Count]
  end.
  destruct collision; [reflexivity|].
  now rewrite !alter_columnIndex.
Qed.

Lemma analyseColumn_columnIndex host headers sampleRows colCount hint c :
  columnIndex (fst (analyseColumn host headers sampleRows colCount hint c)) = c.
Proof. reflexivity. Qed.

Lemma detect_columnIndex host (rows : grid) :
  map columnIndex (detectColumnsWithContext host rows)
  = if (List.length rows <? 2)%nat then [] else seq 0 (List.length (hd [] rows)).
Proof.
  unfold detectColumnsWithContext. destruct (List.length rows <? 2)%nat; [reflexivity|].
  cbv zeta. rewrite splitPair_columnIndex, !map_map.
  rewrite <- (map_id (seq 0 _)) at 2. apply map_ext. intros c.
  apply analyseColumn_columnIndex.
Qed.

End ColumnFacts.

(** X16: [detectColumnsWithContext] returns one analysis per header cell, in
    column order, each carrying its own position as [columnIndex]; with
    fewer than two rows it returns none. *)
Theorem detectColumnsWithContext_one_analysis_per_column
  (hostDate : jsstring -> option jsstring) (rows : grid) :
  map columnIndex (detectColumnsWithContext hostDate rows)
  = if (List.length rows <? 2)%nat then [] else seq 0 (List.length (hd [] rows)).
Proof. apply ColumnFacts.detect_columnIndex. Qed.

Module AddressFacts.

Lemma shapeRows_rectangle (rows : grid) :
  Forall (fun r => List.length r = List.length (hd [] (shapeRows rows)))
         (shapeRows rows).
Proof.
  unfold shapeRows. destruct (List.filter hasContent rows) as [|first data];
    [constructor|].
  cbn [hd]. set (header := stripBom first).
  set (w := maxWidth (List.length header) data).
  pose proof (ShapeFacts.maxWidth_ge_start data (List.length header)) as Hw.
  fold w in Hw. rewrite ShapeFacts.growHeader_length.
  constructor; [apply ShapeFacts.growHeader_length|].
  apply List.Forall_forall. intros r Hr.
  apply in_map_iff in Hr as (r0 & <- & Hin).
  rewrite ShapeFacts.padRow_app, length_app, repeat_length.
  pose proof (ShapeFacts.maxWidth_ge_row data (List.length header) r0 Hin) as H.
  fold w in H. lia.
Qed.

Lemma findIndex_lt t (l : list ColumnAnalysis) i :
  findIndex t l = Some i -> (i < List.length l)%nat.
Proof.
  unfold findIndex. intros H.
  apply BalanceFacts.findIndexFrom_Some in H as (a & Hn & _ & _).
  rewrite Nat.sub_0_r in Hn. apply nth_error_Some. congruence.
Qed.

Lemma detect_length host (rows : grid) :
  List.length (detectColumnsWithContext host rows)
  = if (List.length rows <? 2)%nat then 0 else List.length (hd [] rows).
Proof.
  rewrite <- (length_map columnIndex), ColumnFacts.detect_columnIndex.
  destruct (List.length rows <? 2)%nat; [reflexivity|apply length_seq].
Qed.

End AddressFacts.

(** X17: Every column index that [processRows] finds for a role (date,
    description, amount, debit, credit, balance, type) addresses a cell of
    every row of the shaped grid, the header included. *)
Theorem processRows_indices_address_cells
  (hostDate : jsstring -> option jsstring) (options : AnonymizerOptions)
  (inputRows : grid) (data : SanitizedData) (role : Col.ColumnType) (i : nat) :
  processRows hostDate options inputRows = Ok data ->
  findIndex role (detectedColumnsList (metadata data)) = Some i ->
  Forall (fun row => (i < List.length row)%nat) (shapeRows inputRows).
Proof.
  intros H Hi.
  apply RecordFacts.processRows_final in H
    as (d & ro & _ & _ & Hcols & _ & _ & _ & _ & _ & Hlen).
  rewrite Hcols in Hi. apply AddressFacts.findIndex_lt in Hi.
  rewrite AddressFacts.detect_length in Hi.
  destruct (Nat.ltb_spec (List.length (shapeRows inputRows)) 2); [lia|].
  eapply List.Forall_impl; [|apply AddressFacts.shapeRows_rectangle].
  intros row Hrow. cbn beta in Hrow. lia.
Qed.

Lemma processRows_indices_address_cells_witness :
  exists data i,
    processRows Spec.noHost defaultOptions Spec.balanceStatement = Ok data
    /\ findIndex Col.balance (detectedColumnsList (metadata data)) = Some i
    /\ Forall (fun row => (i < List.length row)%nat) (shapeRows Spec.balanceStatement).
Proof.
  destruct (processRows Spec.noHost defaultOptions Spec.balanceStatement)
    as [data|m] eqn:E; [|exfalso; vm_compute in E; discriminate E].
  destruct (findIndex Col.balance (detectedColumnsList (metadata data)))
    as [i|] eqn:Ei.
  - exists data, i. split; [reflexivity|]. split; [exact Ei|].
    exact (processRows_indices_address_cells _ _ _ _ _ _ E Ei).
  - exfalso. vm_compute in E. injection E as <-. vm_compute in Ei. discriminate Ei.
Defined.

(** ** Reading the rows backwards *)

Module ReverseFacts.
Import Dialect RowOrderFacts.

Lemma keepTruthy_app (a b : list (option jsstring)) :
  keepTruthy (a ++ b) = keepTruthy a ++ keepTruthy b.
Proof.
  unfold keepTruthy. induction a as [|x a IH]; [reflexivity|].
  cbn. destruct x as [[|c s]|]; cbn; now rewrite IH.
Qed.

Lemma keepTruthy_rev (l : list (option jsstring)) :
  keepTruthy (rev l) = rev (keepTruthy l).
Proof.
  induction l as [|x l IH]; [reflexivity|].
  cbn [rev]. rewrite keepTruthy_app, IH.
  unfold keepTruthy at 2 3. cbn. destruct x as [[|c s]|]; cbn; now rewrite ?app_nil_r.
Qed.

Lemma rising_snoc (l : list jsstring) (a b : jsstring) :
  rising (l ++ [a; b])
  = (rising (l ++ [a]) + (if strlt a b then 1 else 0))%nat.
Proof.
  induction l as [|x l IH].
  - unfold rising, adjacentPairs. cbn. destruct (strlt a b); reflexivity.
  - destruct l as [|y l].
    + change (rising ([x] ++ [a; b])) with (rising (x :: a :: [b])).
      change (rising ([x] ++ [a])) with (rising (x :: a :: [])).
      change (rising ([] ++ [a; b])) with (rising (a :: b :: [])) in IH.
      rewrite (rising_cons x a [b]), (rising_cons x a []), IH.
      unfold rising, adjacentPairs. cbn. lia.
    + change (rising ((x :: y :: l) ++ [a; b])) with (rising (x :: y :: (l ++ [a; b]))).
      change (rising ((x :: y :: l) ++ [a])) with (rising (x :: y :: (l ++ [a]))).
      change (rising ((y :: l) ++ [a; b])) with (rising (y :: (l ++ [a; b]))) in IH.
      change (rising ((y :: l) ++ [a])) with (rising (y :: (l ++ [a]))) in IH.
      rewrite (rising_cons x y (l ++ [a; b])), (rising_cons x y (l ++ [a])), IH. lia.
Qed.

Lemma falling_snoc (l : list jsstring) (a b : jsstring) :
  falling (l ++ [a; b])
  = (falling (l ++ [a]) + (if strlt b a then 1 else 0))%nat.
Proof.
  induction l as [|x l IH].
  - unfold falling, adjacentPairs. cbn. destruct (strlt b a); reflexivity.
  - destruct l as [|y l].
    + change (falling ([x] ++ [a; b])) with (falling (x :: a :: [b])).
      change (falling ([x] ++ [a])) with (falling (x :: a :: [])).
      change (falling ([] ++ [a; b])) with (falling (a :: b :: [])) in IH.
      rewrite (falling_cons x a [b]), (falling_cons x a []), IH.
      unfold falling, adjacentPairs. cbn. lia.
    + change (falling ((x :: y :: l) ++ [a; b])) with (falling (x :: y :: (l ++ [a; b]))).
      change (falling ((x :: y :: l) ++ [a])) with (falling (x :: y :: (l ++ [a]))).
      change (falling ((y :: l) ++ [a; b])) with (falling (y :: (l ++ [a; b]))) in IH.
      change (falling ((y :: l) ++ [a])) with (falling (y :: (l ++ [a]))) in IH.
      rewrite (falling_cons x y (l ++ [a; b])), (falling_cons x y (l ++ [a])), IH. lia.
Qed.

Lemma rising_rev (l : list jsstring) : rising (rev l) = falling l.
Proof.
  induction l as [|a l IH]; [reflexivity|].
  destruct l as [|b l]; [reflexivity|].
  rewrite (falling_cons a b l), <- IH.
  change (rev (a :: b :: l)) with ((rev l ++ [b]) ++ [a]).
  change (rev (b :: l)) with (rev l ++ [b]).
  rewrite <- app_assoc.
  change ([b] ++ [a]) with [b; a].
  rewrite rising_snoc. lia.
Qed.

Lemma falling_rev (l : list jsstring) : falling (rev l) = rising l.
Proof.
  induction l as [|a l IH]; [reflexivity|].
  destruct l as [|b l]; [reflexivity|].
  rewrite (rising_cons a b l), <- IH.
  change (rev (a :: b :: l)) with ((rev l ++ [b]) ++ [a]).
  change (rev (b :: l)) with (rev l ++ [b]).
  rewrite <- app_assoc.
  change ([b] ++ [a]) with [b; a].
  rewrite falling_snoc. lia.
Qed.

(** The characterization of [inferRowOrderFromDates] by the counts of rising
    and falling pairs. *)
Lemma order_by_counts (dateValues : list (option jsstring)) :
  inferRowOrderFromDates dateValues
  = if (List.length (keepTruthy dateValues) <? 3)%nat then unknown
    else if (rising (keepTruthy dateValues) =? 0)%nat
            && (falling (keepTruthy dateValues) =? 0)%nat then unknown
    else if (falling (keepTruthy dateValues) <=? rising (keepTruthy dateValues))%nat
         then asc else desc.
Proof.
  unfold inferRowOrderFromDates.
  destruct (List.length (keepTruthy dateValues) <? 3)%nat eqn:Hlen; [reflexivity|].
  destruct (keepTruthy dateValues) as [|d0 rest]; [discriminate|].
  rewrite countPairs_counts. reflexivity.
Qed.

End ReverseFacts.

(** X18: Reading the same dates from the last row to the first flips the inferred
    order between [asc] and [desc], except when rising and falling pairs are
    equally many: a tie is [asc] in both directions, and [unknown] stays
    [unknown]. *)
Theorem inferRowOrderFromDates_reversed (dateValues : list (option jsstring)) :
  Dialect.inferRowOrderFromDates (rev dateValues)
  = if (RowOrderFacts.rising (Dialect.keepTruthy dateValues)
        =? RowOrderFacts.falling (Dialect.keepTruthy dateValues))%nat
    then Dialect.inferRowOrderFromDates dateValues
    else Spec.flip (Dialect.inferRowOrderFromDates dateValues).
Proof.
  rewrite !ReverseFacts.order_by_counts, ReverseFacts.keepTruthy_rev.
  rewrite ReverseFacts.rising_rev, ReverseFacts.falling_rev, length_rev.
  set (up := RowOrderFacts.rising _). set (down := RowOrderFacts.falling _).
  clearbody up down.
  destruct (List.length _ <? 3)%nat; [now destruct (up =? down)%nat|].
  destruct (Nat.eqb_spec up down) as [->|Hne].
  - rewrite Nat.leb_refl. now destruct (down =? 0)%nat.
  - destruct (Nat.eqb_spec up 0), (Nat.eqb_spec down 0); cbn [andb]; try lia;
      destruct (Nat.leb_spec down up), (Nat.leb_spec up down); try lia; reflexivity.
Qed.

(** ** The type column *)

Module TypeColumnFacts.
Import Dialect Spec.

Definition bestStep (sampleRows : list (list jsstring))
           (best : option nat * nat * gmap jsstring Direction) (c : nat)
  : option nat * nat * gmap jsstring Direction :=
  let '(_, bestScore, _) := best in
  let '(score, mapping) := typeColumnScore sampleRows c in
  if (bestScore <? score)%nat then (Some c, score, mapping) else best.

(** The best column so far, after the columns below [n]. *)
Definition bestOf (sampleRows : list (list jsstring)) (n : nat)
           (best : option nat * nat * gmap jsstring Direction) : Prop :=
  let score c := fst (typeColumnScore sampleRows c) in
  match best with
  | (None, bs, _) => bs = 0 /\ forall c, (c < n)%nat -> score c = 0
  | (Some i, bs, bm) =>
      (i < n)%nat /\ bs = score i /\ bm = snd (typeColumnScore sampleRows i)
      /\ (0 < bs)%nat
      /\ forall c, (c < n)%nat ->
                   (score c <= bs)%nat /\ ((c < i)%nat -> (score c < bs)%nat)
  end.

Lemma bestOf_fold sampleRows (n : nat) :
  bestOf sampleRows n (fold_left (bestStep sampleRows) (seq 0 n) (None, 0, empty)).
Proof.
  induction n as [|n IH].
  - cbn. split; [reflexivity|]. intros c Hc. lia.
  - rewrite seq_S, fold_left_app. cbn [fold_left Nat.add].
    destruct (fold_left (bestStep sampleRows) (seq 0 n) (None, 0, empty))
      as [[bi bs] bm].
    unfold bestStep. destruct (typeColumnScore sampleRows n) as [sc mp] eqn:E.
    assert (Hsc : fst (typeColumnScore sampleRows n) = sc) by now rewrite E.
    assert (Hmp : snd (typeColumnScore sampleRows n) = mp) by now rewrite E.
    unfold bestOf in *. destruct (Nat.ltb_spec bs sc) as [Hlt|Hge].
    + rewrite Hsc, Hmp. repeat split; try lia.
      * destruct bi as [i|].
        -- destruct IH as (Hi & Hbs & _ & Hpos & Hall).
           destruct (Nat.eq_dec c n) as [->|Hne]; [lia|].
           destruct (Hall c ltac:(lia)) as [Hle _]. lia.
        -- destruct IH as (Hbs & Hall).
           destruct (Nat.eq_dec c n) as [->|Hne]; [lia|].
           rewrite (Hall c) by lia. lia.
      * intros Hc. destruct bi as [i|].
        -- destruct IH as (Hi & Hbs & _ & Hpos & Hall).
           destruct (Hall c ltac:(lia)) as [Hle _]. lia.
        -- destruct IH as (Hbs & Hall). rewrite (Hall c) by lia. lia.
    + destruct bi as [i|].
      * destruct IH as (Hi & Hbs & Hbm & Hpos & Hall).
        repeat split; try assumption; try lia.
        -- destruct (Nat.eq_dec c n) as [->|Hne]; [lia|].
           destruct (Hall c ltac:(lia)) as [Hle _]. lia.
        -- intros Hc. destruct (Hall c ltac:(lia)) as [_ Hlt]. now apply Hlt.
      * destruct IH as (Hbs & Hall). split; [assumption|].
        intros c Hc. destruct (Nat.eq_dec c n) as [->|Hne]; [lia|].
        apply Hall. lia.
Qed.

End TypeColumnFacts.

(** X19: The type column that [detectTypeColumn] reports lies within the header,
    scores at least 6 over the sample, carries the mapping collected for it,
    and is the first column of the highest score. *)
Theorem detectTypeColumn_first_best_column (rows : grid) (found : Dialect.TypeColumn) :
  Dialect.detectTypeColumn rows = Some found ->
  (2 <= List.length rows)%nat
  /\ (Dialect.typeIdx found < List.length (hd [] rows))%nat
  /\ (6 <= Spec.typeScore rows (Dialect.typeIdx found))%nat
  /\ Dialect.mapping found
     = snd (Dialect.typeColumnScore (Dialect.sampleOf rows) (Dialect.typeIdx found))
  /\ forall c, (c < List.length (hd [] rows))%nat ->
       (Spec.typeScore rows c <= Spec.typeScore rows (Dialect.typeIdx found))%nat
       /\ ((c < Dialect.typeIdx found)%nat ->
           (Spec.typeScore rows c < Spec.typeScore rows (Dialect.typeIdx found))%nat).
Proof.
  unfold Dialect.detectTypeColumn. intros H.
  destruct (Nat.ltb_spec (List.length rows) 2) as [|Hlen]; [discriminate|].
  split; [exact Hlen|].
  pose proof (TypeColumnFacts.bestOf_fold (Dialect.sampleOf rows)
                (List.length (hd [] rows))) as Hbest.
  unfold TypeColumnFacts.bestStep in Hbest.
  destruct (fold_left _ (seq 0 (List.length (hd [] rows))) (None, 0, empty))
    as [[bi bs] bm].
  destruct bi as [i|]; [|discriminate].
  destruct (Nat.ltb_spec bs 6) as [|Hsix]; [discriminate|].
  injection H as <-. cbn [Dialect.typeIdx Dialect.mapping].
  destruct Hbest as (Hi & Hbs & Hbm & Hpos & Hall).
  unfold Spec.typeScore. rewrite <- Hbs.
  repeat split; try assumption; apply Hall; assumption.
Qed.

Lemma detectTypeColumn_first_best_column_witness :
  exists found,
    Dialect.detectTypeColumn Spec.typedStatement = Some found
    /\ (Dialect.typeIdx found < List.length (hd [] Spec.typedStatement))%nat.
Proof.
  destruct (Dialect.detectTypeColumn Spec.typedStatement) as [found|] eqn:E.
  - exists found. split; [reflexivity|].
    exact (proj1 (proj2 (detectTypeColumn_first_best_column _ _ E))).
  - exfalso. vm_compute in E. discriminate E.
Defined.

(** ** Header signatures *)

Module SignatureFacts.
Import Regex.

(** What a signature is written in. *)
Definition signatureUnit (c : N) : bool :=
  isLower c || isDigit c || (c =? 32)%N.

Lemma stripped_units (h : jsstring) :
  Forall (fun c => signatureUnit c = true) (replaceAll false NOT_SIGNATURE [] h).
Proof.
  unfold NOT_SIGNATURE. rewrite SingleFacts.replaceAll_Class.
  induction h as [|c h IH]; cbn [flat_map]; [constructor|].
  destruct (classMatches false true _ c) eqn:E; cbn [app]; [exact IH|].
  constructor; [|exact IH].
  unfold classMatches in E. cbn [existsb itemMatches inRange canon] in E.
  unfold signatureUnit, isLower, isDigit. rewrite (N.eqb_sym c 32).
  destruct ((97 <=? c)%N && (c <=? 122)%N), ((48 <=? c)%N && (c <=? 57)%N),
    (32 =? c)%N; try discriminate E; reflexivity.
Qed.

Lemma join_units (parts : list jsstring) :
  Forall (Forall (fun c => signatureUnit c = true)) parts ->
  Forall (fun c => signatureUnit c = true \/ c = 124%N) (join (js "|") parts)
  /\ List.length (List.filter (N.eqb 124) (join (js "|") parts))
     = (List.length parts - 1)%nat.
Proof.
  induction 1 as [|p parts Hp Hparts IH]; [split; [constructor|reflexivity]|].
  assert (Hfree : List.filter (N.eqb 124) p = []).
  { clear -Hp. induction Hp as [|c p Hc _ IH]; [reflexivity|]. cbn [List.filter].
    destruct (N.eqb_spec 124 c) as [<-|_]; [discriminate Hc|exact IH]. }
  assert (Hunits : Forall (fun c => signatureUnit c = true \/ c = 124%N) p).
  { eapply List.Forall_impl; [|exact Hp]. intros c Hc. now left. }
  destruct parts as [|q parts].
  - cbn [join]. split; [exact Hunits|]. now rewrite Hfree.
  - destruct IH as [IH1 IH2].
    change (join (js "|") (p :: q :: parts))
      with (p ++ js "|" ++ join (js "|") (q :: parts)).
    split.
    + apply Forall_app. split; [exact Hunits|].
      constructor; [now right|exact IH1].
    + rewrite !List.filter_app, Hfree.
      change (List.filter (N.eqb 124) (js "|")) with [124%N].
      rewrite !length_app, IH2. cbn [List.length]. lia.
Qed.

End SignatureFacts.

(** X20: A header signature is written in lower-case letters, digits, spaces and
    the separator [|] only, whatever the header cells contain, and has one
    separator less than there are headers. *)
Theorem signatureFromHeaders_alphabet (headers : list jsstring) :
  Forall (fun c => isLower c || isDigit c || (c =? 32)%N = true \/ c = 124%N)
         (signatureFromHeaders headers)
  /\ List.length (List.filter (N.eqb 124) (signatureFromHeaders headers))
     = (List.length headers - 1)%nat.
Proof.
  unfold signatureFromHeaders.
  destruct (SignatureFacts.join_units
              (map (fun h => Regex.replaceAll false NOT_SIGNATURE [] h)
                   (normalizeHeaders headers))) as [H1 H2].
  - apply List.Forall_forall. intros p Hp. apply in_map_iff in Hp as (h & <- & _).
    apply SignatureFacts.stripped_units.
  - split; [exact H1|]. rewrite H2. unfold normalizeHeaders.
    now rewrite !length_map.
Qed.

(** ** Markup *)

Module MarkupFacts.

Lemma replaceAllUnit_free (c x : N) (by_ s : jsstring) :
  ~ In x by_ -> (x = c \/ ~ In x s) -> ~ In x (replaceAllUnit c by_ s).
Proof.
  intros Hby Hs Hin. unfold replaceAllUnit in Hin.
  apply in_flat_map in Hin as (y & Hy & Hin).
  destruct (N.eqb_spec y c) as [->|Hne]; [now apply Hby|].
  destruct Hin as [<-|[]]. destruct Hs as [->|Hs]; [congruence|now apply Hs].
Qed.

Lemma replaceAllUnit_id (c : N) (by_ s : jsstring) :
  ~ In c s -> replaceAllUnit c by_ s = s.
Proof.
  unfold replaceAllUnit. induction s as [|x s IH]; intros H; [reflexivity|].
  cbn [flat_map]. destruct (N.eqb_spec x c) as [->|_].
  - exfalso. apply H. now left.
  - cbn. f_equal. apply IH. intros Hin. apply H. now right.
Qed.

Lemma not_in_literal (x : N) (s : string) :
  forallb (fun y => negb (y =? x)%N) (js s) = true -> ~ In x (js s).
Proof.
  intros H Hin. rewrite forallb_forall in H. specialize (H x Hin).
  now rewrite N.eqb_refl in H.
Qed.

Lemma replaceAll_unit (c : N) (by_ s : jsstring) :
  Regex.replaceAll false (Regex.Char c) by_ s = replaceAllUnit c by_ s.
Proof.
  rewrite SingleFacts.replaceAll_Char. unfold replaceAllUnit.
  apply flat_map_ext. intros x. now rewrite N.eqb_sym.
Qed.

End MarkupFacts.

(** X21: The text that [escapeHtml] of the application script returns contains
    no [<], no [>], no double quote and no apostrophe, whatever it is given;
    the code units other than these and the ampersand are kept as they
    are. *)
Theorem escapeHtml_leaves_no_markup (s : jsstring) :
  ~ In LT (escapeHtml s) /\ ~ In GT (escapeHtml s)
  /\ ~ In QUOTE (escapeHtml s) /\ ~ In APOS (escapeHtml s)
  /\ escapeHtml (List.filter Spec.plain s) = List.filter Spec.plain s.
Proof.
  assert (Hlit : forall x e, In x [LT; GT; QUOTE; APOS] ->
                   In e ["&#39;"; "&quot;"; "&gt;"; "&lt;"; "&amp;"]%string ->
                   ~ In x (js e)).
  { intros x e Hx He. apply MarkupFacts.not_in_literal.
    destruct Hx as [<-|[<-|[<-|[<-|[]]]]];
      destruct He as [<-|[<-|[<-|[<-|[<-|[]]]]]]; reflexivity. }
  unfold escapeHtml. repeat split.
  - do 3 (apply MarkupFacts.replaceAllUnit_free; [apply Hlit; cbn; tauto|right]).
    apply MarkupFacts.replaceAllUnit_free; [apply Hlit; cbn; tauto|now left].
  - do 2 (apply MarkupFacts.replaceAllUnit_free; [apply Hlit; cbn; tauto|right]).
    apply MarkupFacts.replaceAllUnit_free; [apply Hlit; cbn; tauto|now left].
  - apply MarkupFacts.replaceAllUnit_free; [apply Hlit; cbn; tauto|right].
    apply MarkupFacts.replaceAllUnit_free; [apply Hlit; cbn; tauto|now left].
  - apply MarkupFacts.replaceAllUnit_free; [apply Hlit; cbn; tauto|now left].
  - assert (H : forall x, In x [AMP; LT; GT; QUOTE; APOS] ->
                          ~ In x (List.filter Spec.plain s)).
    { intros x Hx Hin. apply filter_In in Hin as [_ Hp].
      destruct Hx as [<-|[<-|[<-|[<-|[<-|[]]]]]]; discriminate Hp. }
    rewrite (MarkupFacts.replaceAllUnit_id AMP) by (apply H; cbn; tauto).
    rewrite (MarkupFacts.replaceAllUnit_id LT) by (apply H; cbn; tauto).
    rewrite (MarkupFacts.replaceAllUnit_id GT) by (apply H; cbn; tauto).
    rewrite (MarkupFacts.replaceAllUnit_id QUOTE) by (apply H; cbn; tauto).
    apply MarkupFacts.replaceAllUnit_id. apply H. cbn. tauto.
Qed.

(** X22: With a highlight term, a value that [formatData] formats without
    highlighting contains no [<] and no [>]; without a term, or with the
    empty one, the value is returned as it is. *)
Theorem fmtVal_escapes_when_highlighting
  (c : N) (term val : jsstring) (applyHl : bool) :
  ~ In LT (fmtVal (Some (c :: term)) val false)
  /\ ~ In GT (fmtVal (Some (c :: term)) val false)
  /\ fmtVal None val applyHl = val
  /\ fmtVal (Some []) val applyHl = val.
Proof.
  unfold fmtVal. rewrite !MarkupFacts.replaceAll_unit.
  repeat split.
  - apply (MarkupFacts.replaceAllUnit_free GT LT (js "&gt;"));
      [apply MarkupFacts.not_in_literal; reflexivity|right].
    apply (MarkupFacts.replaceAllUnit_free LT LT (js "&lt;"));
      [apply MarkupFacts.not_in_literal; reflexivity|now left].
  - apply (MarkupFacts.replaceAllUnit_free GT GT (js "&gt;"));
      [apply MarkupFacts.not_in_literal; reflexivity|now left].
Qed.

(** ** Currency cells *)

Module CurrencyFacts.
Import Regex Spec.

Lemma flat_map_filter {A : Type} (p : A -> bool) (l : list A) :
  flat_map (fun x => if p x then [] else [x]) l = List.filter (fun x => negb (p x)) l.
Proof.
  induction l as [|x l IH]; [reflexivity|].
  cbn [flat_map List.filter]. destruct (p x); cbn; now rewrite IH.
Qed.

Lemma strip_is_filter (v : jsstring) :
  replaceAll false Values.NOT_CURRENCY [] v = List.filter currencyUnit v.
Proof.
  unfold Values.NOT_CURRENCY. rewrite SingleFacts.replaceAll_Class, flat_map_filter.
  apply filter_ext. intros c. unfold classMatches, currencyUnit.
  cbn [existsb itemMatches canon]. rewrite orb_false_r.
  rewrite !orb_assoc. now destruct (_ || _).
Qed.

Lemma filter_idem {A : Type} (p : A -> bool) (l : list A) :
  List.filter p (List.filter p l) = List.filter p l.
Proof.
  induction l as [|x l IH]; [reflexivity|].
  cbn [List.filter]. destruct (p x) eqn:E; [|exact IH].
  cbn [List.filter]. now rewrite E, IH.
Qed.

End CurrencyFacts.

(** X23: [cleanCurrency] reads digits, dots, minus signs, commas and parentheses
    only: an empty cell is 0; a cell that has text but none of these is not
    a number; any other cell has the value of what is left of it when
    everything else is taken out. *)
Theorem cleanCurrency_reads_currency_units_only (val : jsstring) :
  cleanCurrency val
  = if negb (truthy val) then zero
    else if negb (truthy (List.filter Spec.currencyUnit val)) then NaN
    else cleanCurrency (List.filter Spec.currencyUnit val).
Proof.
  unfold cleanCurrency at 1.
  destruct (truthy val) eqn:Hv; cbn [negb]; [|reflexivity].
  rewrite CurrencyFacts.strip_is_filter.
  destruct (List.filter Spec.currencyUnit val) as [|c rest] eqn:E; cbn [truthy negb].
  - reflexivity.
  - unfold cleanCurrency. cbn [truthy negb].
    rewrite CurrencyFacts.strip_is_filter, <- E, CurrencyFacts.filter_idem.
    reflexivity.
Qed.

(** ** Row counts *)

Module CountRowsFacts.
Import Spec.

Lemma olist_flat_length {A : Type} (f : nat -> option A) (l : list nat) :
  (List.length (flat_map (fun i => olist (f i)) l) <= List.length l)%nat.
Proof.
  induction l as [|i l IH]; [cbn; lia|].
  cbn [flat_map]. rewrite length_app. destruct (f i); cbn [olist List.length]; lia.
Qed.

Lemma loop_txs_length host opts ix d ro rows :
  (List.length (txs (fold_left (loopBody host opts ix d ro) rows (initialState opts)))
   <= List.length rows)%nat.
Proof.
  rewrite LoopFacts.fold_txs. cbn [txs initialState app].
  etransitivity; [apply olist_flat_length|]. now rewrite length_seq.
Qed.

Lemma countRows_le (p : list jsstring -> bool) (rows : grid) :
  (countRows p rows <= List.length rows)%nat.
Proof. unfold countRows. apply filter_length_le. Qed.

Lemma processRows_counts host opts inputRows data :
  processRows host opts inputRows = Ok data ->
  (rowsWithBalance (metadata data) <= List.length (tl (shapeRows inputRows)))%nat
  /\ (rowsWithAmount (metadata data) <= List.length (tl (shapeRows inputRows)))%nat
  /\ (rowsWithDebitCredit (metadata data) <= List.length (tl (shapeRows inputRows)))%nat.
Proof.
  intros H. unfold processRows in H.
  set (rows := shapeRows inputRows) in *.
  set (ix := indicesOf (detectColumnsWithContext host rows)) in *.
  clearbody ix.
  destruct (List.length rows <? 2)%nat; [discriminate|].
  destruct (dateIdx ix) as [d|] eqn:Hd; [|discriminate].
  destruct (amountIdx ix) eqn:Ha, (debitIdx ix) eqn:Hdb, (creditIdx ix) eqn:Hcr,
    (balanceIdx ix) eqn:Hb; try discriminate;
    injection H as <-;
    cbn [metadata rowsWithBalance rowsWithAmount rowsWithDebitCredit];
    repeat split;
    destruct (0 <? List.length rows - 1)%nat; try lia; apply countRows_le.
Qed.

End CountRowsFacts.

(** X24: The counts in the metadata of a result stay within the data rows:
    [originalRowCount] is the number of shaped rows, header included;
    [sanitizedRowCount] is the number of returned transactions and at most
    the number of data rows; so are the rows counted as having a balance, an
    amount, or a debit or credit. *)
Theorem processRows_counts_within_data_rows
  (hostDate : jsstring -> option jsstring) (options : AnonymizerOptions)
  (inputRows : grid) (data : SanitizedData) :
  processRows hostDate options inputRows = Ok data ->
  originalRowCount (metadata data) = S (List.length (tl (shapeRows inputRows)))
  /\ sanitizedRowCount (metadata data) = List.length (transactions data)
  /\ (List.length (transactions data) <= List.length (tl (shapeRows inputRows)))%nat
  /\ (rowsWithBalance (metadata data) <= List.length (tl (shapeRows inputRows)))%nat
  /\ (rowsWithAmount (metadata data) <= List.length (tl (shapeRows inputRows)))%nat
  /\ (rowsWithDebitCredit (metadata data) <= List.length (tl (shapeRows inputRows)))%nat.
Proof.
  intros H. pose proof (CountRowsFacts.processRows_counts _ _ _ _ H) as Hc.
  apply RecordFacts.processRows_final in H
    as (d & ro & _ & _ & _ & Htx & _ & _ & Hsan & Horig & Hlen).
  split; [|split; [exact Hsan|split; [|exact Hc]]].
  - rewrite Horig. destruct (shapeRows inputRows); cbn in *; lia.
  - rewrite Htx. apply CountRowsFacts.loop_txs_length.
Qed.

Lemma processRows_counts_within_data_rows_witness :
  exists data,
    processRows Spec.noHost defaultOptions Spec.balanceStatement = Ok data
    /\ sanitizedRowCount (metadata data) = List.length (transactions data)
    /\ (List.length (transactions data)
        <= List.length (tl (shapeRows Spec.balanceStatement)))%nat.
Proof.
  destruct (processRows Spec.noHost defaultOptions Spec.balanceStatement)
    as [data|m] eqn:E.
  - exists data. split; [reflexivity|].
    destruct (processRows_counts_within_data_rows _ _ _ _ E) as (_ & H1 & H2 & _).
    split; assumption.
  - exfalso. vm_compute in E. discriminate E.
Defined.

(** ** Balance orientation *)

Module OrientationFacts.
Import Dialect.

Lemma nth_falsy (amounts : list number) (i : nat) :
  Forall (fun a => truthyNum (fabs a) = false) amounts ->
  truthyNum (fabs (nth i amounts zero)) = false.
Proof.
  intros H. destruct (nth_in_or_default i amounts zero) as [Hin| ->].
  - rewrite List.Forall_forall in H. now apply H.
  - reflexivity.
Qed.

Lemma steps_idle balances amounts tolerance (l : list nat) acc :
  Forall (fun a => truthyNum (fabs a) = false) amounts ->
  fold_left (orientationStep balances amounts tolerance) l acc = acc.
Proof.
  intros H. induction l as [|i l IH]; [reflexivity|].
  cbn [fold_left]. unfold orientationStep at 2. destruct acc as [[f r] c].
  rewrite (nth_falsy amounts i H). cbn [negb]. exact IH.
Qed.

End OrientationFacts.

(** X25: When no amount is usable (each is 0, not a number, or missing), nothing
    is compared and [chooseBalanceOrientation] answers [forward] with a
    match rate of 0, whatever the balances. *)
Theorem chooseBalanceOrientation_without_amounts
  (balances amounts : list number) (tolerance : number) :
  Forall (fun a => truthyNum (fabs a) = false) amounts ->
  Dialect.chooseBalanceOrientation balances amounts tolerance = (Dialect.forward, zero).
Proof.
  intros H. unfold Dialect.chooseBalanceOrientation.
  now rewrite (OrientationFacts.steps_idle balances amounts tolerance _ (0, 0, 0) H).
Qed.

Lemma chooseBalanceOrientation_without_amounts_witness :
  Dialect.chooseBalanceOrientation [lit "100"; lit "80"] [zero; NaN] (lit "0.05")
  = (Dialect.forward, zero).
Proof.
  apply chooseBalanceOrientation_without_amounts.
  repeat constructor.
Defined.

(** ** Options and figures *)

Module OptionFacts.
Import Spec.

Lemma loopBody_ledger host o1 o2 ix d ro st1 st2 row :
  ledger st1 = ledger st2 ->
  ledger (loopBody host o1 ix d ro st1 row) = ledger (loopBody host o2 ix d ro st2 row).
Proof.
  intros H. unfold ledger in H. injection H as Htx Hb Ha Hs Hl Hr.
  unfold loopBody, rowStep.
  destruct (List.length row <? 2)%nat; [unfold ledger; congruence|].
  destruct (parseDateString host (cell row d)) as [[|c s]|];
    try (unfold ledger; cbn; congruence).
  destruct (sanitizeDescription o1 _ _) as [c1 r1].
  destruct (normalizeMerchant o1 c1 r1) as [m1 r1'].
  destruct (sanitizeDescription o2 _ _) as [c2 r2].
  destruct (normalizeMerchant o2 c2 r2) as [m2 r2'].
  rewrite Hs, Hl, Hr.
  match goal with
  | |- context [match balanceIdx ix with Some b => @?f b | None => ?g end] =>
      destruct (match balanceIdx ix with Some b => f b | None => g end)
        as [[[res last] recent] sk]
  end.
  destruct (explicitAmount ix row res) as [[fa ty] inf].
  destruct (negb (feq fa zero)); unfold ledger, pushTransaction;
    cbn [txs balancesForCorrelation amountsForCorrelation skips lastValidBalance
         recentAbsDeltas];
    rewrite ?map_app; unfold figures in *;
    cbn [map txDate txAmount txType inferenceSource]; congruence.
Qed.

Lemma loop_ledger host o1 o2 ix d ro rows : forall st1 st2,
  ledger st1 = ledger st2 ->
  ledger (fold_left (loopBody host o1 ix d ro) rows st1)
  = ledger (fold_left (loopBody host o2 ix d ro) rows st2).
Proof.
  induction rows as [|row rows IH]; intros st1 st2 H; [exact H|].
  cbn [fold_left]. apply IH. now apply loopBody_ledger.
Qed.

End OptionFacts.

(** X26: The options of the anonymizer change texts and the removal report only:
    whatever two option sets are used on the same rows, [processRows] fails
    with the same message under both, or returns under both the same dates,
    amounts, types and inference sources, the same column classification,
    row order, direction strategy and confidence, skip summary and row
    counts. *)
Theorem processRows_figures_independent_of_options
  (hostDate : jsstring -> option jsstring) (options1 options2 : AnonymizerOptions)
  (inputRows : grid) :
  match processRows hostDate options1 inputRows,
        processRows hostDate options2 inputRows with
  | Ok data1, Ok data2 => Spec.findings data1 = Spec.findings data2
  | Throw message1, Throw message2 => message1 = message2
  | _, _ => False
  end.
Proof.
  unfold processRows.
  set (rows := shapeRows inputRows).
  set (ix := indicesOf (detectColumnsWithContext hostDate rows)).
  destruct (List.length rows <? 2)%nat; [reflexivity|].
  destruct (dateIdx ix) as [d|] eqn:Hd; [|reflexivity].
  set (ro := Dialect.inferRowOrderFromDates _).
  pose proof (OptionFacts.loop_ledger hostDate options1 options2 ix d ro (tl rows)
                (initialState options1) (initialState options2) eq_refl) as H.
  set (f1 := fold_left (loopBody hostDate options1 ix d ro) (tl rows) _) in *.
  set (f2 := fold_left (loopBody hostDate options2 ix d ro) (tl rows) _) in *.
  clearbody f1 f2 ix. unfold Spec.ledger in H.
  injection H as Htx Hb Ha Hs Hl Hr.
  assert (Hlen : List.length (txs f1) = List.length (txs f2)).
  { rewrite <- (length_map Spec.figures (txs f1)), Htx. apply length_map. }
  destruct (amountIdx ix), (debitIdx ix), (creditIdx ix), (balanceIdx ix);
    try reflexivity;
    unfold Spec.findings;
    cbn [metadata transactions detectedColumnsList rowOrder directionStrategy
         directionConfidence skipSummary originalRowCount sanitizedRowCount
         rowsWithBalance rowsWithAmount rowsWithDebitCredit];
    rewrite ?Htx, ?Hb, ?Ha, ?Hs, ?Hlen; reflexivity.
Qed.

(** ** Generated header names *)

(** X27: The header of the shaped grid is the first row with content, its
    byte-order mark stripped, continued with generated names up to the cell
    count of the widest row with content, which is the cell count of the
    header: the name at position [i], counted from 0, is [Column_] followed
    by [i + 1] in decimal. *)
Theorem shapeRows_names_added_columns (rows : grid) :
  let kept := List.filter hasContent rows in
  hd [] (shapeRows rows)
  = stripBom (hd [] kept)
    ++ map (fun i => js "Column_" ++ natToString (i + 1))
         (seq (List.length (hd [] kept))
              (Spec.widest kept - List.length (hd [] kept)))
  /\ List.length (hd [] (shapeRows rows)) = Spec.widest kept.
Proof.
  intros kept. destruct kept as [|first data] eqn:E.
  - unfold shapeRows. fold kept. rewrite E. split; reflexivity.
  - rewrite (ShapeFacts.shapeRows_of_kept _ _ _ E). cbn [hd].
    split; [reflexivity|].
    pose proof (ShapeFacts.shapeRows_width first data) as H.
    now apply Forall_cons in H as [H _].
Qed.

(** ** Empty columns *)

Module EmptyColumnFacts.

(** The statistics of a column whose sampled cells are all empty. *)
Lemma empty_samples host header c (sampleRows : list (list jsstring)) : forall st,
  Forall (fun row : list jsstring => nth c row [] = []) sampleRows ->
  fold_left (sampleStep host header c) sampleRows st
  = {| scores := scores st; validSamples := validSamples st;
       emptyCount := emptyCount st + List.length sampleRows;
       numericCount := numericCount st;
       dateLikeCount := dateLikeCount st; textLikeCount := textLikeCount st;
       idLikeCount := idLikeCount st; numericVals := numericVals st |}.
Proof.
  induction sampleRows as [|row rows IH]; intros st H.
  - cbn. rewrite Nat.add_0_r. now destruct st.
  - apply Forall_cons in H as [Hrow H]. cbn [fold_left].
    rewrite IH by assumption. unfold sampleStep. rewrite Hrow.
    cbn [truthy negb scores validSamples emptyCount numericCount dateLikeCount
         textLikeCount idLikeCount numericVals List.length].
    f_equal. lia.
Qed.

(** No share of an empty sample reaches one half. *)
Lemma zero_density (n : nat) :
  (n < 24)%nat -> fge (fdiv (ofNat 0) (ofNat (S n))) (lit "0.5") = false.
Proof.
  intros H.
  do 24 (destruct n as [|n]; [vm_compute; reflexivity|]). lia.
Qed.

Lemma analyseColumn_empty host headers (sampleRows : list (list jsstring))
      colCount hint c :
  (0 < List.length sampleRows <= 24)%nat ->
  Forall (fun row : list jsstring => nth c row [] = []) sampleRows ->
  columnType (fst (analyseColumn host headers sampleRows colCount hint c)) = Col.unknown
  /\ snd (analyseColumn host headers sampleRows colCount hint c) = false.
Proof.
  intros Hlen Hempty. unfold analyseColumn.
  rewrite (empty_samples host _ c sampleRows _ Hempty).
  cbn [validSamples numericCount emptyCount scores numericVals textLikeCount
       idLikeCount fst snd columnType].
  destruct (List.length sampleRows) as [|n] eqn:En; [lia|].
  rewrite (zero_density n) by lia.
  cbn [Nat.eqb andb]. rewrite !andb_false_r. cbn [Col.eqb andb].
  split; reflexivity.
Qed.

Lemma alter_other (t : Col.ColumnType) (i c : nat) (l : list ColumnAnalysis) :
  i <> c -> nth_error (alter (setColumnType t) i l) c = nth_error l c.
Proof.
  revert i c; induction l as [|a l IH]; intros [|i] [|c] H; cbn; try reflexivity;
    try congruence.
  apply IH. congruence.
Qed.

Lemma splitPair_other headers sampleRows numericCols analysis c :
  ~ In c numericCols ->
  nth_error (splitPair headers sampleRows numericCols analysis) c
  = nth_error analysis c.
Proof.
  intros Hc. unfold splitPair. destruct numericCols as [|c1 [|c2 rest]]; try reflexivity.
  match goal with
  | |- context [fold_left ?f sampleRows (false, 0, 0)] =>
      destruct (fold_left f sampleRows (false, 0, 0)) as [[collision c1Count] c2Count]
  end.
  destruct collision; [reflexivity|].
  rewrite !alter_other; [reflexivity| |]; intros ->; apply Hc; cbn; tauto.
Qed.

End EmptyColumnFacts.

(** X28: A column whose cells are empty in every sampled row (the first 24 data
    rows) is classified [unknown], whatever its header says. *)
Theorem detectColumnsWithContext_empty_column_unknown
  (hostDate : jsstring -> option jsstring) (rows : grid) (c : nat) :
  (2 <= List.length rows)%nat ->
  (c < List.length (hd [] rows))%nat ->
  Forall (fun row : list jsstring => nth c row [] = []) (Dialect.sampleOf rows) ->
  option_map columnType (nth_error (detectColumnsWithContext hostDate rows) c)
  = Some Col.unknown.
Proof.
  intros Hrows Hc Hempty. unfold detectColumnsWithContext.
  destruct (Nat.ltb_spec (List.length rows) 2); [lia|]. cbv zeta.
  assert (Hsample : (0 < List.length (Dialect.sampleOf rows) <= 24)%nat).
  { unfold Dialect.sampleOf. rewrite length_firstn.
    destruct rows as [|h [|r rows]]; cbn [tl List.length] in *; lia. }
  set (analyse := analyseColumn hostDate _ _ _ _).
  destruct (EmptyColumnFacts.analyseColumn_empty hostDate
              (map toLowerCase (hd [] rows)) (Dialect.sampleOf rows)
              (List.length (hd [] rows)) (Dialect.detectTypeColumn rows) c
              Hsample Hempty) as [Htype Hnum].
  fold analyse in Htype, Hnum.
  rewrite EmptyColumnFacts.splitPair_other.
  - rewrite nth_error_map, nth_error_map.
    rewrite (nth_error_nth' _ 0) by (rewrite length_seq; lia).
    rewrite seq_nth by lia. cbn [option_map Nat.add]. now rewrite Htype.
  - intros Hin. apply in_map_iff in Hin as (p & Hp & Hin).
    apply filter_In in Hin as [Hin Hsnd].
    apply in_map_iff in Hin as (c' & <- & _).
    assert (c' = c) as -> by (rewrite <- Hp; reflexivity).
    congruence.
Qed.

Lemma detectColumnsWithContext_empty_column_unknown_witness :
  option_map columnType
    (nth_error
       (detectColumnsWithContext Spec.noHost
          [[js "Date"; js "Amount"; js "Balance"];
           [js "2024-01-01"; []; js "100"];
           [js "2024-01-02"; []; js "80"]]) 1)
  = Some Col.unknown.
Proof.
  apply detectColumnsWithContext_empty_column_unknown.
  - cbn. lia.
  - cbn. lia.
  - vm_compute. repeat constructor.
Defined.

(** ** Literal terms *)

Module EscapeFacts.
Import Regex RegexParse Spec.

Definition special (c : N) : bool :=
  classMatches false false
    [CChar 46; CChar 42; CChar 43; CChar 63; CChar 94; CChar 36; CChar 123;
     CChar 125; CChar 40; CChar 41; CChar 124; CChar 91; CChar 93; CChar 92] c.

Lemma special_pattern : REGEXP_SPECIAL = Class false
    [CChar 46; CChar 42; CChar 43; CChar 63; CChar 94; CChar 36; CChar 123;
     CChar 125; CChar 40; CChar 41; CChar 124; CChar 91; CChar 93; CChar 92].
Proof. reflexivity. Qed.

Lemma escape_units (term : jsstring) :
  escapeRegExp term = flat_map (fun c => if special c then [92%N; c] else [c]) term.
Proof.
  unfold escapeRegExp, replaceAllWith. rewrite special_pattern.
  now rewrite (SingleFacts.replaceGo_single false _ special).
Qed.

Ltac by_bits c H :=
  destruct c as [|c]; [reflexivity|];
  repeat (destruct c as [c|c|];
          try (vm_compute in H; discriminate H); try reflexivity).

Lemma quantifier_plain (a : re) (c : N) (t : jsstring) :
  special c = false -> quantifier a (c :: t) = (a, c :: t).
Proof. intros H. by_bits c H. Qed.


(** How a sequence continues after its first atom. *)
Definition continue (a : re) (rest : option (re * jsstring)) : option (re * jsstring) :=
  match rest with
  | Some (Empty, u) => Some (a, u)
  | Some (b, u) => Some (Seq a b, u)
  | None => None
  end.

Lemma pAlt_plain_raw (f : nat) (c : N) (t : jsstring) :
  special c = false ->
  pAlt (S (S f)) (c :: t)
  = match Some (quantifier (Char c) t) with
    | Some (a, u) =>
        match pAlt (S f) u with
        | Some (Empty, u') => Some (a, u')
        | Some (b, u') => Some (Seq a b, u')
        | None => None
        end
    | None => None
    end.
Proof. intros H. by_bits c H. Qed.

Lemma pAlt_plain (f : nat) (c : N) (t : jsstring) :
  special c = false ->
  pAlt (S (S f)) (c :: t)
  = continue (fst (quantifier (Char c) t)) (pAlt (S f) (snd (quantifier (Char c) t))).
Proof.
  intros H. rewrite (pAlt_plain_raw f c t H).
  destruct (quantifier (Char c) t) as [a u]. reflexivity.
Qed.

Lemma special_cases (e : N) :
  special e = true ->
  In e [46; 42; 43; 63; 94; 36; 123; 125; 40; 41; 124; 91; 93; 92]%N.
Proof.
  unfold special, classMatches. cbn [xorb existsb itemMatches canon].
  intros H. repeat (apply orb_true_iff in H as [H|H];
                    [apply N.eqb_eq in H; subst; cbn; tauto|]).
  discriminate H.
Qed.

Lemma pAlt_escaped_raw (f : nat) (e : N) (t : jsstring) :
  special e = true ->
  pAlt (S (S f)) (92%N :: e :: t)
  = match Some (quantifier (Char e) t) with
    | Some (a, u) =>
        match pAlt (S f) u with
        | Some (Empty, u') => Some (a, u')
        | Some (b, u') => Some (Seq a b, u')
        | None => None
        end
    | None => None
    end.
Proof.
  intros H. apply special_cases in H.
  repeat (destruct H as [<-|H]; [reflexivity|]).
  destruct H.
Qed.

Lemma pAlt_escaped (f : nat) (e : N) (t : jsstring) :
  special e = true ->
  pAlt (S (S f)) (92%N :: e :: t)
  = continue (fst (quantifier (Char e) t)) (pAlt (S f) (snd (quantifier (Char e) t))).
Proof.
  intros H. rewrite (pAlt_escaped_raw f e t H).
  destruct (quantifier (Char e) t) as [a u]. reflexivity.
Qed.

Lemma quantifier_escaped (a : re) (rest : jsstring) :
  quantifier a (flat_map (fun c => if special c then [92%N; c] else [c]) rest)
  = (a, flat_map (fun c => if special c then [92%N; c] else [c]) rest).
Proof.
  destruct rest as [|c rest]; [reflexivity|].
  cbn [flat_map]. destruct (special c) eqn:E.
  - reflexivity.
  - cbn [app]. now apply quantifier_plain.
Qed.

Lemma continue_sequence (c : N) (t : jsstring) :
  continue (Char c) (Some (sequenceOf t, [])) = Some (sequenceOf (c :: t), []).
Proof. cbn [sequenceOf continue]. now destruct (sequenceOf t). Qed.

Lemma pAlt_escape (term : jsstring) : forall f,
  (List.length term < f)%nat ->
  pAlt f (flat_map (fun c => if special c then [92%N; c] else [c]) term)
  = Some (sequenceOf term, []).
Proof.
  induction term as [|c t IH]; intros f Hf.
  - destruct f as [|f]; [lia|]. reflexivity.
  - destruct f as [|[|f]]; cbn [List.length] in Hf; try lia.
    cbn [flat_map]. destruct (special c) eqn:E; cbn [app].
    + rewrite (pAlt_escaped f c _ E), quantifier_escaped. cbn [fst snd].
      rewrite IH by lia. apply continue_sequence.
    + rewrite (pAlt_plain f c _ E), quantifier_escaped. cbn [fst snd].
      rewrite IH by lia. apply continue_sequence.
Qed.

Lemma escape_length (term : jsstring) :
  (List.length term
   <= List.length (flat_map (fun c => if special c then [92%N; c] else [c]) term))%nat.
Proof.
  induction term as [|c t IH]; [reflexivity|].
  cbn [flat_map]. rewrite length_app. destruct (special c); cbn [List.length]; lia.
Qed.

(** A sequence read by the pattern syntax matches like the literal. *)
Lemma sequence_literal ic (term : jsstring) : forall k p,
  rmatch ic (sequenceOf term) k p = rmatch ic (literal term) k p.
Proof.
  induction term as [|c t IH]; intros k p; [reflexivity|].
  cbn [literal fold_right]. fold (literal t).
  cbn [rmatch]. unfold step1.
  assert (H : rmatch ic (sequenceOf (c :: t)) k p
              = step1 (fun x => (canon ic c =? canon ic x)%N)
                      (rmatch ic (sequenceOf t) k) p).
  { cbn [sequenceOf]. destruct (sequenceOf t); reflexivity. }
  rewrite H. unfold step1. destruct (prest p) as [|x rest]; [reflexivity|].
  destruct (_ =? _)%N; [apply IH|reflexivity].
Qed.

End EscapeFacts.

(** X29: Every term that [escapeRegExp] has escaped is read by the pattern syntax
    as a whole, and as the sequence of its own code units: no code unit of
    the term acts as an operator, and the pattern matches exactly like the
    literal term. *)
Theorem escapeRegExp_reads_as_literal (term : jsstring) :
  exists r,
    RegexParse.pDisj (2 * List.length (escapeRegExp term) + 2) (escapeRegExp term)
    = Some (r, [])
    /\ forall ic k p,
         Regex.rmatch ic r k p = Regex.rmatch ic (literal term) k p.
Proof.
  exists (Spec.sequenceOf term). split.
  - rewrite EscapeFacts.escape_units.
    pose proof (EscapeFacts.escape_length term) as Hlen.
    replace (2 * _ + 2)%nat
      with (S (S (2 * List.length
                        (flat_map (fun c => if EscapeFacts.special c then [92%N; c] else [c])
                                  term)))) by lia.
    cbn [RegexParse.pDisj]. rewrite EscapeFacts.pAlt_escape by lia. reflexivity.
  - intros ic k p. apply EscapeFacts.sequence_literal.
Qed.

(** ** Letter case and the [i] flag *)

Module CaseFacts.
Import JsString Regex Spec CharFacts.

Definition same (a b : N) : Prop := toUpperChar a = toUpperChar b.

Lemma same_cases (a b : N) :
  same a b ->
  a = b \/ ((97 <= a <= 122)%N /\ b = (a - 32)%N)
  \/ ((97 <= b <= 122)%N /\ a = (b - 32)%N).
Proof.
  unfold same, toUpperChar.
  destruct (isLower a) eqn:Ha, (isLower b) eqn:Hb; intros H;
    try apply lower_range in Ha; try apply lower_range in Hb;
    try apply isLower_false in Ha; try apply isLower_false in Hb; lia.
Qed.

Lemma upper_of_lower (a : N) : (97 <= a <= 122)%N -> toUpperChar a = (a - 32)%N.
Proof.
  intros H. unfold toUpperChar. apply lower_range in H. now rewrite H.
Qed.

Lemma upper_of_upper (a : N) : (97 <= a <= 122)%N -> toUpperChar (a - 32) = (a - 32)%N.
Proof.
  intros H. unfold toUpperChar.
  replace (isLower (a - 32)) with false; [reflexivity|].
  symmetry. apply isLower_false. lia.
Qed.

Lemma lower_of_lower (a : N) : (97 <= a <= 122)%N -> toLowerChar a = a.
Proof.
  intros H. unfold toLowerChar.
  replace (isUpper a) with false; [reflexivity|].
  symmetry. apply isUpper_false. lia.
Qed.

Lemma lower_of_upper (a : N) : (97 <= a <= 122)%N -> toLowerChar (a - 32) = a.
Proof.
  intros H. unfold toLowerChar.
  replace (isUpper (a - 32)) with true; [lia|].
  symmetry. apply upper_range. lia.
Qed.

Lemma same_digit a b : same a b -> isDigit a = isDigit b.
Proof.
  intros H. destruct (same_cases _ _ H) as [->|[[Hr ->]|[Hr ->]]]; [reflexivity| |];
    unfold isDigit; apply eq_true_iff_eq; to_prop; lia.
Qed.

Lemma same_word a b : same a b -> isWordChar a = isWordChar b.
Proof.
  intros H. destruct (same_cases _ _ H) as [->|[[Hr ->]|[Hr ->]]]; [reflexivity| |];
    unfold isWordChar, isDigit, isUpper, isLower; apply eq_true_iff_eq; to_prop; lia.
Qed.

Lemma same_space a b : same a b -> isSpace a = isSpace b.
Proof.
  intros H. destruct (same_cases _ _ H) as [->|[[Hr ->]|[Hr ->]]]; [reflexivity| |];
    rewrite !range_not_space by lia; reflexivity.
Qed.

Lemma same_terminator a b : same a b -> isLineTerminator a = isLineTerminator b.
Proof.
  intros H. destruct (same_cases _ _ H) as [->|[[Hr ->]|[Hr ->]]]; [reflexivity| |];
    unfold isLineTerminator; apply eq_true_iff_eq; to_prop; lia.
Qed.

Lemma same_range lo hi a b : same a b -> inRange true lo hi a = inRange true lo hi b.
Proof.
  intros H. unfold inRange.
  destruct (same_cases _ _ H) as [->|[[Hr ->]|[Hr ->]]]; [reflexivity| |];
    rewrite (upper_of_lower _ Hr), (upper_of_upper _ Hr), (lower_of_lower _ Hr),
            (lower_of_upper _ Hr).
  - destruct ((lo <=? a)%N && (a <=? hi)%N), ((lo <=? a - 32)%N && (a - 32 <=? hi)%N);
      reflexivity.
  - destruct ((lo <=? b)%N && (b <=? hi)%N), ((lo <=? b - 32)%N && (b - 32 <=? hi)%N);
      reflexivity.
Qed.

Lemma same_item it a b : same a b -> itemMatches true it a = itemMatches true it b.
Proof.
  intros H. destruct it; cbn [itemMatches].
  - unfold canon. now rewrite H.
  - now apply same_range.
  - now apply same_digit.
  - f_equal. now apply same_digit.
  - now apply same_word.
  - f_equal. now apply same_word.
  - now apply same_space.
  - f_equal. now apply same_space.
Qed.

Lemma same_class neg items a b :
  same a b -> classMatches true neg items a = classMatches true neg items b.
Proof.
  intros H. unfold classMatches. f_equal.
  induction items as [|it items IH]; [reflexivity|].
  cbn [existsb]. now rewrite IH, (same_item it a b H).
Qed.

(** Positions of two subjects that differ in letter case only. *)
Definition sameOpt (o o' : option N) : Prop :=
  match o, o' with
  | Some a, Some b => same a b
  | None, None => True
  | _, _ => False
  end.

Definition samePos (p q : pos) : Prop :=
  pidx p = pidx q /\ sameOpt (ppre p) (ppre q) /\ Forall2 same (prest p) (prest q).

Definition sameResult (o o' : option pos) : Prop :=
  match o, o' with
  | Some p, Some q => samePos p q
  | None, None => True
  | _, _ => False
  end.

Definition sameCont (k k' : pos -> option pos) : Prop :=
  forall p q, samePos p q -> sameResult (k p) (k' q).

Lemma orElse_same a a' b b' :
  sameResult a a' -> sameResult b b' -> sameResult (orElse a b) (orElse a' b').
Proof. destruct a, a'; cbn; tauto. Qed.

Lemma step1_same ok ok' k k' :
  (forall a b, same a b -> ok a = ok' b) ->
  sameCont k k' -> sameCont (step1 ok k) (step1 ok' k').
Proof.
  intros Hok Hk p q (Hi & Hp & Hr). unfold step1.
  destruct Hr as [|a b ra rb Hab Hr]; [exact I|].
  rewrite (Hok a b Hab). destruct (ok' b); [|exact I].
  apply Hk. repeat split; cbn; [now rewrite Hi|exact Hab|exact Hr].
Qed.

Lemma same_boundary p q : samePos p q -> atWordBoundary p = atWordBoundary q.
Proof.
  intros (_ & Hp & Hr). unfold atWordBoundary. f_equal.
  - destruct (ppre p), (ppre q); cbn in *; try tauto. now apply same_word.
  - destruct Hr; cbn; [reflexivity|]. now apply same_word.
Qed.

Lemma rloop_same m m' g :
  (forall k k', sameCont k k' -> sameCont (m k) (m' k')) ->
  forall fuel mn mx k k',
    sameCont k k' -> sameCont (rloop m g mn mx fuel k) (rloop m' g mn mx fuel k').
Proof.
  intros Hm. induction fuel as [|f IH]; intros mn mx k k' Hk p q Hpq; [exact I|].
  cbn [rloop].
  assert (Hagain :
    sameResult
      (m (fun p' => if (mn =? 0)%nat && (pidx p' =? pidx p)%nat then None
                    else rloop m g (pred mn) (option_map pred mx) f k p') p)
      (m' (fun p' => if (mn =? 0)%nat && (pidx p' =? pidx q)%nat then None
                     else rloop m' g (pred mn) (option_map pred mx) f k' p') q)).
  { apply Hm; [|exact Hpq].
    intros p1 q1 H1. destruct Hpq as (Hi & _). destruct H1 as (Hi1 & H1).
    rewrite Hi, Hi1.
    destruct ((mn =? 0)%nat && (pidx q1 =? pidx q)%nat); [exact I|].
    apply IH; [exact Hk|]. split; [exact Hi1|exact H1]. }
  destruct mx as [[|mx]|].
  - now apply Hk.
  - destruct (0 <? mn)%nat; [exact Hagain|].
    destruct g; apply orElse_same; auto.
  - destruct (0 <? mn)%nat; [exact Hagain|].
    destruct g; apply orElse_same; auto.
Qed.

(** With the [i] flag, a pattern matches two subjects that differ in letter
    case only in the same ways. *)
Lemma rmatch_same (r : re) :
  forall k k', sameCont k k' -> sameCont (rmatch true r k) (rmatch true r k').
Proof.
  induction r; intros k k' Hk; cbn [rmatch].
  - exact Hk.
  - apply step1_same; [|exact Hk]. intros a b H. unfold canon. now rewrite H.
  - apply step1_same; [|exact Hk]. intros a b H. f_equal. now apply same_terminator.
  - apply step1_same; [|exact Hk]. intros a b H. now apply same_class.
  - apply IHr1. now apply IHr2.
  - intros p q Hpq. apply orElse_same; [now apply IHr1|now apply IHr2].
  - intros p q Hpq.
    replace (List.length (prest q)) with (List.length (prest p)).
    + apply rloop_same; [exact IHr|exact Hk|exact Hpq].
    + destruct Hpq as (_ & _ & Hr). clear -Hr. induction Hr; cbn; congruence.
  - intros p q Hpq. pose proof Hpq as (_ & Hp & _).
    destruct (ppre p), (ppre q); cbn in Hp; try tauto; [exact I|now apply Hk].
  - intros p q Hpq. pose proof Hpq as (_ & _ & Hr).
    destruct Hr; [now apply Hk|exact I].
  - intros p q Hpq. rewrite (same_boundary p q Hpq).
    destruct (atWordBoundary q); [now apply Hk|exact I].
  - intros p q Hpq. rewrite (same_boundary p q Hpq).
    destruct (atWordBoundary q); [exact I|now apply Hk].
Qed.

Lemma searchFrom_same (r : re) (rest rest' : jsstring) :
  Forall2 same rest rest' ->
  forall pre pre' idx,
    sameOpt pre pre' ->
    match searchFrom true r pre idx rest with Some _ => true | None => false end
    = match searchFrom true r pre' idx rest' with Some _ => true | None => false end.
Proof.
  induction 1 as [|a b ra rb Hab Hr IH]; intros pre pre' idx Hpre; cbn [searchFrom].
  - assert (H : sameResult (matchAt true r (mkPos pre idx []))
                           (matchAt true r (mkPos pre' idx []))).
    { apply rmatch_same; [intros p q Hpq; exact Hpq|].
      repeat split; cbn; [exact Hpre|constructor]. }
    destruct (matchAt true r (mkPos pre idx [])),
             (matchAt true r (mkPos pre' idx [])); cbn in H; tauto.
  - assert (H : sameResult (matchAt true r (mkPos pre idx (a :: ra)))
                           (matchAt true r (mkPos pre' idx (b :: rb)))).
    { apply rmatch_same; [intros p q Hpq; exact Hpq|].
      repeat split; cbn; [exact Hpre|now constructor]. }
    destruct (matchAt true r (mkPos pre idx (a :: ra))),
             (matchAt true r (mkPos pre' idx (b :: rb))); cbn in H; try tauto.
    apply IH. exact Hab.
Qed.

Lemma test_same (r : re) (s s' : jsstring) :
  sameLetters s s' -> test true r s = test true r s'.
Proof.
  intros H. unfold test. now apply searchFrom_same.
Qed.

Lemma trimStart_same (s s' : jsstring) :
  sameLetters s s' -> sameLetters (trimStart s) (trimStart s').
Proof.
  induction 1 as [|a b ra rb Hab Hr IH]; [constructor|].
  cbn [trimStart]. rewrite (same_space a b Hab).
  destruct (isSpace b); [exact IH|now constructor].
Qed.

Lemma rev_same (s s' : jsstring) : sameLetters s s' -> sameLetters (rev s) (rev s').
Proof.
  induction 1 as [|a b ra rb Hab Hr IH]; [constructor|].
  cbn [rev]. apply Forall2_app; [exact IH|]. now repeat constructor.
Qed.

Lemma trim_same (s s' : jsstring) : sameLetters s s' -> sameLetters (trim s) (trim s').
Proof.
  intros H. unfold trim, trimEnd.
  now apply rev_same, trimStart_same, rev_same, trimStart_same.
Qed.

Lemma truthy_same (s s' : jsstring) : sameLetters s s' -> truthy s = truthy s'.
Proof. now destruct 1. Qed.

End CaseFacts.

(** X30: [mapTypeToDirection] does not look at the case of the letters A to Z:
    two type cells that differ in letter case only have the same
    direction. *)
Theorem mapTypeToDirection_ignores_letter_case (rawType rawType' : jsstring) :
  Spec.sameLetters rawType rawType' ->
  Dialect.mapTypeToDirection (Some rawType) = Dialect.mapTypeToDirection (Some rawType').
Proof.
  intros H. unfold Dialect.mapTypeToDirection. cbn [default from_option id].
  apply CaseFacts.trim_same in H.
  rewrite (CaseFacts.truthy_same _ _ H).
  destruct (negb (truthy (trim rawType'))); [reflexivity|].
  unfold Dialect.firstToken.
  rewrite (List.filter_ext _ (fun t => Regex.test true (fst t) (trim rawType'))
             (fun t => CaseFacts.test_same (fst t) _ _ H)).
  rewrite (CaseFacts.test_same Dialect.LOOSE_EXPENSE _ _ H),
          (CaseFacts.test_same Dialect.LOOSE_INCOME _ _ H).
  reflexivity.
Qed.

(** [DEBIT Card] and [debit card] are both an expense. *)
Lemma mapTypeToDirection_ignores_letter_case_witness :
  Dialect.mapTypeToDirection (Some (js "DEBIT Card"))
  = Dialect.mapTypeToDirection (Some (js "debit card")).
Proof.
  apply mapTypeToDirection_ignores_letter_case.
  repeat constructor.
Defined.
